(** * AI Hype-Watch: the pipeline of [src/index.ts] as Rocq definitions

    The program is a sequential script around two remote services (a news
    search API and a chat-completion model) and the local file system.  The
    embedding keeps that shape:

    - JavaScript strings are [string]s holding the UTF-8 bytes of the text
      (what the files on disk and the digest see);
    - values that come out of [JSON.parse] are [JsValue]s; the articles the
      Scout builds from the answer of the news service are [NewsArticle]s, and
      what [fetchNews] hands to the rest of the script, which may be the
      content of a cache file, is a [JsValue] again: the annotations of
      TypeScript check nothing when the script runs;
    - the file system, the clock and the chronological list of effects form a
      [World]; the remote services are deterministic oracles over the history
      of remote calls;
    - [async] functions are computations in a state-and-exception monad, so
      that [try]/[catch], [throw] and [process.exit] read as in the source.

    The agents are embedded for a [CONFIG] that has been read; the check of
    the environment variables and the creation of the cache directory, done
    when the script is loaded, are in [script].

    Library functions the script calls but does not implement ([JSON.parse],
    [JSON.stringify], [marked.parse], [path.join], [Date] formatting) are the
    fields of the [Platform] class.  The MD5 digest of [node:crypto] is
    written out (RFC 1321), because the analysis cache key is made of it. *)

From Stdlib Require Import ZArith List String Ascii Bool Lia.
From stdpp Require Import gmap strings list pretty.

#[local] Set Warnings "-register-all".
Local Open Scope Z_scope.

(** ** Characters and the regular expressions of the source *)

Module Chars.

Abbreviation chars := (list ascii).

Definition code (c : ascii) : Z := Z.of_N (N_of_ascii c).

Definition of_string (s : string) : chars := list_ascii_of_string s.
Definition to_string (l : chars) : string := string_of_list_ascii l.

(** ASCII case folding, the canonicalisation of the [i] flag on the ASCII
    letters the patterns contain (without the [u] flag no character outside
    ASCII folds onto an ASCII one). *)
Definition lower (c : ascii) : ascii :=
  if (65 <=? code c) && (code c <=? 90)
  then ascii_of_N (N_of_ascii c + 32) else c.

Definition eq_ci (a b : ascii) : bool := Ascii.eqb (lower a) (lower b).

(** [\w]: ASCII letters, digits and underscore. *)
Definition is_word (c : ascii) : bool :=
  let n := code c in
  ((48 <=? n) && (n <=? 57)) || ((65 <=? n) && (n <=? 90))
  || ((97 <=? n) && (n <=? 122)) || (n =? 95).

(** [strip_prefix eqc p s]: the rest of [s] after the literal [p], characters
    compared with [eqc]. *)
Fixpoint strip_prefix (eqc : ascii -> ascii -> bool) (p s : chars) : option chars :=
  match p with
  | [] => Some s
  | a :: p' =>
      match s with
      | [] => None
      | b :: s' => if eqc a b then strip_prefix eqc p' s' else None
      end
  end.

(** Number of characters up to and including the first occurrence of the
    literal [p] in [s]: the end of the lazy [[\s\S]*?p]. *)
Fixpoint find_end (eqc : ascii -> ascii -> bool) (p s : chars) : option nat :=
  match strip_prefix eqc p s with
  | Some _ => Some (length p)
  | None =>
      match s with
      | [] => None
      | _ :: s' => option_map S (find_end eqc p s')
      end
  end.

(** Number of characters up to and including the first [stop] character: the
    end of the greedy [[^c]*c]. *)
Fixpoint skip_past (stop : ascii) (s : chars) : option nat :=
  match s with
  | [] => None
  | c :: s' => if Ascii.eqb c stop then Some 1%nat else option_map S (skip_past stop s')
  end.

(** Length of the longest run of [\w] characters at the start of [s]. *)
Fixpoint word_run (s : chars) : nat :=
  match s with
  | c :: s' => if is_word c then S (word_run s') else 0%nat
  | [] => 0%nat
  end.

(** [String.prototype.replace] with a global pattern and the empty
    replacement: [matcher s] is the length of the match of the pattern at the
    start of [s], if there is one.  The scan goes left to right; after a match
    of length [n] the next [n] characters are dropped and the scan resumes
    behind them.  [skip] counts the characters of the current match still to
    drop.  (All patterns here match at least one character.) *)
Fixpoint remove_all (matcher : chars -> option nat) (skip : nat) (s : chars) : chars :=
  match s with
  | [] => []
  | c :: s' =>
      match skip with
      | S k => remove_all matcher k s'
      | O =>
          match matcher s with
          | Some (S k) => remove_all matcher k s'
          | _ => c :: remove_all matcher 0 s'
          end
      end
  end.

End Chars.

(** ** MD5 (RFC 1321), as [crypto.createHash('md5').update(s).digest('hex')] *)

Module MD5.

Definition w32 (x : Z) : Z := x mod 2 ^ 32.

Definition rotl (x c : Z) : Z :=
  w32 (Z.lor (Z.shiftl x c) (Z.shiftr x (32 - c))).

Definition not32 (x : Z) : Z := 2 ^ 32 - 1 - x.

Definition shifts : list Z :=
  [7; 12; 17; 22; 7; 12; 17; 22; 7; 12; 17; 22; 7; 12; 17; 22;
   5; 9; 14; 20; 5; 9; 14; 20; 5; 9; 14; 20; 5; 9; 14; 20;
   4; 11; 16; 23; 4; 11; 16; 23; 4; 11; 16; 23; 4; 11; 16; 23;
   6; 10; 15; 21; 6; 10; 15; 21; 6; 10; 15; 21; 6; 10; 15; 21].

(** [floor (2^32 * abs (sin (i + 1)))] for [i] from 0 to 63. *)
Definition sines : list Z :=
  [3614090360; 3905402710; 606105819; 3250441966; 4118548399; 1200080426;
   2821735955; 4249261313; 1770035416; 2336552879; 4294925233; 2304563134;
   1804603682; 4254626195; 2792965006; 1236535329; 4129170786; 3225465664;
   643717713; 3921069994; 3593408605; 38016083; 3634488961; 3889429448;
   568446438; 3275163606; 4107603335; 1163531501; 2850285829; 4243563512;
   1735328473; 2368359562; 4294588738; 2272392833; 1839030562; 4259657740;
   2763975236; 1272893353; 4139469664; 3200236656; 681279174; 3936430074;
   3572445317; 76029189; 3654602809; 3873151461; 530742520; 3299628645;
   4096336452; 1126891415; 2878612391; 4237533241; 1700485571; 2399980690;
   4293915773; 2240044497; 1873313359; 4264355552; 2734768916; 1309151649;
   4149444226; 3174756917; 718787259; 3951481745].

Definition nthZ (l : list Z) (i : Z) : Z := nth (Z.to_nat i) l 0.

Record state := State { sa : Z; sb : Z; sc : Z; sd : Z }.

Definition init : state :=
  State 1732584193 4023233417 2562383102 271733878.

(** One of the 64 operations on the working state, [m] the 16 words of the
    block. *)
Definition step (m : list Z) (st : state) (i : Z) : state :=
  let '(State a b c d) := st in
  let '(f, g) :=
    if i <? 16 then (Z.lor (Z.land b c) (Z.land (not32 b) d), i)
    else if i <? 32 then (Z.lor (Z.land d b) (Z.land (not32 d) c), (5 * i + 1) mod 16)
    else if i <? 48 then (Z.lxor (Z.lxor b c) d, (3 * i + 5) mod 16)
    else (Z.lxor c (Z.lor b (not32 d)), (7 * i) mod 16) in
  let f' := w32 (f + a + nthZ sines i + nthZ m g) in
  State d (w32 (b + rotl f' (nthZ shifts i))) b c.

Definition rounds : list Z := map Z.of_nat (seq 0 64).

Definition block (st : state) (m : list Z) : state :=
  let '(State a b c d) := fold_left (step m) rounds st in
  State (w32 (sa st + a)) (w32 (sb st + b)) (w32 (sc st + c)) (w32 (sd st + d)).

(** Little-endian bytes of a word, and back. *)
Fixpoint le_bytes (n : nat) (x : Z) : list Z :=
  match n with
  | O => []
  | S n' => x mod 256 :: le_bytes n' (x / 256)
  end.

Fixpoint le_word (bs : list Z) : Z :=
  match bs with
  | [] => 0
  | b :: bs' => b + 256 * le_word bs'
  end.

(** The message followed by the bit 1, zero bits up to 56 bytes modulo 64, and
    the length in bits on 64 bits. *)
Definition pad (msg : list Z) : list Z :=
  let len := Z.of_nat (length msg) in
  let zeros := Z.to_nat ((55 - len) mod 64) in
  msg ++ [128] ++ repeat 0 zeros ++ le_bytes 8 ((8 * len) mod 2 ^ 64).

(** The 16-word blocks of a padded message; [n] bounds the number of blocks. *)
Fixpoint blocks (n : nat) (bs : list Z) : list (list Z) :=
  match n with
  | O => []
  | S n' =>
      match bs with
      | [] => []
      | _ =>
          let words := map (fun k => le_word (firstn 4 (skipn (4 * k) bs))) (seq 0 16) in
          words :: blocks n' (skipn 64 bs)
      end
  end.

Definition digest (msg : list Z) : list Z :=
  let padded := pad msg in
  let '(State a b c d) := fold_left block (blocks (length padded) padded) init in
  le_bytes 4 a ++ le_bytes 4 b ++ le_bytes 4 c ++ le_bytes 4 d.

Definition hex_digit (n : Z) : ascii :=
  nth (Z.to_nat n) (Chars.of_string "0123456789abcdef") "0"%char.

Definition hex (bs : list Z) : string :=
  Chars.to_string (flat_map (fun b => [hex_digit (b / 16); hex_digit (b mod 16)]) bs).

Definition md5_hex (s : string) : string :=
  hex (digest (map Chars.code (Chars.of_string s))).

End MD5.

(** ** JSON values *)

(** What [JSON.parse] returns.  Numbers are the integers (the only numbers the
    program gives a meaning to); an object lists its properties in insertion
    order, each name once.  The value [undefined] is the [None] of
    [option JsValue]. *)
Inductive JsValue :=
| JNull
| JBool (b : bool)
| JNum (z : Z)
| JStr (s : string)
| JArr (items : list JsValue)
| JObj (props : list (string * JsValue)).

Fixpoint assoc {A} (k : string) (l : list (string * A)) : option A :=
  match l with
  | [] => None
  | (k', v) :: l' => if String.eqb k k' then Some v else assoc k l'
  end.

(** ** Errors, outcomes and the monad of the script *)

Inductive ErrorKind := Error | TypeError | SyntaxError.

(** A thrown value. *)
Record JsError := mkError { kind : ErrorKind; message : string }.

Inductive Outcome (A : Type) :=
| Ok (a : A)
| Throw (e : JsError)
| Exit (code : Z).
Arguments Ok {A} a.
Arguments Throw {A} e.
Arguments Exit {A} code.

(** A computation over a state [S]: it ends with a value, with a thrown error
    or by [process.exit], and in each case leaves a state behind, so that what
    was mutated before a [throw] is still there in the [catch]. *)
Definition M (S A : Type) : Type := S -> Outcome A * S.

Definition ret {S A} (a : A) : M S A := fun s => (Ok a, s).

Definition bind {S A B} (m : M S A) (k : A -> M S B) : M S B :=
  fun s =>
    match m s with
    | (Ok a, s') => k a s'
    | (Throw e, s') => (Throw e, s')
    | (Exit c, s') => (Exit c, s')
    end.

Definition throw {S A} (e : JsError) : M S A := fun s => (Throw e, s).

Definition exit {S A} (c : Z) : M S A := fun s => (Exit c, s).

Definition try_catch {S A} (body : M S A) (handler : JsError -> M S A) : M S A :=
  fun s =>
    match body s with
    | (Throw e, s') => handler e s'
    | r => r
    end.

Definition get {S} : M S S := fun s => (Ok s, s).
Definition modify {S} (f : S -> S) : M S unit := fun s => (Ok tt, f s).

Declare Scope js_scope.
Delimit Scope js_scope with js.
Notation "x <- m ;; k" := (bind m (fun x => k))
  (at level 100, m at next level, right associativity) : js_scope.
Notation "m ;;; k" := (bind m (fun _ => k))
  (at level 100, right associativity) : js_scope.

(** ** The world: file system, clock, remote services, effects *)

Record NewsArticle := mkArticle {
  title : string;
  url : string;
  source : string;
  description : string
}.

(** An element of [response.data.articles].  [raw_source = None] is an article
    without a [source] object; [raw_description = None] a [null] description. *)
Record RawArticle := mkRaw {
  raw_title : string;
  raw_url : string;
  raw_source : option string;
  raw_description : option string
}.

(** The arguments of [client.chat.completions.create] that vary
    ([response_format] is always [json_object]). *)
Record ChatRequest := mkChat {
  chat_model : string;
  chat_system : string;
  chat_user : string;
  chat_temperature : string
}.

(** The parameters of the GET on [/v2/everything] ([sortBy] is [relevancy] and
    [language] is [en]). *)
Record NewsRequest := mkNews {
  news_q : string;
  news_from : string;
  news_pageSize : Z;
  news_page : Z;
  news_key : string
}.

(** A completion is the list of the [message.content] of its choices
    ([None] is [null]). *)
Inductive ChatResponse :=
| ChatFailed (msg : string)
| ChatCompletion (choices : list (option string)).

Inductive NewsResponse :=
| NewsFailed (msg : string)
| NewsData (articles : option (list RawArticle)).

Inductive Event :=
| EvNews (req : NewsRequest)
| EvChat (req : ChatRequest)
| EvSleep (ms : Z)
| EvMkdir (path : string)
| EvWrite (path : string) (content : string)
| EvLog (text : string)
| EvError (text : string) (detail : string).

Definition is_remote (e : Event) : bool :=
  match e with
  | EvNews _ | EvChat _ => true
  | _ => false
  end.

(** The remote calls made so far, oldest first: all that an answer of a
    remote service may depend on besides the request. *)
Definition remote_history (t : list Event) : list Event := List.filter is_remote t.

Record File := mkFile { content : string; mtimeMs : Z }.

(** [trace] lists the effects in the order they happened.  [chat] and [news]
    are the two services: any run against real services is a run against
    some such pair of functions.  Disk operations do not fail in the model, and
    the clock moves only in [sleep]. *)
Record World := mkWorld {
  files : gmap string File;
  dirs : gset string;
  now : Z;
  trace : list Event;
  chat : list Event -> ChatRequest -> ChatResponse;
  news : list Event -> NewsRequest -> NewsResponse
}.

Definition emit (e : Event) (w : World) : World :=
  mkWorld (files w) (dirs w) (now w) (trace w ++ [e]) (chat w) (news w).

Definition write_file (p c : string) (w : World) : World :=
  mkWorld (<[p := mkFile c (now w)]> (files w)) (dirs w) (now w)
    (trace w ++ [EvWrite p c]) (chat w) (news w).

Definition make_dir (p : string) (w : World) : World :=
  mkWorld (files w) ({[p]} ∪ dirs w) (now w) (trace w ++ [EvMkdir p]) (chat w) (news w).

Definition pass_time (ms : Z) (w : World) : World :=
  mkWorld (files w) (dirs w) (now w + ms) (trace w ++ [EvSleep ms]) (chat w) (news w).

Definition exists_path (p : string) (w : World) : bool :=
  bool_decide (is_Some (files w !! p)) || bool_decide (p ∈ dirs w).

(** ** The platform and the configuration *)

(** The library functions the script relies on.  [JSON_parse] answers with the
    value or with the message of the [SyntaxError]; [JSON_stringify v] is
    [JSON.stringify(v, null, 2)]; [toLocaleDateString] is the ['en-CA']
    rendering of a time in milliseconds and [Date_minus_days t n] the effect of
    [setDate(getDate() - n)] on it; [ToString] and [ToNumber] are the
    conversions JavaScript applies to a value inside a template literal and in
    a relational comparison ([None] is [NaN]); [String_slice s n] is
    [s.slice(0, n)] on a string. *)
Class Platform := {
  JSON_parse : string -> JsValue + string;
  JSON_stringify : JsValue -> string;
  marked_parse : string -> string;
  path_join : string -> string -> string;
  process_cwd : string;
  toISOString : Z -> string;
  toLocaleDateString : Z -> string;
  Date_minus_days : Z -> Z -> Z;
  ToString : JsValue -> string;
  ToNumber : JsValue -> option Z;
  String_slice : string -> Z -> string
}.

(** [CONFIG], read from the environment when the script is loaded.  The three
    numbers are the results of [parseInt]; a run in which one of them is [NaN]
    is outside the model. *)
Record Config := mkConfig {
  llmApiKey : string;
  llmBaseUrl : string;
  llmModel : string;
  newsApiKey : string;
  newsMaxRequests : Z;
  newsBatchSize : Z;
  respectRPM : Z
}.

(** The double quote character. *)
Definition dq : string := String (ascii_of_N 34) EmptyString.

(** ** Primitive operations on the world *)

Local Open Scope js_scope.

Definition console_log (text : string) : M World unit := modify (emit (EvLog text)).

Definition console_error (text detail : string) : M World unit :=
  modify (emit (EvError text detail)).

Definition sleep (ms : Z) : M World unit := modify (pass_time ms).

Definition Date_now : M World Z := fun w => (Ok (now w), w).

Definition fs_existsSync (p : string) : M World bool := fun w => (Ok (exists_path p w), w).

Definition fs_mkdirSync (p : string) : M World unit := modify (make_dir p).

Definition fs_writeFileSync (p c : string) : M World unit := modify (write_file p c).

Definition fs_readFileSync (p : string) : M World string :=
  fun w =>
    match files w !! p with
    | Some f => (Ok (content f), w)
    | None => (Throw (mkError Error ("ENOENT: no such file or directory, open " +:+ p)), w)
    end.

(** [fs.statSync(p).mtimeMs] *)
Definition fs_statSync (p : string) : M World Z :=
  fun w =>
    match files w !! p with
    | Some f => (Ok (mtimeMs f), w)
    | None => (Throw (mkError Error ("ENOENT: no such file or directory, stat " +:+ p)), w)
    end.

(** [await client.chat.completions.create(...)]: the call is recorded, and the
    answer is the one the service gives after the remote calls made before. *)
Definition chat_create (req : ChatRequest) : M World (list (option string)) :=
  fun w =>
    let w' := emit (EvChat req) w in
    match chat w (remote_history (trace w)) req with
    | ChatFailed msg => (Throw (mkError Error msg), w')
    | ChatCompletion choices => (Ok choices, w')
    end.

(** [await axios.get(...)], giving [response.data.articles]. *)
Definition axios_get (req : NewsRequest) : M World (option (list RawArticle)) :=
  fun w =>
    let w' := emit (EvNews req) w in
    match news w (remote_history (trace w)) req with
    | NewsFailed msg => (Throw (mkError Error msg), w')
    | NewsData articles => (Ok articles, w')
    end.

(** Mutable local variables of a function live beside the world. *)
Definition lift {L A} (m : M World A) : M (World * L) A :=
  fun s => let '(o, w') := m (fst s) in (o, (w', snd s)).

Definition local {L A} (f : L -> A) : M (World * L) A := fun s => (Ok (f (snd s)), s).

Definition set_local {L} (f : L -> L) : M (World * L) unit :=
  fun s => (Ok tt, (fst s, f (snd s))).

(** A computation that uses no state, run inside one that has some. *)
Definition pure {S A} (m : M unit A) : M S A := fun s => (fst (m tt), s).

Definition with_locals {L A} (l0 : L) (m : M (World * L) A) : M World A :=
  fun w => let '(o, s) := m (w, l0) in (o, fst s).

(** ** Small pieces of JavaScript *)

(** [completion.choices[0].message.content] *)
Definition first_content {S} (choices : list (option string)) : M S (option string) :=
  match choices with
  | [] => throw (mkError TypeError "Cannot read properties of undefined (reading 'message')")
  | c :: _ => ret c
  end.

(** [x || d] on a string that may be [null]: the empty string is falsy. *)
Definition or_else (x : option string) (d : string) : string :=
  match x with
  | Some (String c s) => String c s
  | _ => d
  end.

(** [o.k] for a property name [k] that is not a built-in one: a [TypeError]
    on [null], [undefined] on a value that has no such property. *)
Definition get_prop {S} (o : JsValue) (k : string) : M S (option JsValue) :=
  match o with
  | JNull => throw (mkError TypeError ("Cannot read properties of null (reading '" +:+ k +:+ "')"))
  | JObj props => ret (assoc k props)
  | _ => ret None
  end.

(** [o.k] on a value [o] that is not [null], for a property name [k] that is
    not a built-in one: [undefined] where [o] has no such property. *)
Definition prop (o : JsValue) (k : string) : option JsValue :=
  match o with
  | JObj props => assoc k props
  | _ => None
  end.

(** The values that count as true in [x || y]. *)
Definition truthy (x : option JsValue) : bool :=
  match x with
  | None | Some JNull => false
  | Some (JBool b) => b
  | Some (JNum z) => negb (z =? 0)
  | Some (JStr s) => negb (String.eqb s EmptyString)
  | Some (JArr _) | Some (JObj _) => true
  end.

(** An object literal whose property values may be [undefined], as
    [JSON.stringify] sees it: without the properties that are. *)
Fixpoint object_literal (props : list (string * option JsValue)) : list (string * JsValue) :=
  match props with
  | [] => []
  | (k, Some v) :: rest => (k, v) :: object_literal rest
  | (_, None) :: rest => object_literal rest
  end.

(** [articles.entries()]: the elements of an array, in order; no other value
    that [JSON.parse] gives has the method. *)
Definition array_entries {S} (articles : JsValue) : M S (list JsValue) :=
  match articles with
  | JArr items => ret items
  | JNull => throw (mkError TypeError "Cannot read properties of null (reading 'entries')")
  | _ => throw (mkError TypeError "articles.entries is not a function")
  end.

(** [Array.prototype.slice(0, n)] *)
Definition slice0 {A} (n : Z) (l : list A) : list A :=
  if n <? 0 then firstn (Z.to_nat (Z.max (Z.of_nat (length l) + n) 0)) l
  else firstn (Z.to_nat n) l.

(** The number of UTF-16 code units of a text given by its UTF-8 bytes: one
    for each byte that starts a character, and one more when the character
    takes four bytes. *)
Definition utf16_length (s : string) : Z :=
  fold_right (fun c n =>
      let b := Chars.code c in
      if (128 <=? b) && (b <? 192) then n else if 240 <=? b then n + 2 else n + 1)
    0 (Chars.of_string s).

(** The part of [s] before the first [T]: [s.split('T')[0]]. *)
Fixpoint before_T (s : string) : string :=
  match s with
  | EmptyString => EmptyString
  | String c s' => if Ascii.eqb c "T" then EmptyString else String c (before_T s')
  end.

(** The white space of [\s], on UTF-8 bytes: the rest of the text after one
    white-space character (tab, line feed, vertical tab, form feed, carriage
    return, space, U+00A0, U+1680, U+2000 to U+200A, U+2028, U+2029, U+202F,
    U+205F, U+3000, U+FEFF), if the text starts with one. *)
Definition after_space (s : Chars.chars) : option Chars.chars :=
  match s with
  | c :: s1 =>
      let b := Chars.code c in
      if ((9 <=? b) && (b <=? 13)) || (b =? 32) then Some s1
      else
        match s1 with
        | c2 :: s2 =>
            let b2 := Chars.code c2 in
            if (b =? 194) && (b2 =? 160) then Some s2
            else
              match s2 with
              | c3 :: s3 =>
                  let b3 := Chars.code c3 in
                  if ((b =? 225) && (b2 =? 154) && (b3 =? 128))
                     || ((b =? 226) && (b2 =? 128)
                         && (((128 <=? b3) && (b3 <=? 138)) || (b3 =? 168) || (b3 =? 169) || (b3 =? 175)))
                     || ((b =? 226) && (b2 =? 129) && (b3 =? 159))
                     || ((b =? 227) && (b2 =? 128) && (b3 =? 128))
                     || ((b =? 239) && (b2 =? 187) && (b3 =? 191))
                  then Some s3 else None
              | [] => None
              end
        | [] => None
        end
  | [] => None
  end.

(** [s.replace(/\s+/g, '_')]: every maximal run of white space becomes one
    underscore.  [n] bounds the number of steps and [in_run] tells that the
    run being read has already been replaced. *)
Fixpoint underscore_runs (n : nat) (in_run : bool) (s : Chars.chars) : Chars.chars :=
  match n with
  | O => []
  | S n' =>
      match after_space s with
      | Some rest =>
          if in_run then underscore_runs n' true rest
          else "_"%char :: underscore_runs n' true rest
      | None =>
          match s with
          | [] => []
          | c :: s' => c :: underscore_runs n' false s'
          end
      end
  end.

Definition replace_spaces (s : string) : string :=
  let l := Chars.of_string s in
  Chars.to_string (underscore_runs (S (length l)) false l).

(** ** The program *)

Section Program.

Context `{Platform}.
Variable CONFIG : Config.

Definition CACHE_DIR : string := path_join process_cwd "cache".

Definition json_parse {S} (text : string) : M S JsValue :=
  match JSON_parse text with
  | inl v => ret v
  | inr msg => throw (mkError SyntaxError msg)
  end.

(** The number a value stands for in a comparison. *)
Definition to_number (v : JsValue) : option Z :=
  match v with
  | JNum z => Some z
  | _ => ToNumber v
  end.

(** [v >= k] *)
Definition at_least (v : JsValue) (k : Z) : bool :=
  match to_number v with
  | Some z => k <=? z
  | None => false
  end.

(** The text a value becomes in a template literal, and in front of
    [+ string]. *)
Definition text_of (x : option JsValue) : string :=
  match x with
  | None => "undefined"
  | Some (JStr s) => s
  | Some v => ToString v
  end.

(** [`${o.k}`] for a value [o] that is not [null]. *)
Definition field (o : JsValue) (k : string) : string := text_of (prop o k).

(** [x || y] *)
Definition or_value (x y : option JsValue) : option JsValue := if truthy x then x else y.

(** *** Agent 1.5: the Gatekeeper *)

Definition gatekeeper_request (article : NewsArticle) : ChatRequest :=
  mkChat (llmModel CONFIG)
    "You are a strict news editor. Output JSON."
    ("
          Analyze if this article is explicitly about a specific business use case, corporate strategy, market trend, or financial implication of AI.
          Discard generic " +:+ dq +:+ "AI is the future" +:+ dq +:+ " fluff, pure research papers, or simple product announcements without business context.

          Title: " +:+ dq +:+ title article +:+ dq +:+ "
          Description: " +:+ dq +:+ description article +:+ dq +:+ "
          
          Return JSON: { " +:+ dq +:+ "is_business_case" +:+ dq +:+ ": boolean }
        ")
    "0.1".

Definition validateRelevance (article : NewsArticle) : M World bool :=
  try_catch
    (completion <- chat_create (gatekeeper_request article);;
     content <- first_content completion;;
     result <- json_parse (or_else content "{}");;
     is_business_case <- get_prop result "is_business_case";;
     ret (match is_business_case with Some (JBool true) => true | _ => false end))
    (fun e =>
       console_error ("   ⚠️ Gatekeeper error for " +:+ dq +:+ title article +:+ dq +:+ ":") (message e);;;
       ret false).

(** *** Agent 1: the Scout *)

Record Scout := mkScout {
  collectedArticles : list NewsArticle;
  seenUrls : gset string
}.

Definition push_article (a : NewsArticle) (l : Scout) : Scout :=
  mkScout (collectedArticles l ++ [a]) (seenUrls l).

Definition add_url (u : string) (l : Scout) : Scout :=
  mkScout (collectedArticles l) ({[u]} ∪ seenUrls l).

Definition collected_count : M (World * Scout) Z :=
  local (fun l => Z.of_nat (length (collectedArticles l))).

(** The [for (const a of response.data.articles)] loop. *)
Fixpoint scan_articles (articles : list RawArticle) : M (World * Scout) unit :=
  match articles with
  | [] => ret tt
  | a :: rest =>
      n <- collected_count;;
      if newsMaxRequests CONFIG <=? n then ret tt
      else
        seen <- local seenUrls;;
        if bool_decide (raw_url a ∈ seen) then scan_articles rest
        else
          set_local (add_url (raw_url a));;;
          name <- match raw_source a with
                  | Some name => ret name
                  | None => throw (mkError TypeError "Cannot read properties of undefined (reading 'name')")
                  end;;
          let article := mkArticle (raw_title a) (raw_url a) name (or_else (raw_description a) EmptyString) in
          isRelevant <- lift (validateRelevance article);;
          (if isRelevant : bool
           then lift (console_log ("   ✅ [Relevant] " +:+ title article));;;
                set_local (push_article article)
           else lift (console_log ("   ❌ [Skipped] " +:+ title article)));;;
          scan_articles rest
  end.

Definition MAX_PAGES : Z := 3.

(** The values of [page] for which [page <= MAX_PAGES] holds, in the order
    [page++] goes through them. *)
Definition page_numbers : list Z := map Z.of_nat (seq 1 (Z.to_nat MAX_PAGES)).

(** The [while] loop, [pages] being the page numbers still to come.  The
    body answers [false] where the source leaves the loop with [break]. *)
Fixpoint fetch_pages (topic fromDate : string) (pages : list Z) : M (World * Scout) unit :=
  match pages with
  | [] => ret tt
  | page :: later =>
      n <- collected_count;;
      if n <? newsMaxRequests CONFIG then
        lift (console_log ("
📄 Fetching Page " +:+ pretty page +:+ "..."));;;
        again <- try_catch
          (articles <- lift (axios_get (mkNews topic fromDate (newsBatchSize CONFIG) page (newsApiKey CONFIG)));;
           match articles with
           | None | Some [] =>
               lift (console_log "   ⚠️ No more articles available.");;; ret false
           | Some found => scan_articles found;;; ret true
           end)
          (fun error =>
             lift (console_error ("   ❌ Error fetching page " +:+ pretty page +:+ ":") (message error));;;
             ret false);;
        if again : bool then fetch_pages topic fromDate later else ret tt
      else ret tt
  end.

(** An article object of the Scout as a JavaScript value. *)
Definition article_to_json (a : NewsArticle) : JsValue :=
  JObj [("title", JStr (title a)); ("url", JStr (url a));
        ("source", JStr (source a)); ("description", JStr (description a))].

Definition cache_path (topic : string) : string :=
  path_join CACHE_DIR (replace_spaces topic +:+ ".json").

Definition CACHE_TTL : Z := 24 * 60 * 60 * 1000.

(** Step 1 of [fetchNews]: [Some articles] where the source returns from the
    cache, [None] where it goes on to the API.  [cachedData.length] is the
    length of an array or of a string, the [length] property of an object, and
    [undefined] on a number or a boolean.  What is returned is
    [cachedData.slice(0, n)] as [JSON.parse] gave it: the elements of an array
    are not looked at, and a string is sliced like an array. *)
Definition load_cached (cachePath : string) : M World (option JsValue) :=
  present <- fs_existsSync cachePath;;
  if present : bool then
    mtime <- fs_statSync cachePath;;
    t <- Date_now;;
    let isFresh := (t - mtime) <? CACHE_TTL in
    if isFresh then
      text <- fs_readFileSync cachePath;;
      cachedData <- json_parse text;;
      match cachedData with
      | JNull => throw (mkError TypeError "Cannot read properties of null (reading 'length')")
      | JArr items =>
          if newsMaxRequests CONFIG <=? Z.of_nat (length items) then
            console_log ("📦 Loading " +:+ pretty (newsMaxRequests CONFIG) +:+ " articles from local cache...");;;
            ret (Some (JArr (slice0 (newsMaxRequests CONFIG) items)))
          else
            console_log ("🔄 Cache only has " +:+ pretty (Z.of_nat (length items)) +:+ "/"
                         +:+ pretty (newsMaxRequests CONFIG) +:+ " articles. Re-fetching...");;;
            ret None
      | JStr s =>
          if newsMaxRequests CONFIG <=? utf16_length s then
            console_log ("📦 Loading " +:+ pretty (newsMaxRequests CONFIG) +:+ " articles from local cache...");;;
            ret (Some (JStr (String_slice s (newsMaxRequests CONFIG))))
          else
            console_log ("🔄 Cache only has " +:+ pretty (utf16_length s) +:+ "/"
                         +:+ pretty (newsMaxRequests CONFIG) +:+ " articles. Re-fetching...");;;
            ret None
      | JObj props =>
          match assoc "length" props with
          | Some len =>
              if at_least len (newsMaxRequests CONFIG) then
                console_log ("📦 Loading " +:+ pretty (newsMaxRequests CONFIG) +:+ " articles from local cache...");;;
                throw (mkError TypeError "cachedData.slice is not a function")
              else
                console_log ("🔄 Cache only has " +:+ ToString len +:+ "/"
                             +:+ pretty (newsMaxRequests CONFIG) +:+ " articles. Re-fetching...");;;
                ret None
          | None =>
              console_log ("🔄 Cache only has undefined/"
                           +:+ pretty (newsMaxRequests CONFIG) +:+ " articles. Re-fetching...");;;
              ret None
          end
      | _ =>
          console_log ("🔄 Cache only has undefined/"
                       +:+ pretty (newsMaxRequests CONFIG) +:+ " articles. Re-fetching...");;;
          ret None
      end
    else ret None
  else ret None.

(** Steps 2 and 3 of [fetchNews]. *)
Definition fetch_from_api (topic cachePath : string) : M World (list NewsArticle) :=
  console_log ("🌐 Fetching articles from NewsAPI to find " +:+ pretty (newsMaxRequests CONFIG)
               +:+ " relevant business cases...");;;
  t <- Date_now;;
  let fromDate := before_T (toISOString (Date_minus_days t 7)) in
  collected <- with_locals (mkScout [] ∅)
                 (fetch_pages topic fromDate page_numbers;;; local collectedArticles);;
  match collected with
  | [] => throw (mkError Error "NewsAPI returned no relevant articles after filtering.")
  | _ =>
      fs_writeFileSync cachePath (JSON_stringify (JArr (map article_to_json collected)));;;
      ret collected
  end.

(** The value [fetchNews] resolves to: the slice of the cached value, or the
    array of the article objects collected. *)
Definition fetchNews (topic : string) : M World JsValue :=
  let cachePath := cache_path topic in
  cached <- load_cached cachePath;;
  match cached with
  | Some articles => ret articles
  | None =>
      collected <- fetch_from_api topic cachePath;;
      ret (JArr (map article_to_json collected))
  end.

(** *** Agent 2: the Investigator *)

Definition systemPrompt : string :=
  "You are a skeptical business investigator. Your job is to uncover corporate bias in news articles. You must respond in valid JSON.".

(** From here on an article is the value [fetchNews] gave, whatever it is:
    its properties are read where the source reads them.  The prompt is the
    first to do so. *)
Definition userPrompt (article : JsValue) : string :=
  "
          INVESTIGATION TASK:
          Article Title: " +:+ dq +:+ field article "title" +:+ dq +:+ "
          Source: " +:+ dq +:+ field article "source" +:+ dq +:+ "
          Description: " +:+ dq +:+ field article "description" +:+ dq +:+ "
          URL: " +:+ field article "url" +:+ "

          Analyze the article and return a JSON object with the following fields:
          - " +:+ dq +:+ "summary" +:+ dq +:+ ": A concise 2-sentence summary.
          - " +:+ dq +:+ "seller_description" +:+ dq +:+ ": What this organization actually sells based on source/description.
          - " +:+ dq +:+ "hidden_motive" +:+ dq +:+ ": Analysis of whether this promotes a business case for the source.
          - " +:+ dq +:+ "motive_score" +:+ dq +:+ ": An integer from 1-10 (10 = pure sales pitch).
          - " +:+ dq +:+ "critique" +:+ dq +:+ ": A 3-sentence skeptical critique.
        ".

(** The cache key of an article under a prompt text: the digest of the
    article's identity followed by the digest of the prompt. *)
Definition analysis_key (article : JsValue) (prompt : string) : string :=
  let promptHash := MD5.md5_hex prompt in
  MD5.md5_hex (text_of (or_value (prop article "url") (prop article "title")) +:+ promptHash).

Definition articleHash (article : JsValue) : string :=
  analysis_key article (systemPrompt +:+ userPrompt article).

Definition analysis_path (article : JsValue) : string :=
  path_join CACHE_DIR ("analysis_" +:+ articleHash article +:+ ".json").

Definition investigator_request (article : JsValue) : ChatRequest :=
  mkChat (llmModel CONFIG) systemPrompt (userPrompt article) "0.3".

(** The object written to the analysis cache. *)
Definition cache_entry (article : JsValue) (analysis : JsValue) (t : Z) : JsValue :=
  JObj (object_literal
          [("title", prop article "title"); ("url", prop article "url");
           ("analysis", Some analysis); ("timestamp", Some (JStr (toISOString t)))]).

(** What [analyzeMotive] returns; [analysis] is [None] where the cached
    object has no [analysis] property. *)
Record Motive := mkMotive { analysis : option JsValue; fromCache : bool }.

(** [article.title] in [userPrompt] is the first property read: a
    [TypeError] when [article] is [null], and no other read can fail. *)
Definition analyzeMotive (article : JsValue) : M World Motive :=
  get_prop article "title";;;
  let cachePath := analysis_path article in
  present <- fs_existsSync cachePath;;
  if present : bool then
    console_log ("✨ Using cached analysis for: " +:+ field article "title");;;
    text <- fs_readFileSync cachePath;;
    cachedResult <- json_parse text;;
    stored <- get_prop cachedResult "analysis";;
    ret (mkMotive stored true)
  else
    console_log ("🤖 Requesting LLM analysis for: " +:+ field article "title" +:+ "...");;;
    completion <- chat_create (investigator_request article);;
    analysisResult <- try_catch
                        (content <- first_content completion;;
                         json_parse (or_else content "{}"))
                        (fun error => throw (mkError Error ("Failed to parse LLM JSON response: " +:+ message error)));;
    t <- Date_now;;
    fs_writeFileSync cachePath (JSON_stringify (cache_entry article analysisResult t));;;
    ret (mkMotive (Some analysisResult) false).

(** *** The report *)

(** An element of [finalResults]: the properties of the article as they were
    read ([None] is [undefined]), and the analysis. *)
Record AnalysisResult := mkResult {
  res_title : option JsValue;
  res_url : option JsValue;
  res_source : option JsValue;
  res_analysis : option JsValue
}.

(** The three patterns of [sanitizeHtml], each as the length of its match at
    the start of [s].  None of them can match in two ways: a greedy class is
    followed by a character outside the class, and the lazy part ends at the
    first closing tag.

    First pattern, flags [gim]: the text [<script] in any case, a word
    boundary (no word character next), characters other than [>] up to the
    first [>], and then anything up to and including the first [</script>]
    in any case. *)
Definition script_matcher (s : Chars.chars) : option nat :=
  match Chars.strip_prefix Chars.eq_ci (Chars.of_string "<script") s with
  | Some r1 =>
      if match r1 with c :: _ => Chars.is_word c | [] => false end then None
      else
        match Chars.skip_past ">" r1 with
        | Some n1 =>
            match Chars.find_end Chars.eq_ci (Chars.of_string "</script>") (skipn n1 r1) with
            | Some n2 => Some (7 + n1 + n2)%nat
            | None => None
            end
        | None => None
        end
  | None => None
  end.

(** Second pattern, flag [g]: the text [on], one or more word characters, an
    equals sign, a double quote, and characters up to and including the next
    double quote. *)
Definition handler_matcher (s : Chars.chars) : option nat :=
  match Chars.strip_prefix Ascii.eqb (Chars.of_string "on") s with
  | Some r1 =>
      let w := Chars.word_run r1 in
      match w with
      | O => None
      | _ =>
          match Chars.strip_prefix Ascii.eqb (Chars.of_string ("=" +:+ dq)) (skipn w r1) with
          | Some r2 =>
              match Chars.skip_past (ascii_of_N 34) r2 with
              | Some n => Some (2 + w + 2 + n)%nat
              | None => None
              end
          | None => None
          end
      end
  | None => None
  end.

(** Third pattern, flags [gi]: the text [javascript:] in any case. *)
Definition javascript_matcher (s : Chars.chars) : option nat :=
  match Chars.strip_prefix Chars.eq_ci (Chars.of_string "javascript:") s with
  | Some _ => Some 11%nat
  | None => None
  end.

(** The three [replace] calls of [sanitizeHtml], in the order of the source. *)
Definition sanitize_chars (l : Chars.chars) : Chars.chars :=
  Chars.remove_all javascript_matcher 0
    (Chars.remove_all handler_matcher 0
       (Chars.remove_all script_matcher 0 l)).

Definition sanitizeHtml (html : string) : string :=
  Chars.to_string (sanitize_chars (Chars.of_string html)).

(** [marked.parse(x)]: the renderer refuses what is not a string. *)
Definition marked {S} (x : option JsValue) : M S string :=
  match x with
  | Some (JStr s) => ret (marked_parse s)
  | None | Some JNull => throw (mkError Error "marked(): input parameter is undefined or null")
  | Some _ => throw (mkError Error "marked(): input parameter is of the wrong type, string expected")
  end.

(** [x ?? d] *)
Definition nullish (x : option JsValue) (d : JsValue) : JsValue :=
  match x with
  | None | Some JNull => d
  | Some v => v
  end.

Definition css : string :=
  "
    <style>
      body { font-family: -apple-system, BlinkMacSystemFont, " +:+ dq +:+ "Segoe UI" +:+ dq +:+ ", Roboto, Helvetica, Arial, sans-serif; line-height: 1.6; color: #333; max-width: 1200px; margin: 0 auto; padding: 20px; background-color: #f4f7f6; }
      .header { text-align: center; margin-bottom: 30px; }
      .period-badge { background: #34495e; color: white; padding: 5px 15px; border-radius: 20px; font-size: 0.9em; }
      table { width: 100%; border-collapse: collapse; background: white; box-shadow: 0 1px 3px rgba(0,0,0,0.1); border-radius: 8px; overflow: hidden; }
      th, td { padding: 15px; text-align: left; border-bottom: 1px solid #eee; vertical-align: top; }
      th { background-color: #3498db; color: white; text-transform: uppercase; font-size: 13px; }
      
      /* Style the parsed Markdown content */
      .analysis-content h1, .analysis-content h2 { font-size: 1.1em; margin-top: 0; }
      .analysis-content p { margin: 0 0 10px 0; }
      .analysis-content ul { padding-left: 20px; margin: 0; }
      .analysis-content strong { color: #2c3e50; }
      
      .score-badge { display: inline-block; padding: 4px 12px; border-radius: 20px; font-weight: bold; color: white; min-width: 40px; text-align: center; }
      .high-risk { background-color: #e74c3c; }
      .med-risk { background-color: #f39c12; }
      .low-risk { background-color: #27ae60; }
      a { color: #3498db; text-decoration: none; }
    </style>
  ".

(** The three template literals and the risk tier of the [results.map]
    callback. *)
Definition formatted_analysis (h_summary h_seller h_motive h_critique : string) : string :=
  "
      <p><strong>Summary:</strong> " +:+ h_summary +:+ "</p>
      <p><strong>Seller Identity:</strong> " +:+ h_seller +:+ "</p>
      <p><strong>Hidden Motive:</strong> " +:+ h_motive +:+ "</p>
      <p><strong>Critique:</strong> <em>" +:+ h_critique +:+ "</em></p>
    ".

Definition row_html (res : AnalysisResult) (formattedAnalysis scoreClass badge : string) : string :=
  "
      <tr>
        <td>
          <strong>" +:+ text_of (res_title res) +:+ "</strong><br>
          <small>Source: " +:+ text_of (res_source res) +:+ "</small><br>
          <small><a href=" +:+ dq +:+ text_of (res_url res) +:+ dq +:+ " target=" +:+ dq +:+ "_blank" +:+ dq +:+ ">Read Article &rarr;</a></small>
        </td>
        <td class=" +:+ dq +:+ "analysis-content" +:+ dq +:+ ">" +:+ formattedAnalysis +:+ "</td>
        <td><span class=" +:+ dq +:+ "score-badge " +:+ scoreClass +:+ dq +:+ ">" +:+ badge +:+ "</span></td>
      </tr>
    ".

Definition score_class (motive_score : option JsValue) : string :=
  let score := nullish motive_score (JNum 0) in
  if at_least score 8 then "high-risk"
  else if at_least score 4 then "med-risk"
  else "low-risk".

Definition badge_text (motive_score : option JsValue) : string :=
  match motive_score with
  | None | Some JNull => "N/A"
  | Some v => ToString v
  end.

(** The body of the [results.map] callback.  It reads and writes nothing
    outside its arguments: it is a computation over the empty state. *)
Definition render_row (res : AnalysisResult) : M unit string :=
  fields <- match res_analysis res with
            | None => throw (mkError TypeError "Cannot destructure 'res.analysis' as it is undefined.")
            | Some a => ret a
            end;;
  summary <- get_prop fields "summary";;
  seller_description <- get_prop fields "seller_description";;
  hidden_motive <- get_prop fields "hidden_motive";;
  motive_score <- get_prop fields "motive_score";;
  critique <- get_prop fields "critique";;
  let scoreClass := score_class motive_score in
  h_summary <- bind (marked summary) (fun m => ret (sanitizeHtml m));;
  h_seller <- bind (marked seller_description) (fun m => ret (sanitizeHtml m));;
  h_motive <- bind (marked hidden_motive) (fun m => ret (sanitizeHtml m));;
  h_critique <- bind (marked critique) (fun m => ret (sanitizeHtml m));;
  let formattedAnalysis := formatted_analysis h_summary h_seller h_motive h_critique in
  ret (row_html res formattedAnalysis scoreClass (badge_text motive_score)).

(** [results.map(...).join('')] *)
Fixpoint render_rows (results : list AnalysisResult) : M unit string :=
  match results with
  | [] => ret EmptyString
  | res :: rest =>
      row <- render_row res;;
      rows <- render_rows rest;;
      ret (row +:+ rows)
  end.

Definition html_document (periodString rows : string) : string :=
  "
    <!DOCTYPE html>
    <html lang=" +:+ dq +:+ "en" +:+ dq +:+ ">
    <head>
        <meta charset=" +:+ dq +:+ "UTF-8" +:+ dq +:+ ">
        <meta name=" +:+ dq +:+ "viewport" +:+ dq +:+ " content=" +:+ dq +:+ "width=device-width, initial-scale=1.0" +:+ dq +:+ ">
        <title>AI Hype-Watch: " +:+ periodString +:+ "</title>
        " +:+ css +:+ "
    </head>
    <body>
        <div class=" +:+ dq +:+ "header" +:+ dq +:+ ">
            <h1>🕵️‍♂️ AI Hype-Watch: Skeptical Investigator Report</h1>
            <span class=" +:+ dq +:+ "period-badge" +:+ dq +:+ ">Period: " +:+ periodString +:+ "</span>
        </div>
        <table>
            <thead>
                <tr>
                    <th style=" +:+ dq +:+ "width: 25%" +:+ dq +:+ ">Article & Source</th>
                    <th style=" +:+ dq +:+ "width: 65%" +:+ dq +:+ ">Investigation Findings</th>
                    <th style=" +:+ dq +:+ "width: 10%" +:+ dq +:+ ">Bias Score</th>
                </tr>
            </thead>
            <tbody>
                " +:+ rows +:+ "
            </tbody>
        </table>
    </body>
    </html>
  ".

Definition REPORTS_DIR : string := path_join process_cwd "reports".

Definition generateHTMLReport (results : list AnalysisResult) : M World unit :=
  today <- Date_now;;
  let lastWeek := Date_minus_days today 7 in
  let dateTo := toLocaleDateString today in
  let dateFrom := toLocaleDateString lastWeek in
  let periodString := dateFrom +:+ " to " +:+ dateTo in
  present <- fs_existsSync REPORTS_DIR;;
  (if present : bool then ret tt else fs_mkdirSync REPORTS_DIR);;;
  let htmlFileName := "report_" +:+ dateTo +:+ ".html" in
  let htmlPath := path_join REPORTS_DIR htmlFileName in
  rows <- pure (render_rows results);;
  let htmlContent := html_document periodString rows in
  fs_writeFileSync htmlPath htmlContent;;;
  console_log ("
✅ HTML Dashboard generated: " +:+ htmlPath).

(** *** The orchestrator *)

Definition push_result (r : AnalysisResult) (finalResults : list AnalysisResult) :=
  finalResults ++ [r].

(** The body of the [for] loop of [runMAS] for the article at [index] among
    [count].  The progress line reads [article.title] outside the [try]: on
    an element that is [null] the [TypeError] leaves the loop. *)
Definition investigate (count : Z) (index : Z) (article : JsValue)
  : M (World * list AnalysisResult) unit :=
  title <- get_prop article "title";;
  lift (console_log ("
[" +:+ pretty (index + 1) +:+ "/" +:+ pretty count +:+ "] Investigating: " +:+ text_of title +:+ "..."));;;
  try_catch
    (r <- lift (analyzeMotive article);;
     set_local (push_result (mkResult (prop article "title") (prop article "url")
                               (prop article "source") (analysis r)));;;
     if negb (fromCache r) && (index <? count - 1) then
       lift (console_log ("⏱ Waiting " +:+ pretty (respectRPM CONFIG) +:+ "ms to respect API limits..."));;;
       lift (sleep (respectRPM CONFIG))
     else ret tt)
    (fun err =>
       lift (console_error ("⚠️ Failed to analyze article " +:+ dq +:+ field article "title" +:+ dq +:+ ":") (message err))).

Fixpoint investigate_all (count : Z) (index : Z) (articles : list JsValue)
  : M (World * list AnalysisResult) unit :=
  match articles with
  | [] => ret tt
  | article :: rest =>
      investigate count index article;;;
      investigate_all count (index + 1) rest
  end.

(** The [try] block of [runMAS] and its [catch] block. *)
Definition investigation : M (World * list AnalysisResult) unit :=
  articles <- lift (fetchNews "AI business use cases");;
  entries <- array_entries articles;;
  investigate_all (Z.of_nat (length entries)) 0 entries;;;
  finalResults <- local id;;
  lift (generateHTMLReport finalResults).

Definition stop (error : JsError) : M (World * list AnalysisResult) unit :=
  lift (console_error "
🛑 Stopped: " (message error));;;
  finalResults <- local id;;
  (match finalResults with
   | [] => ret tt
   | _ => lift (generateHTMLReport finalResults)
   end);;;
  exit 1.

Definition runMAS : M (World * list AnalysisResult) unit :=
  lift (console_log "🕵️‍♂️ AI Hype-Watch: Starting Investigation...");;;
  try_catch investigation stop.

(** The exit status of the process that runs [runMAS()] from the world [w]:
    that of [process.exit], 0 when the promise resolves, and 1 when it is
    rejected (the rejection is not handled). *)
Definition exit_status (w : World) : Z :=
  match fst (runMAS (w, [])) with
  | Ok _ => 0
  | Exit code => code
  | Throw _ => 1
  end.

(** The world the process leaves behind. *)
Definition final_world (w : World) : World := fst (snd (runMAS (w, []))).

End Program.

(** ** What the statements below speak about *)

(** [occurs p s]: the text [p] occurs in [s]; [occurs_ci] compares letters
    without their case. *)
Fixpoint occurs_in (eqc : ascii -> ascii -> bool) (p s : Chars.chars) : bool :=
  match Chars.strip_prefix eqc p s with
  | Some _ => true
  | None =>
      match s with
      | [] => false
      | _ :: s' => occurs_in eqc p s'
      end
  end.

Definition occurs (p s : string) : bool :=
  occurs_in Ascii.eqb (Chars.of_string p) (Chars.of_string s).

Definition occurs_ci (p s : string) : bool :=
  occurs_in Chars.eq_ci (Chars.of_string p) (Chars.of_string s).

(** No opening script tag, in any case of its letters. *)
Definition script_free (s : string) : Prop := occurs_ci "<script" s = false.

(** A result whose analysis has its four texts, each of them without an
    opening script tag once rendered and sanitized, and whose title, source,
    url and score badge have none either. *)
Inductive safe_result `{Platform} (res : AnalysisResult) : Prop :=
| safe (props : list (string * JsValue)) (summary seller motive critique : string) :
    res_analysis res = Some (JObj props) ->
    assoc "summary" props = Some (JStr summary) ->
    assoc "seller_description" props = Some (JStr seller) ->
    assoc "hidden_motive" props = Some (JStr motive) ->
    assoc "critique" props = Some (JStr critique) ->
    script_free (sanitizeHtml (marked_parse summary)) ->
    script_free (sanitizeHtml (marked_parse seller)) ->
    script_free (sanitizeHtml (marked_parse motive)) ->
    script_free (sanitizeHtml (marked_parse critique)) ->
    script_free (text_of (res_title res)) ->
    script_free (text_of (res_source res)) ->
    script_free (text_of (res_url res)) ->
    script_free (badge_text (assoc "motive_score" props)) ->
    safe_result res.

(** [differs eqc p s]: [p] and [s] differ at a position that both have. *)
Fixpoint differs (eqc : ascii -> ascii -> bool) (p s : Chars.chars) : bool :=
  match p, s with
  | a :: p', c :: s' => if eqc a c then differs eqc p' s' else true
  | _, _ => false
  end.

(** No end of [s] is the beginning of an occurrence of [p] that a text put
    behind [s] could complete. *)
Fixpoint ends_apart (eqc : ascii -> ascii -> bool) (p s : Chars.chars) : bool :=
  match s with
  | [] => true
  | _ :: s' => differs eqc p s && ends_apart eqc p s'
  end.

(** [s] is empty or begins with a character that [p] has only in first
    position, if at all: no occurrence of [p] begun before [s] goes on in it. *)
Definition starts_apart (eqc : ascii -> ascii -> bool) (p s : Chars.chars) : bool :=
  match s with
  | [] => true
  | c :: _ => forallb (fun a => negb (eqc a c)) (tl p)
  end.

(** What the Gatekeeper makes of the answer of the model: [true] only for a
    completion whose first choice parses to an object with the property
    [is_business_case] equal to the boolean [true]. *)
Definition verdict `{Platform} (answer : ChatResponse) : bool :=
  match answer with
  | ChatCompletion (content :: _) =>
      match JSON_parse (or_else content "{}") with
      | inl (JObj props) =>
          match assoc "is_business_case" props with
          | Some (JBool true) => true
          | _ => false
          end
      | _ => false
      end
  | _ => false
  end.

(** Console lines of the Investigator and of the orchestrator. *)
Definition using_cache `{Platform} (article : JsValue) : Event :=
  EvLog ("✨ Using cached analysis for: " +:+ field article "title").

Definition requesting `{Platform} (article : JsValue) : Event :=
  EvLog ("🤖 Requesting LLM analysis for: " +:+ field article "title" +:+ "...").

Definition waiting (CONFIG : Config) : Event :=
  EvLog ("⏱ Waiting " +:+ pretty (respectRPM CONFIG) +:+ "ms to respect API limits...").

Definition failed_to_analyze `{Platform} (article : JsValue) (e : JsError) : Event :=
  EvError ("⚠️ Failed to analyze article " +:+ dq +:+ field article "title" +:+ dq +:+ ":") (message e).

(** The answers of the model that the Gatekeeper cannot use: a failed call, a
    completion without choices, a text that does not parse, and the JSON value
    [null] (which has no properties to read). *)
Inductive unusable `{Platform} : ChatResponse -> Prop :=
| call_failed (msg : string) : unusable (ChatFailed msg)
| no_choices : unusable (ChatCompletion [])
| parse_error (content : option string) (rest : list (option string)) (msg : string) :
    JSON_parse (or_else content "{}") = inr msg ->
    unusable (ChatCompletion (content :: rest))
| null_value (content : option string) (rest : list (option string)) :
    JSON_parse (or_else content "{}") = inl JNull ->
    unusable (ChatCompletion (content :: rest)).

(** The error of [analyzeMotive] on a completion that has no choice or whose
    text does not parse: the error caught, under another message. *)
Definition unparsable (msg : string) : JsError :=
  mkError Error ("Failed to parse LLM JSON response: " +:+ msg).

(** No element of the list is [null]. *)
Definition no_null (l : list JsValue) : Prop := Forall (fun v => v <> JNull) l.

(** The error of reading the title of [null]. *)
Definition null_title : JsError :=
  mkError TypeError "Cannot read properties of null (reading 'title')".

Definition starting : Event := EvLog "🕵️‍♂️ AI Hype-Watch: Starting Investigation...".

Definition stopped (e : JsError) : Event := EvError "
🛑 Stopped: " (message e).

Section Report.

Context `{Platform}.

(** The period shown in the header of a report made at time [t], and the file
    the report goes to. *)
Definition report_period (t : Z) : string :=
  toLocaleDateString (Date_minus_days t 7) +:+ " to " +:+ toLocaleDateString t.

Definition report_path (t : Z) : string :=
  path_join REPORTS_DIR ("report_" +:+ toLocaleDateString t +:+ ".html").

Definition generated (t : Z) : Event :=
  EvLog ("
✅ HTML Dashboard generated: " +:+ report_path t).

(** The world once the reports directory is there. *)
Definition with_reports_dir (w : World) : World :=
  if exists_path REPORTS_DIR w then w else make_dir REPORTS_DIR w.

End Report.

(** Console lines of the Scout, and the request for the first page when the
    clock shows [t]. *)
Definition loading (CONFIG : Config) : Event :=
  EvLog ("📦 Loading " +:+ pretty (newsMaxRequests CONFIG) +:+ " articles from local cache...").

Definition cache_only_has (CONFIG : Config) (n : Z) : Event :=
  EvLog ("🔄 Cache only has " +:+ pretty n +:+ "/"
         +:+ pretty (newsMaxRequests CONFIG) +:+ " articles. Re-fetching...").

Definition fetching (CONFIG : Config) : Event :=
  EvLog ("🌐 Fetching articles from NewsAPI to find " +:+ pretty (newsMaxRequests CONFIG)
         +:+ " relevant business cases...").

Definition fetching_page (page : Z) : Event :=
  EvLog ("
📄 Fetching Page " +:+ pretty page +:+ "...").

Definition first_request `{Platform} (CONFIG : Config) (topic : string) (t : Z) : NewsRequest :=
  mkNews topic (before_T (toISOString (Date_minus_days t 7))) (newsBatchSize CONFIG) 1
    (newsApiKey CONFIG).

Definition page_error (page : Z) (msg : string) : Event :=
  EvError ("   ❌ Error fetching page " +:+ pretty page +:+ ":") msg.

(** The outcome of the paging as [fetchNews] hands it on: the array of the
    article objects collected. *)
Definition returned (o : Outcome (list NewsArticle)) : Outcome JsValue :=
  match o with
  | Ok collected => Ok (JArr (map article_to_json collected))
  | Throw e => Throw e
  | Exit code => Exit code
  end.

(** The terminal error of the Scout. *)
Definition no_articles : JsError :=
  mkError Error "NewsAPI returned no relevant articles after filtering.".

(** The paging of [fetchNews] when the clock shows [t], with its local
    variables: it gives the articles collected. *)
Definition scout_pages `{Platform} (CONFIG : Config) (topic : string) (t : Z)
  : M World (list NewsArticle) :=
  with_locals (mkScout [] ∅)
    (fetch_pages CONFIG topic (before_T (toISOString (Date_minus_days t 7))) page_numbers;;;
     local collectedArticles).

(** The world [w] without the article-list cache of [topic]. *)
Definition without_cache `{Platform} (topic : string) (w : World) : World :=
  mkWorld (delete (cache_path topic) (files w)) (dirs w ∖ {[cache_path topic]})
    (now w) (trace w) (chat w) (news w).

(** The three ways in which the article-list cache of [topic] cannot be
    used: there is none, it is 24 hours old or more, or it is fresh and holds
    fewer articles than requested. *)
Inductive cache_miss `{Platform} (CONFIG : Config) (topic : string) (w : World) : Prop :=
| cache_absent :
    exists_path (cache_path topic) w = false ->
    cache_miss CONFIG topic w
| cache_expired (f : File) :
    files w !! cache_path topic = Some f ->
    CACHE_TTL <= now w - mtimeMs f ->
    cache_miss CONFIG topic w
| cache_too_small (f : File) (items : list JsValue) :
    files w !! cache_path topic = Some f ->
    now w - mtimeMs f < CACHE_TTL ->
    JSON_parse (content f) = inl (JArr items) ->
    Z.of_nat (length items) < newsMaxRequests CONFIG ->
    cache_miss CONFIG topic w.

(** ** Relations between the states of a run *)

(** [keeps I m]: every run of [m] takes a state to one related to it by [I]. *)
Definition keeps {S A} (I : S -> S -> Prop) (m : M S A) : Prop :=
  forall s, I s (snd (m s)).

(** [respects R m]: from states related by [R], [m] ends with the same
    outcome, in states related by [R]. *)
Definition respects {S A} (R : S -> S -> Prop) (m : M S A) : Prop :=
  forall s1 s2, R s1 s2 -> fst (m s1) = fst (m s2) /\ R (snd (m s1)) (snd (m s2)).

(** [stateless m]: [m] neither reads nor changes the state. *)
Definition stateless {S A} (m : M S A) : Prop := exists o, forall s, m s = (o, s).

(** The trace only gets longer. *)
Definition grows (w w' : World) : Prop := exists later, trace w' = trace w ++ later.

(** Two worlds that the remote services cannot tell apart, with the same
    clock: they may differ in their files and console lines. *)
Definition same_services (w1 w2 : World) : Prop :=
  now w1 = now w2 /\ chat w1 = chat w2 /\ news w1 = news w2
  /\ remote_history (trace w1) = remote_history (trace w2).

Definition on_world {L} (I : World -> World -> Prop) (s s' : World * L) : Prop :=
  I (fst s) (fst s').

Definition beside {L} (R : World -> World -> Prop) (s1 s2 : World * L) : Prop :=
  R (fst s1) (fst s2) /\ snd s1 = snd s2.

(** Two texts of 72 characters with the same MD5 digest. *)
Definition collision1 : string :=
  "TEXTCOLLBYfGiJUETHQ4hAcKSMd5zYpgqf1YRDhkmxHkhPWptrkoyz28wnI9V0aHeAuaKnak".

Definition collision2 : string :=
  "TEXTCOLLBYfGiJUETHQ4hEcKSMd5zYpgqf1YRDhkmxHkhPWptrkoyz28wnI9V0aHeAuaKnak".

(** What the cache key of an article is the digest of: the identity of the
    article, which is its [url], or its [title] when the [url] counts as
    false, followed by the digest of the prompt. *)
Definition identity `{Platform} (article : JsValue) : string :=
  text_of (or_value (prop article "url") (prop article "title")).

Definition key_text `{Platform} (article : JsValue) (prompt : string) : string :=
  identity article +:+ MD5.md5_hex prompt.

(** The character [c] does not occur in [s]. *)
Definition free_of (c : ascii) (s : string) : Prop := ~ In c (Chars.of_string s).

(** The entry of the report for an article and what [analyzeMotive] gave. *)
Definition result_of (article : JsValue) (r : Motive) : AnalysisResult :=
  mkResult (prop article "title") (prop article "url") (prop article "source") (analysis r).

Section Runs.

Context `{Platform}.
Variable CONFIG : Config.

(** The world in which the article at [index] is analysed: [investigate]
    first prints its progress line. *)
Definition announced (count index : Z) (article : JsValue) (w : World) : World :=
  emit (EvLog ("
[" +:+ pretty (index + 1) +:+ "/" +:+ pretty count +:+ "] Investigating: " +:+ field article "title" +:+ "...")) w.

(** The outcome of [analyzeMotive] on each article of a run of the loop of
    [runMAS] that starts in [w], in processing order, for articles none of
    which is [null]. *)
Fixpoint analyses (count index : Z) (articles : list JsValue) (w : World)
  : list (JsValue * Outcome Motive) :=
  match articles with
  | [] => []
  | article :: rest =>
      (article, fst (analyzeMotive CONFIG article (announced count index article w)))
      :: analyses count (index + 1) rest
           (fst (snd (investigate CONFIG count index article (w, []))))
  end.

(** The articles whose analysis succeeded, as report entries. *)
Fixpoint succeeded (outcomes : list (JsValue * Outcome Motive)) : list AnalysisResult :=
  match outcomes with
  | [] => []
  | (article, Ok r) :: rest => result_of article r :: succeeded rest
  | _ :: rest => succeeded rest
  end.

End Runs.

(** ** A platform and services to run the script on *)

Module Demo.

(** Compact JSON text of a value (strings are written without escapes). *)
Fixpoint print (v : JsValue) : string :=
  match v with
  | JNull => "null"
  | JBool true => "true"
  | JBool false => "false"
  | JNum z => pretty z
  | JStr s => dq +:+ s +:+ dq
  | JArr items =>
      "[" +:+ (fix go (l : list JsValue) : string :=
                 match l with
                 | [] => EmptyString
                 | [x] => print x
                 | x :: l' => print x +:+ "," +:+ go l'
                 end) items +:+ "]"
  | JObj props =>
      "{" +:+ (fix go (l : list (string * JsValue)) : string :=
                 match l with
                 | [] => EmptyString
                 | [(k, x)] => dq +:+ k +:+ dq +:+ ":" +:+ print x
                 | (k, x) :: l' => dq +:+ k +:+ dq +:+ ":" +:+ print x +:+ "," +:+ go l'
                 end) props +:+ "}"
  end.

Definition analysis_of (summary : string) (score : Z) : JsValue :=
  JObj [("summary", JStr summary); ("seller_description", JStr "Cloud services");
        ("hidden_motive", JStr "Promotes its own platform"); ("motive_score", JNum score);
        ("critique", JStr "Thin on evidence.")].

Definition a1 : NewsArticle := mkArticle "Banks and AI spending" "https://news.example/banks" "Example Wire" "Where banks spend".
Definition a2 : NewsArticle := mkArticle "Siemens automates" "https://news.example/siemens" "Example Wire" "Automation".
Definition a3 : NewsArticle := mkArticle "Nvidia inference push" "https://news.example/nvidia" "Example Wire" "Inference".

(** The same articles as [fetchNews] returns them. *)
Definition j1 : JsValue := article_to_json a1.
Definition j2 : JsValue := article_to_json a2.
Definition j3 : JsValue := article_to_json a3.

(** What a cache file may hold besides article objects: an object with a
    title that is a number and nothing else, and [null]. *)
Definition oddity : JsValue := JObj [("title", JNum 7)].

(** The values the demonstration parser knows: it reads a text as the value
    that prints to it. *)
Definition known : list JsValue :=
  [JObj []; JNull;
   JObj [("is_business_case", JBool true)];
   JObj [("is_business_case", JBool false)];
   JObj [("is_business_case", JStr "true")];
   JObj [("is_business_case", JNum 1)];
   analysis_of "First summary" 9;
   analysis_of "Third summary" 2;
   JObj [("title", JStr "Banks and AI spending"); ("url", JStr "https://news.example/banks");
         ("analysis", analysis_of "First summary" 9); ("timestamp", JStr "day0T0Z")];
   JArr [j1; j2; j3];
   JArr [j1];
   JArr [j1; JNull; j3];
   JArr [oddity];
   JStr "abc";
   JObj [("motive_score", JNum 3)]].

Definition parse (text : string) : JsValue + string :=
  match find (fun v => String.eqb (print v) text) known with
  | Some v => inl v
  | None => inr "Unexpected token in JSON"
  end.

(** A renderer that, like a CommonMark one, passes a line of raw HTML through
    and wraps other text in a paragraph. *)
Definition render (s : string) : string :=
  match s with
  | String "<" _ => s
  | _ => "<p>" +:+ s +:+ "</p>"
  end.

#[export] Instance platform : Platform := {|
  JSON_parse := parse;
  JSON_stringify := print;
  marked_parse := render;
  path_join := fun dir name => dir +:+ "/" +:+ name;
  process_cwd := "/app";
  toISOString := fun t => "day" +:+ pretty (t / 86400000) +:+ "T" +:+ pretty (t mod 86400000) +:+ "Z";
  toLocaleDateString := fun t => "day" +:+ pretty (t / 86400000);
  Date_minus_days := fun t n => t - n * 86400000;
  ToString := print;
  ToNumber := fun v => match v with JBool true => Some 1 | JBool false => Some 0 | _ => None end;
  String_slice := fun s n => Chars.to_string (slice0 n (Chars.of_string s))
|}.

Definition config : Config :=
  mkConfig "key" "https://llm.example/v1" "demo-model" "news-key" 3 20 4500.

Definition chats_so_far (history : list Event) : nat :=
  length (List.filter (fun e => match e with EvChat _ => true | _ => false end) history).

(** A chat service that answers its [n]-th call with the [n]-th response of
    [script], and fails when the script is over. *)
Definition scripted_chat (script : list ChatResponse) (history : list Event) (_ : ChatRequest) : ChatResponse :=
  nth (chats_so_far history) script (ChatFailed "503 service unavailable").

(** A news service that answers page [n] with the [n]-th response of
    [script]. *)
Definition scripted_news (script : list NewsResponse) (_ : list Event) (req : NewsRequest) : NewsResponse :=
  nth (Z.to_nat (news_page req - 1)) script (NewsData (Some [])).

Definition world (fs : gmap string File) (t : Z) (llm : list ChatResponse) (api : list NewsResponse) : World :=
  mkWorld fs ∅ t [] (scripted_chat llm) (scripted_news api).

Definition raw (a : NewsArticle) : RawArticle :=
  mkRaw (title a) (url a) (Some (source a)) (Some (description a)).

Definition relevant : ChatResponse := ChatCompletion [Some (print (JObj [("is_business_case", JBool true)]))].
Definition irrelevant : ChatResponse := ChatCompletion [Some (print (JObj [("is_business_case", JBool false)]))].
Definition analysed (summary : string) (score : Z) : ChatResponse :=
  ChatCompletion [Some (print (analysis_of summary score))].

(** The cache entry [analyzeMotive] writes for [a1]. *)
Definition entry1 : JsValue :=
  JObj [("title", JStr "Banks and AI spending"); ("url", JStr "https://news.example/banks");
        ("analysis", analysis_of "First summary" 9); ("timestamp", JStr "day0T0Z")].

(** A world whose analysis cache holds [entry1], and one with nothing on disk
    whose model answers with an analysis. *)
Definition hit_world : World :=
  world {[analysis_path j1 := mkFile (print entry1) 0]} 5000 [] [].


(** The article list [a1; a2; a3] cached one hour before the run, and a model
    whose second answer is a failure. *)
Definition hour : Z := 60 * 60 * 1000.

Definition cached_list (l : list JsValue) (written : Z) : gmap string File :=
  {[cache_path "AI business use cases" := mkFile (print (JArr l)) written]}.

Definition second_fails_world : World :=
  world (cached_list [j1; j2; j3] 0) hour
    [analysed "First summary" 9; ChatFailed "429 rate limited"; analysed "Third summary" 2] [].

(** The same cache looked at 25 hours after it was written; the news
    service has one article, which the model finds relevant. *)
Definition expired_world : World :=
  world (cached_list [j1; j2; j3] 0) (25 * hour) [relevant] [NewsData (Some [raw a1])].



(** The cached list again; the second answer of the model is a failure and
    the third a completion without text. *)
Definition empty_third_world : World :=
  world (cached_list [j1; j2; j3] 0) hour
    [analysed "First summary" 9; ChatFailed "429 rate limited"; ChatCompletion [Some EmptyString]] [].

(** The cached list again; the second answer is a failure and the third an
    analysis that has a score and no text. *)
Definition partial_third_world : World :=
  world (cached_list [j1; j2; j3] 0) hour
    [analysed "First summary" 9; ChatFailed "429 rate limited";
     ChatCompletion [Some (print (JObj [("motive_score", JNum 3)]))]] [].


(** A result whose summary holds a complete script element followed by an
    unclosed one. *)
Definition unsafe_result : AnalysisResult :=
  mkResult (Some (JStr "Banks and AI spending")) (Some (JStr "https://news.example/banks"))
    (Some (JStr "Example Wire"))
    (Some (analysis_of "<script>alert(1)</script><script>alert(2)" 9)).

(** A result whose summary holds the script element followed by a second
    one, closed by an end tag with a blank in it, which is an end tag for a
    browser and none for the pattern. *)
Definition blank_result : AnalysisResult :=
  mkResult (Some (JStr "Banks and AI spending")) (Some (JStr "https://news.example/banks"))
    (Some (JStr "Example Wire"))
    (Some (analysis_of "<script>alert(1)</script><script>alert(2)</script >" 9)).

(** A result with a script element in its summary and another in its
    title. *)
Definition script_title_result : AnalysisResult :=
  mkResult (Some (JStr "<script>alert(2)</script>")) (Some (JStr "https://news.example/banks"))
    (Some (JStr "Example Wire"))
    (Some (analysis_of "<script>alert(1)</script>" 9)).

(** A result whose summary is a script element and nothing else. *)
Definition script_result : AnalysisResult :=
  mkResult (Some (JStr "Banks and AI spending")) (Some (JStr "https://news.example/banks"))
    (Some (JStr "Example Wire"))
    (Some (analysis_of "<script>alert(1)</script>" 9)).

End Demo.

(** ** Effects as the trace records them *)

(** What an event does to the world, and a list of events, oldest first. *)
Definition perform (e : Event) (w : World) : World :=
  match e with
  | EvSleep ms => pass_time ms w
  | EvMkdir p => make_dir p w
  | EvWrite p c => write_file p c w
  | _ => emit e w
  end.

Definition replay (events : list Event) (w : World) : World :=
  fold_left (fun w e => perform e w) events w.

(** [does P w w']: the world [w'] is [w] after events that all satisfy [P]. *)
Definition does (P : Event -> Prop) (w w' : World) : Prop :=
  exists events, Forall P events /\ w' = replay events w.

(** The requests to the two services in a trace, oldest first. *)
Definition chat_requests (t : list Event) : list ChatRequest :=
  flat_map (fun e => match e with EvChat req => [req] | _ => [] end) t.

Definition news_requests (t : list Event) : list NewsRequest :=
  flat_map (fun e => match e with EvNews req => [req] | _ => [] end) t.

(** Events that are neither a pause nor a change of the disk. *)
Definition talk (e : Event) : Prop :=
  match e with
  | EvSleep _ | EvMkdir _ | EvWrite _ _ => False
  | _ => True
  end.

(** Console lines and calls of the model. *)
Definition chatter (e : Event) : Prop :=
  match e with
  | EvLog _ | EvError _ _ | EvChat _ => True
  | _ => False
  end.

(** The error the Gatekeeper catches on an answer of the model, if any. *)
Definition caught `{Platform} (answer : ChatResponse) : option JsError :=
  match answer with
  | ChatFailed msg => Some (mkError Error msg)
  | ChatCompletion [] =>
      Some (mkError TypeError "Cannot read properties of undefined (reading 'message')")
  | ChatCompletion (content :: _) =>
      match JSON_parse (or_else content "{}") with
      | inr msg => Some (mkError SyntaxError msg)
      | inl JNull =>
          Some (mkError TypeError "Cannot read properties of null (reading 'is_business_case')")
      | inl _ => None
      end
  end.

Definition gatekeeper_error (article : NewsArticle) (e : JsError) : Event :=
  EvError ("   ⚠️ Gatekeeper error for " +:+ dq +:+ title article +:+ dq +:+ ":") (message e).

(** The article the Scout makes of an element of the response whose source
    has the name [name], and the two lines it prints about an article. *)
Definition article_of (a : RawArticle) (name : string) : NewsArticle :=
  mkArticle (raw_title a) (raw_url a) name (or_else (raw_description a) EmptyString).

Definition relevant_line (article : NewsArticle) : Event :=
  EvLog ("   ✅ [Relevant] " +:+ title article).

Definition skipped_line (article : NewsArticle) : Event :=
  EvLog ("   ❌ [Skipped] " +:+ title article).

Definition no_more_articles : Event := EvLog "   ⚠️ No more articles available.".

(** The error of [a.source.name] on an article without a source. *)
Definition no_source : JsError :=
  mkError TypeError "Cannot read properties of undefined (reading 'name')".

(** The request for a page of news when the clock shows [t]. *)
Definition page_request `{Platform} (CONFIG : Config) (topic : string) (t : Z) (page : Z)
  : NewsRequest :=
  mkNews topic (before_T (toISOString (Date_minus_days t 7))) (newsBatchSize CONFIG) page
    (newsApiKey CONFIG).

(** The Gatekeeper approved [article] in the run that led to [w]: the trace
    has the request about the article, answered with a positive verdict, and
    next to it the line that tells so. *)
Definition approved `{Platform} (CONFIG : Config) (article : NewsArticle) (w : World) : Prop :=
  exists before after,
    trace w = before ++ EvChat (gatekeeper_request CONFIG article) :: relevant_line article :: after
    /\ verdict (chat w (remote_history before) (gatekeeper_request CONFIG article)) = true.

(** What the Scout keeps true of its local variables while it pages. *)
Definition scout_invariant `{Platform} (CONFIG : Config) (s : World * Scout) : Prop :=
  Z.of_nat (length (collectedArticles (snd s))) <= Z.max 0 (newsMaxRequests CONFIG)
  /\ NoDup (map url (collectedArticles (snd s)))
  /\ (forall a, In a (collectedArticles (snd s)) -> url a ∈ seenUrls (snd s))
  /\ (forall a, In a (collectedArticles (snd s)) -> approved CONFIG a (fst s)).

(** What the Scout does to the world: it talks, and writes its cache. *)
Definition scout_event `{Platform} (topic : string) (e : Event) : Prop :=
  match e with
  | EvWrite p _ => p = cache_path topic
  | EvSleep _ | EvMkdir _ => False
  | _ => True
  end.

(** What the Investigator does to the world for an article: console lines,
    one request to the model, and the write of the cache entry. *)
Definition investigator_event `{Platform} (CONFIG : Config) (article : JsValue) (e : Event)
  : Prop :=
  match e with
  | EvLog _ => True
  | EvChat req => req = investigator_request CONFIG article
  | EvWrite p _ => p = analysis_path article
  | _ => False
  end.

(** An analysis that came from the model and not from the cache. *)
Definition live (o : Outcome Motive) : bool :=
  match o with
  | Ok r => negb (fromCache r)
  | _ => false
  end.

(** What a run of [runMAS] does to the world: besides talking, it writes the
    article-list cache, analysis cache entries and reports, makes the reports
    directory, and pauses for the configured time. *)
Definition run_event `{Platform} (CONFIG : Config) (e : Event) : Prop :=
  match e with
  | EvWrite p _ =>
      p = cache_path "AI business use cases"
      \/ (exists article, p = analysis_path article)
      \/ (exists t, p = report_path t)
  | EvMkdir p => p = REPORTS_DIR
  | EvSleep ms => ms = respectRPM CONFIG
  | _ => True
  end.

(** The digits of a hexadecimal digest. *)
Definition is_hex_digit (c : ascii) : bool :=
  let n := Chars.code c in
  ((48 <=? n) && (n <=? 57)) || ((97 <=? n) && (n <=? 102)).

(** Events that are neither a request to a service nor a pause. *)
Definition offline (e : Event) : Prop :=
  match e with
  | EvNews _ | EvChat _ | EvSleep _ => False
  | _ => True
  end.

(** The paths written to in a trace, oldest first. *)
Definition written_paths (t : list Event) : list string :=
  flat_map (fun e => match e with EvWrite p _ => [p] | _ => [] end) t.


(** No white-space character starts anywhere in [l]. *)
Definition spaceless (l : Chars.chars) : Prop :=
  forall l1 l2, l = l1 ++ l2 -> after_space l2 = None.

(** ** The start of the script *)

(** [process.env]: the variables that are set, with their values. *)
Definition Env : Type := gmap string string.

Definition requiredEnv : list string :=
  ["LLM_API_KEY"; "LLM_BASE_URL"; "LLM_MODEL"; "NEWS_API_KEY"].

(** [!process.env[key]]: the variable is not set, or set to the empty text. *)
Definition unset (env : Env) (key : string) : bool :=
  match env !! key with
  | Some (String _ _) => false
  | _ => true
  end.

Definition missingEnv (env : Env) : list string := List.filter (unset env) requiredEnv.

(** [l.join(sep)] *)
Fixpoint join (sep : string) (l : list string) : string :=
  match l with
  | [] => EmptyString
  | [x] => x
  | x :: rest => x +:+ sep +:+ join sep rest
  end.

Section Start.

Context `{Platform}.
Variable CONFIG : Config.

(** The statements the script runs when it is loaded, before [runMAS()]: the
    check of the environment and the creation of the cache directory.  What
    lies between them (the reading of [CONFIG], the making of the client, the
    options of [marked]) has no effect on the world.  A [console.error] with
    one argument is recorded with an empty detail. *)
Definition check_environment (env : Env) : M World unit :=
  match missingEnv env with
  | [] => ret tt
  | missing =>
      console_error ("❌ Missing required environment variables: " +:+ join ", " missing)
        EmptyString;;;
      exit 1
  end.

Definition make_cache_dir : M World unit :=
  present <- fs_existsSync CACHE_DIR;;
  if present : bool then ret tt else fs_mkdirSync CACHE_DIR.

(** The script, for the [CONFIG] it reads from the environment. *)
Definition script (env : Env) : M World unit :=
  check_environment env;;;
  make_cache_dir;;;
  with_locals [] (runMAS CONFIG).

(** The line about the variables [missing]. *)
Definition missing_line (missing : list string) : Event :=
  EvError ("❌ Missing required environment variables: " +:+ join ", " missing) EmptyString.

(** The world once the cache directory is there. *)
Definition with_cache_dir (w : World) : World :=
  if exists_path CACHE_DIR w then w else make_dir CACHE_DIR w.

End Start.

(** ** More runs of the script *)

Module Scenes.

Import Demo.

Definition topic : string := "AI business use cases".

(** One article requested. *)
Definition config1 : Config :=
  mkConfig "key" "https://llm.example/v1" "demo-model" "news-key" 1 20 4500.

(** Nothing on disk; the first page of news holds [a1] twice, then [a2] and
    [a3], and the model finds every article relevant. *)
Definition repeated_world : World :=
  world ∅ hour [relevant; relevant; relevant]
    [NewsData (Some [raw a1; raw a1; raw a2; raw a3])].

(** An article without a source before [a1]. *)
Definition anonymous : RawArticle := mkRaw "Untitled" "https://news.example/anonymous" None None.

Definition anonymous_world : World :=
  world ∅ hour [relevant] [NewsData (Some [anonymous; raw a1])].

(** A fresh article-list cache and an analysis cache entry that are not JSON
    text. *)
Definition garbled_list_world : World :=
  world {[cache_path topic := mkFile "<html>busy</html>" 0]} hour [] [].


(** Nothing on disk at time 0, and a model that answers with an analysis. *)
Definition first_run_world : World := world ∅ 0 [analysed "First summary" 9] [].


(** The list [a1] in the cache, with the analysis of [a1]. *)
Definition warm_world : World :=
  world (<[analysis_path j1 := mkFile (print entry1) 0]> (cached_list [j1] 0)) hour [] [].

(** A fresh cache whose only entry is no article object, and a model that
    answers with an analysis. *)
Definition odd_cache_world : World :=
  world (cached_list [oddity] 0) hour [analysed "First summary" 9] [].

(** An environment in which only the name of the model is set. *)
Definition model_only : Env := {["LLM_MODEL" := "demo-model"]}.

End Scenes.

(** * Theorems *)


Section Gatekeeper.

Context `{Platform}.
Variable CONFIG : Config.

Lemma validateRelevance_run (article : NewsArticle) (w : World) :
  exists w', validateRelevance CONFIG article w
             = (Ok (verdict (chat w (remote_history (trace w)) (gatekeeper_request CONFIG article))), w').
Proof.
  unfold validateRelevance, try_catch, bind, chat_create, verdict.
  destruct (chat w _ _) as [msg | [ | c rest]]; simpl; eauto.
  unfold json_parse.
  destruct (JSON_parse (or_else c "{}")) as [v | msg]; simpl; eauto.
  destruct v; simpl; eauto.
Qed.

End Gatekeeper.


Lemma remote_history_snoc (t : list Event) (e : Event) :
  remote_history (t ++ [e]) = remote_history t ++ (if is_remote e then [e] else []).
Proof. unfold remote_history. rewrite List.filter_app. simpl. destruct (is_remote e); reflexivity. Qed.

Lemma remote_history_log (t : list Event) (text : string) :
  remote_history (t ++ [EvLog text]) = remote_history t.
Proof. rewrite remote_history_snoc. simpl. apply app_nil_r. Qed.

Lemma exists_path_file (p : string) (w : World) (f : File) :
  files w !! p = Some f -> exists_path p w = true.
Proof. intros E. unfold exists_path. rewrite E. reflexivity. Qed.

Section Investigator.

Context `{Platform}.
Variable CONFIG : Config.

Lemma null_or_not (v : JsValue) : v = JNull \/ v <> JNull.
Proof. destruct v; [left; reflexivity | right; discriminate ..]. Qed.

Lemma get_prop_read {S} (o : JsValue) (k : string) (s : S) :
  o <> JNull -> get_prop o k s = (Ok (prop o k), s).
Proof. intros NN. destruct o; try reflexivity. contradiction. Qed.

Lemma analyzeMotive_null (w : World) :
  analyzeMotive CONFIG JNull w
  = (Throw (mkError TypeError "Cannot read properties of null (reading 'title')"), w).
Proof. reflexivity. Qed.

Lemma analyzeMotive_hit (article : JsValue) (w : World) (f : File) :
  article <> JNull ->
  files w !! analysis_path article = Some f ->
  analyzeMotive CONFIG article w
  = (match JSON_parse (content f) with
     | inl JNull => Throw (mkError TypeError "Cannot read properties of null (reading 'analysis')")
     | inl (JObj props) => Ok (mkMotive (assoc "analysis" props) true)
     | inl _ => Ok (mkMotive None true)
     | inr msg => Throw (mkError SyntaxError msg)
     end, emit (using_cache article) w).
Proof.
  intros NN E. unfold analyzeMotive. unfold bind at 1. rewrite (get_prop_read _ _ _ NN).
  unfold bind, fs_existsSync.
  rewrite (exists_path_file _ _ _ E).
  unfold console_log, modify, fs_readFileSync. simpl. rewrite E.
  unfold json_parse.
  destruct (JSON_parse (content f)) as [v | msg]; simpl; [ | reflexivity].
  destruct v; reflexivity.
Qed.

Lemma analyzeMotive_miss (article : JsValue) (w : World) :
  article <> JNull ->
  exists_path (analysis_path article) w = false ->
  analyzeMotive CONFIG article w
  = match chat w (remote_history (trace w)) (investigator_request CONFIG article) with
    | ChatFailed msg =>
        (Throw (mkError Error msg), emit (EvChat (investigator_request CONFIG article)) (emit (requesting article) w))
    | ChatCompletion [] =>
        (Throw (unparsable "Cannot read properties of undefined (reading 'message')"),
         emit (EvChat (investigator_request CONFIG article)) (emit (requesting article) w))
    | ChatCompletion (c :: _) =>
        match JSON_parse (or_else c "{}") with
        | inr msg =>
            (Throw (unparsable msg),
             emit (EvChat (investigator_request CONFIG article)) (emit (requesting article) w))
        | inl v =>
            (Ok (mkMotive (Some v) false),
             write_file (analysis_path article) (JSON_stringify (cache_entry article v (now w)))
               (emit (EvChat (investigator_request CONFIG article)) (emit (requesting article) w)))
        end
    end.
Proof.
  intros NN E. unfold analyzeMotive. unfold bind at 1. rewrite (get_prop_read _ _ _ NN).
  unfold bind, fs_existsSync. rewrite E.
  unfold console_log, modify, chat_create. simpl.
  rewrite remote_history_log.
  destruct (chat w _ _) as [msg | [ | c rest]]; simpl; try reflexivity.
  unfold try_catch, json_parse.
  destruct (JSON_parse (or_else c "{}")) as [v | msg]; reflexivity.
Qed.

Lemma analyzeMotive_dir (article : JsValue) (w : World) :
  article <> JNull ->
  exists_path (analysis_path article) w = true ->
  files w !! analysis_path article = None ->
  analyzeMotive CONFIG article w
  = (Throw (mkError Error ("ENOENT: no such file or directory, open " +:+ analysis_path article)),
     emit (using_cache article) w).
Proof.
  intros NN E N. unfold analyzeMotive. unfold bind at 1. rewrite (get_prop_read _ _ _ NN).
  unfold bind, fs_existsSync. rewrite E.
  unfold console_log, modify, fs_readFileSync. simpl. rewrite N. reflexivity.
Qed.

Lemma analyzeMotive_no_exit (article : JsValue) (w : World) (code : Z) :
  fst (analyzeMotive CONFIG article w) <> Exit code.
Proof.
  destruct (null_or_not article) as [-> | NN]; [discriminate | ].
  destruct (exists_path (analysis_path article) w) eqn:E.
  - destruct (files w !! analysis_path article) as [f | ] eqn:F.
    + rewrite (analyzeMotive_hit _ _ _ NN F). simpl.
      destruct (JSON_parse (content f)) as [[] | ]; discriminate.
    + rewrite (analyzeMotive_dir _ _ NN E F). discriminate.
  - rewrite (analyzeMotive_miss _ _ NN E).
    destruct (chat w _ _) as [msg | [ | c rest]]; try discriminate.
    destruct (JSON_parse (or_else c "{}")); discriminate.
Qed.

End Investigator.

Section Orchestrator.

Context `{Platform}.
Variable CONFIG : Config.

Lemma investigate_null (count index : Z) (s : World * list AnalysisResult) :
  investigate CONFIG count index JNull s = (Throw null_title, s).
Proof. reflexivity. Qed.

Lemma investigate_run (count index : Z) (article : JsValue) (w : World) (rs : list AnalysisResult) :
  article <> JNull ->
  investigate CONFIG count index article (w, rs)
  = match analyzeMotive CONFIG article (announced count index article w) with
    | (Ok r, w2) =>
        (Ok tt,
         (if negb (fromCache r) && (index <? count - 1)
          then pass_time (respectRPM CONFIG) (emit (waiting CONFIG) w2) else w2,
          rs ++ [result_of article r]))
    | (Throw e, w2) => (Ok tt, (emit (failed_to_analyze article e) w2, rs))
    | (Exit code, w2) => (Exit code, (w2, rs))
    end.
Proof.
  intros NN. unfold investigate. unfold bind at 1. rewrite (get_prop_read _ _ _ NN).
  unfold bind, try_catch, lift. simpl.
  fold (field article "title"). fold (announced count index article w).
  destruct (analyzeMotive CONFIG article (announced count index article w)) as [[r | e | code] w2]; simpl;
    try reflexivity.
  destruct (negb (fromCache r) && (index <? count - 1)); reflexivity.
Qed.

Lemma investigate_world (count index : Z) (article : JsValue) (w : World) (rs : list AnalysisResult) :
  fst (snd (investigate CONFIG count index article (w, rs)))
  = fst (snd (investigate CONFIG count index article (w, []))).
Proof.
  destruct (null_or_not article) as [-> | NN]; [reflexivity | ].
  rewrite !investigate_run by exact NN.
  destruct (analyzeMotive CONFIG article (announced count index article w)) as [[r | e | code] w2];
    reflexivity.
Qed.

Lemma investigate_all_run (count : Z) (articles : list JsValue) :
  no_null articles ->
  forall (index : Z) (w : World) (rs : list AnalysisResult),
  exists w',
    investigate_all CONFIG count index articles (w, rs)
    = (Ok tt, (w', rs ++ succeeded (analyses CONFIG count index articles w))).
Proof.
  induction 1 as [ | article rest NN _ IH]; intros index w rs; simpl.
  - exists w. rewrite app_nil_r. reflexivity.
  - unfold bind at 1. rewrite !investigate_run by exact NN.
    pose proof (analyzeMotive_no_exit CONFIG article (announced count index article w)) as NE.
    destruct (analyzeMotive CONFIG article (announced count index article w)) as [[r | e | code] w2];
      simpl in *.
    + match goal with |- context [investigate_all _ _ _ _ (?w1, _)] =>
        destruct (IH (index + 1) w1 (rs ++ [result_of article r])) as [w' E] end.
      rewrite E. exists w'. rewrite <- app_assoc. reflexivity.
    + match goal with |- context [investigate_all _ _ _ _ (?w1, _)] =>
        destruct (IH (index + 1) w1 rs) as [w' E] end.
      rewrite E. exists w'. reflexivity.
    + exfalso. apply (NE code). reflexivity.
Qed.

(** The loop on a list with a [null]: the articles before it are analysed,
    and the error of reading its title leaves the loop. *)
Lemma investigate_all_null (count : Z) (good rest : list JsValue) :
  no_null good ->
  forall (index : Z) (w : World) (rs : list AnalysisResult),
  exists w',
    investigate_all CONFIG count index (good ++ JNull :: rest) (w, rs)
    = (Throw null_title, (w', rs ++ succeeded (analyses CONFIG count index good w))).
Proof.
  induction 1 as [ | article good NN _ IH]; intros index w rs; simpl.
  - exists w. rewrite app_nil_r. reflexivity.
  - unfold bind at 1. rewrite !investigate_run by exact NN.
    pose proof (analyzeMotive_no_exit CONFIG article (announced count index article w)) as NE.
    destruct (analyzeMotive CONFIG article (announced count index article w)) as [[r | e | code] w2];
      simpl in *.
    + match goal with |- context [investigate_all _ _ _ _ (?w1, _)] =>
        destruct (IH (index + 1) w1 (rs ++ [result_of article r])) as [w' E] end.
      rewrite E. exists w'. rewrite <- app_assoc. reflexivity.
    + match goal with |- context [investigate_all _ _ _ _ (?w1, _)] =>
        destruct (IH (index + 1) w1 rs) as [w' E] end.
      rewrite E. exists w'. reflexivity.
    + exfalso. apply (NE code). reflexivity.
Qed.

(** A list has no [null], or a first one. *)
Lemma first_null (l : list JsValue) :
  no_null l \/ exists good rest, no_null good /\ l = good ++ JNull :: rest.
Proof.
  induction l as [ | v l [IH | (good & rest & G & ->)]].
  - left. constructor.
  - destruct (null_or_not v) as [-> | NN].
    + right. exists [], l. split; [constructor | reflexivity].
    + left. constructor; assumption.
  - destruct (null_or_not v) as [-> | NN].
    + right. exists [], (good ++ JNull :: rest). split; [constructor | reflexivity].
    + right. exists (v :: good), rest. split; [constructor; assumption | reflexivity].
Qed.

End Orchestrator.

Section Reporter.

Context `{Platform}.

Lemma generateHTMLReport_run (results : list AnalysisResult) (w : World) :
  generateHTMLReport results w
  = match fst (render_rows results tt) with
    | Ok rows =>
        (Ok tt,
         emit (generated (now w))
           (write_file (report_path (now w)) (html_document (report_period (now w)) rows)
              (with_reports_dir w)))
    | Throw e => (Throw e, with_reports_dir w)
    | Exit code => (Exit code, with_reports_dir w)
    end.
Proof.
  unfold generateHTMLReport, bind, Date_now, fs_existsSync, with_reports_dir, pure. simpl.
  destruct (exists_path REPORTS_DIR w); simpl;
    destruct (fst (render_rows results tt)); reflexivity.
Qed.

End Reporter.

Section Claims_on_agents.

Context `{Platform}.
Variable CONFIG : Config.

(** C5: whatever the model answers, [validateRelevance] ends with a boolean
    and never with an error; when the call fails, the completion has no
    choice, or its text does not parse (or parses to [null]), that boolean is
    [false]. *)
Theorem gatekeeper_fails_safe (article : NewsArticle) (w : World) :
  (exists (b : bool) (w' : World), validateRelevance CONFIG article w = (Ok b, w'))
  /\ (unusable (chat w (remote_history (trace w)) (gatekeeper_request CONFIG article)) ->
      exists w' : World, validateRelevance CONFIG article w = (Ok false, w')).
Proof.
  destruct (validateRelevance_run CONFIG article w) as [w' E]. split.
  - eauto.
  - intros U. exists w'. rewrite E.
    inversion U as [msg A | A | c rest msg P A | c rest P A]; simpl; try reflexivity;
      rewrite P; reflexivity.
Qed.

(** C10: [validateRelevance] answers [true] exactly when the call succeeds and
    the parsed response is an object whose [is_business_case] is the boolean
    [true]; any other value of that property gives [false]. *)
Theorem gatekeeper_true_iff (article : NewsArticle) (w : World) :
  let answer := chat w (remote_history (trace w)) (gatekeeper_request CONFIG article) in
  (fst (validateRelevance CONFIG article w) = Ok true <->
   exists content rest props,
     answer = ChatCompletion (content :: rest)
     /\ JSON_parse (or_else content "{}") = inl (JObj props)
     /\ assoc "is_business_case" props = Some (JBool true))
  /\ (forall content rest props v,
        answer = ChatCompletion (content :: rest) ->
        JSON_parse (or_else content "{}") = inl (JObj props) ->
        assoc "is_business_case" props = Some v ->
        v <> JBool true ->
        fst (validateRelevance CONFIG article w) = Ok false).
Proof.
  intros answer. destruct (validateRelevance_run CONFIG article w) as [w' E].
  rewrite E. fold answer. simpl. split; [split | ].
  - intros V. unfold verdict in V.
    destruct answer as [msg | [ | content rest]]; try discriminate.
    destruct (JSON_parse (or_else content "{}")) as [[ | | | | | props] | msg] eqn:P; try discriminate.
    destruct (assoc "is_business_case" props) as [[ | [ | ] | | | | ] | ] eqn:A; try discriminate.
    exists content, rest, props. auto.
  - intros (content & rest & props & A & P & F). rewrite A. simpl. rewrite P, F. reflexivity.
  - intros content rest props v A P F NE. rewrite A. simpl. rewrite P, F.
    destruct v as [ | [ | ] | | | | ]; try reflexivity. contradiction.
Qed.



End Claims_on_agents.

Section Witnesses_for_agents.

Import Demo.

(** A call that times out, and a completion that is not JSON. *)
Lemma gatekeeper_fails_safe_witness :
  (exists w', validateRelevance config a1 (world ∅ 0 [ChatFailed "timeout"] []) = (Ok false, w'))
  /\ (exists w', validateRelevance config a1 (world ∅ 0 [ChatCompletion [Some "{not json"]] [])
                 = (Ok false, w')).
Proof.
  split.
  - apply (proj2 (gatekeeper_fails_safe config a1 _)). apply call_failed.
  - apply (proj2 (gatekeeper_fails_safe config a1 _)).
    apply (parse_error (Some "{not json") [] "Unexpected token in JSON"). reflexivity.
Defined.

(** The string [true] and the number 1 in the property give [false]; the
    boolean gives [true]. *)
Lemma gatekeeper_true_iff_witness :
  fst (validateRelevance config a1
         (world ∅ 0 [ChatCompletion [Some (print (JObj [("is_business_case", JStr "true")]))]] []))
    = Ok false
  /\ fst (validateRelevance config a1
            (world ∅ 0 [ChatCompletion [Some (print (JObj [("is_business_case", JNum 1)]))]] []))
     = Ok false
  /\ fst (validateRelevance config a1 (world ∅ 0 [relevant] [])) = Ok true.
Proof.
  split; [ | split].
  - apply (proj2 (gatekeeper_true_iff config a1 _)
             (Some (print (JObj [("is_business_case", JStr "true")]))) []
             [("is_business_case", JStr "true")] (JStr "true"));
      [reflexivity | reflexivity | reflexivity | discriminate].
  - apply (proj2 (gatekeeper_true_iff config a1 _)
             (Some (print (JObj [("is_business_case", JNum 1)]))) []
             [("is_business_case", JNum 1)] (JNum 1));
      [reflexivity | reflexivity | reflexivity | discriminate].
  - apply (proj1 (gatekeeper_true_iff config a1 _)).
    exists (Some (print (JObj [("is_business_case", JBool true)]))), [], [("is_business_case", JBool true)].
    repeat split; reflexivity.
Defined.




End Witnesses_for_agents.

Section Runs_of_the_orchestrator.

Context `{Platform}.
Variable CONFIG : Config.

Lemma runMAS_run (w : World) :
  runMAS CONFIG (w, []) = try_catch (investigation CONFIG) stop (emit starting w, []).
Proof. reflexivity. Qed.

(** The [catch] block of [runMAS]. *)
Lemma stop_run (e : JsError) (w : World) (results : list AnalysisResult) :
  stop e (w, results)
  = match results with
    | [] => (Exit 1, (emit (stopped e) w, results))
    | _ =>
        match generateHTMLReport results (emit (stopped e) w) with
        | (Ok _, w4) => (Exit 1, (w4, results))
        | (Throw e', w4) => (Throw e', (w4, results))
        | (Exit code, w4) => (Exit code, (w4, results))
        end
    end.
Proof.
  unfold stop. unfold bind at 1, lift at 1, console_error, modify. simpl. fold (stopped e).
  unfold bind at 1, local at 1. simpl.
  destruct results as [ | r rs]; [reflexivity | ].
  unfold bind at 1, lift at 1. simpl.
  destruct (generateHTMLReport (r :: rs) (emit (stopped e) w)) as [[[] | e' | code] w4]; reflexivity.
Qed.

(** The [try] block once the Scout has returned: the loop over the entries
    of the value returned, and the report. *)
Lemma investigation_after_fetch (w0 w1 : World) (articles : JsValue) :
  fetchNews CONFIG "AI business use cases" w0 = (Ok articles, w1) ->
  investigation CONFIG (w0, [])
  = match array_entries articles (w1, []) with
    | (Ok entries, _) =>
        match investigate_all CONFIG (Z.of_nat (length entries)) 0 entries (w1, []) with
        | (Ok _, (w2, results)) =>
            match generateHTMLReport results w2 with
            | (o, w3) => (o, (w3, results))
            end
        | (Throw e, s) => (Throw e, s)
        | (Exit code, s) => (Exit code, s)
        end
    | (Throw e, s) => (Throw e, s)
    | (Exit code, s) => (Exit code, s)
    end.
Proof.
  intros F. unfold investigation. unfold bind at 1, lift at 1. cbn [fst snd]. rewrite F.
  unfold bind at 1. destruct articles; try reflexivity.
  cbn [array_entries ret]. unfold bind at 1.
  destruct (investigate_all CONFIG _ 0 items (w1, [])) as [[[] | e | code] [w2 results]];
    reflexivity.
Qed.

(** What [runMAS] does once the Scout has returned the array [articles], none
    of them [null], in the world [w1]: the loop, then the report on what the
    loop accumulated. *)
Lemma runMAS_after_fetch (w w1 : World) (articles : list JsValue) :
  fetchNews CONFIG "AI business use cases" (emit starting w) = (Ok (JArr articles), w1) ->
  no_null articles ->
  exists w2 : World,
    investigate_all CONFIG (Z.of_nat (length articles)) 0 articles (w1, [])
      = (Ok tt, (w2, succeeded (analyses CONFIG (Z.of_nat (length articles)) 0 articles w1)))
    /\ runMAS CONFIG (w, [])
       = let reported := succeeded (analyses CONFIG (Z.of_nat (length articles)) 0 articles w1) in
         match generateHTMLReport reported w2 with
         | (Ok _, w3) => (Ok tt, (w3, reported))
         | (Exit code, w3) => (Exit code, (w3, reported))
         | (Throw e, w3) =>
             match reported with
             | [] => (Exit 1, (emit (stopped e) w3, reported))
             | _ =>
                 match generateHTMLReport reported (emit (stopped e) w3) with
                 | (Ok _, w4) => (Exit 1, (w4, reported))
                 | (Throw e', w4) => (Throw e', (w4, reported))
                 | (Exit code, w4) => (Exit code, (w4, reported))
                 end
             end
         end.
Proof.
  intros F NN.
  destruct (investigate_all_run CONFIG (Z.of_nat (length articles)) articles NN 0 w1 []) as [w2 L].
  simpl in L. exists w2. split; [exact L | ].
  rewrite runMAS_run. unfold try_catch. rewrite (investigation_after_fetch _ _ _ F).
  cbn [array_entries ret]. rewrite L. cbv zeta.
  destruct (generateHTMLReport _ w2) as [[[] | e | code] w3]; try reflexivity.
  apply stop_run.
Qed.

(** The same when the array has a [null] behind the articles [good]: the
    loop stops there, and the [catch] block reports on what was accumulated. *)
Lemma runMAS_null_entry (w w1 : World) (good rest : list JsValue) :
  fetchNews CONFIG "AI business use cases" (emit starting w)
    = (Ok (JArr (good ++ JNull :: rest)), w1) ->
  no_null good ->
  exists w2 : World,
    investigate_all CONFIG (Z.of_nat (length (good ++ JNull :: rest))) 0 (good ++ JNull :: rest) (w1, [])
      = (Throw null_title,
         (w2, succeeded (analyses CONFIG (Z.of_nat (length (good ++ JNull :: rest))) 0 good w1)))
    /\ runMAS CONFIG (w, [])
       = stop null_title
           (w2, succeeded (analyses CONFIG (Z.of_nat (length (good ++ JNull :: rest))) 0 good w1)).
Proof.
  intros F NN.
  destruct (investigate_all_null CONFIG (Z.of_nat (length (good ++ JNull :: rest))) good rest NN 0 w1 [])
    as [w2 L].
  simpl in L. exists w2. split; [exact L | ].
  rewrite runMAS_run. unfold try_catch. rewrite (investigation_after_fetch _ _ _ F).
  cbn [array_entries ret]. rewrite L. reflexivity.
Qed.

Lemma runMAS_scout_throws (w w1 : World) (e : JsError) :
  fetchNews CONFIG "AI business use cases" (emit starting w) = (Throw e, w1) ->
  runMAS CONFIG (w, []) = (Exit 1, (emit (stopped e) w1, [])).
Proof.
  intros F. rewrite runMAS_run. unfold try_catch, investigation.
  unfold bind at 1, lift at 1. cbn [snd fst]. rewrite F. apply stop_run.
Qed.

End Runs_of_the_orchestrator.

(** ** Frames and noninterference, combinator by combinator *)

Section Keeps.

Context {S : Type} (I : S -> S -> Prop).
Hypothesis I_refl : forall s, I s s.
Hypothesis I_trans : forall a b c, I a b -> I b c -> I a c.

Lemma keeps_ret {A} (a : A) : keeps I (ret a).
Proof. intros s. apply I_refl. Qed.

Lemma keeps_throw {A} (e : JsError) : keeps I (throw (A := A) e).
Proof. intros s. apply I_refl. Qed.

Lemma keeps_bind {A B} (m : M S A) (k : A -> M S B) :
  keeps I m -> (forall a, keeps I (k a)) -> keeps I (bind m k).
Proof.
  intros Hm Hk s. unfold bind. specialize (Hm s).
  destruct (m s) as [[a | e | c] s']; simpl in *; try assumption.
  eapply I_trans; [exact Hm | apply Hk].
Qed.

Lemma keeps_try_catch {A} (m : M S A) (h : JsError -> M S A) :
  keeps I m -> (forall e, keeps I (h e)) -> keeps I (try_catch m h).
Proof.
  intros Hm Hh s. unfold try_catch. specialize (Hm s).
  destruct (m s) as [[a | e | c] s']; simpl in *; try assumption.
  eapply I_trans; [exact Hm | apply Hh].
Qed.

End Keeps.

Section Keeps_locals.

Context {L : Type} (I : World -> World -> Prop).
Hypothesis I_refl : forall s, I s s.

Lemma keeps_lift {A} (m : M World A) : keeps I m -> keeps (on_world (L := L) I) (lift m).
Proof.
  intros Hm [w l]. unfold lift, on_world. simpl. specialize (Hm w).
  destruct (m w) as [o w']. exact Hm.
Qed.

Lemma keeps_local {A} (f : L -> A) : keeps (on_world I) (local f).
Proof. intros [w l]. apply I_refl. Qed.

Lemma keeps_set_local (f : L -> L) : keeps (on_world I) (set_local f).
Proof. intros [w l]. apply I_refl. Qed.

Lemma keeps_with_locals {A} (l0 : L) (m : M (World * L) A) :
  keeps (on_world I) m -> keeps I (with_locals l0 m).
Proof.
  intros Hm w. unfold with_locals. specialize (Hm (w, l0)).
  destruct (m (w, l0)) as [o s]. exact Hm.
Qed.

End Keeps_locals.

Section Respects.

Context {S : Type} (R : S -> S -> Prop).

Lemma respects_ret {A} (a : A) : respects R (ret a).
Proof. intros s1 s2 E. split; [reflexivity | exact E]. Qed.

Lemma respects_throw {A} (e : JsError) : respects R (throw (A := A) e).
Proof. intros s1 s2 E. split; [reflexivity | exact E]. Qed.

Lemma respects_bind {A B} (m : M S A) (k : A -> M S B) :
  respects R m -> (forall a, respects R (k a)) -> respects R (bind m k).
Proof.
  intros Hm Hk s1 s2 E. unfold bind. destruct (Hm s1 s2 E) as [O E'].
  destruct (m s1) as [o1 t1], (m s2) as [o2 t2]. simpl in *. subst o2.
  destruct o1 as [a | e | c]; simpl; auto. apply Hk. exact E'.
Qed.

Lemma respects_try_catch {A} (m : M S A) (h : JsError -> M S A) :
  respects R m -> (forall e, respects R (h e)) -> respects R (try_catch m h).
Proof.
  intros Hm Hh s1 s2 E. unfold try_catch. destruct (Hm s1 s2 E) as [O E'].
  destruct (m s1) as [o1 t1], (m s2) as [o2 t2]. simpl in *. subst o2.
  destruct o1 as [a | e | c]; simpl; auto. apply Hh. exact E'.
Qed.

End Respects.

Section Respects_locals.

Context {L : Type} (R : World -> World -> Prop).

Lemma respects_lift {A} (m : M World A) : respects R m -> respects (beside (L := L) R) (lift m).
Proof.
  intros Hm [w1 l1] [w2 l2] [E El]. simpl in *. subst l2. unfold lift. simpl.
  destruct (Hm w1 w2 E) as [O E'].
  destruct (m w1) as [o1 t1], (m w2) as [o2 t2]. simpl in *. repeat split; assumption.
Qed.

Lemma respects_local {A} (f : L -> A) : respects (beside R) (local f).
Proof.
  intros [w1 l1] [w2 l2] [E El]. simpl in *. subst l2. repeat split; assumption.
Qed.

Lemma respects_set_local (f : L -> L) : respects (beside R) (set_local f).
Proof.
  intros [w1 l1] [w2 l2] [E El]. simpl in *. subst l2. repeat split; assumption.
Qed.

Lemma respects_with_locals {A} (l0 : L) (m : M (World * L) A) :
  respects (beside R) m -> respects R (with_locals l0 m).
Proof.
  intros Hm w1 w2 E. unfold with_locals.
  destruct (Hm (w1, l0) (w2, l0)) as [O [E' _]]; [split; [exact E | reflexivity] | ].
  destruct (m (w1, l0)) as [o1 t1], (m (w2, l0)) as [o2 t2]. simpl in *. split; assumption.
Qed.

End Respects_locals.

(** ** The primitive operations *)

Lemma grows_refl (w : World) : grows w w.
Proof. exists []. symmetry. apply app_nil_r. Qed.

Lemma grows_trans (a b c : World) : grows a b -> grows b c -> grows a c.
Proof. intros [l1 E1] [l2 E2]. exists (l1 ++ l2). rewrite E2, E1, app_assoc. reflexivity. Qed.

Lemma grows_emit (e : Event) (w : World) : grows w (emit e w).
Proof. exists [e]. reflexivity. Qed.

Lemma same_services_emit (e : Event) (w1 w2 : World) :
  same_services w1 w2 -> same_services (emit e w1) (emit e w2).
Proof.
  intros (N & C & S & T). repeat split; simpl; try assumption.
  rewrite !remote_history_snoc, T. reflexivity.
Qed.

Lemma keeps_console_log (text : string) : keeps grows (console_log text).
Proof. intros w. apply grows_emit. Qed.

Lemma keeps_console_error (text detail : string) : keeps grows (console_error text detail).
Proof. intros w. apply grows_emit. Qed.

Lemma keeps_chat_create (req : ChatRequest) : keeps grows (chat_create req).
Proof. intros w. unfold chat_create. destruct (chat w _ _); apply grows_emit. Qed.

Lemma keeps_axios_get (req : NewsRequest) : keeps grows (axios_get req).
Proof. intros w. unfold axios_get. destruct (news w _ _); apply grows_emit. Qed.

Lemma keeps_write (p c : string) : keeps grows (fs_writeFileSync p c).
Proof. intros w. exists [EvWrite p c]. reflexivity. Qed.

Lemma keeps_Date_now : keeps grows Date_now.
Proof. intros w. apply grows_refl. Qed.

Lemma respects_console_log (text : string) : respects same_services (console_log text).
Proof. intros w1 w2 E. split; [reflexivity | apply same_services_emit, E]. Qed.

Lemma respects_console_error (text detail : string) :
  respects same_services (console_error text detail).
Proof. intros w1 w2 E. split; [reflexivity | apply same_services_emit, E]. Qed.

Lemma respects_chat_create (req : ChatRequest) : respects same_services (chat_create req).
Proof.
  intros w1 w2 E. unfold chat_create.
  pose proof (same_services_emit (EvChat req) _ _ E) as E'.
  destruct E as (N & C & S & T). rewrite C, T.
  destruct (chat w2 _ _); split; try reflexivity; exact E'.
Qed.

Lemma respects_axios_get (req : NewsRequest) : respects same_services (axios_get req).
Proof.
  intros w1 w2 E. unfold axios_get.
  pose proof (same_services_emit (EvNews req) _ _ E) as E'.
  destruct E as (N & C & S & T). rewrite S, T.
  destruct (news w2 _ _); split; try reflexivity; exact E'.
Qed.

Lemma respects_Date_now : respects same_services Date_now.
Proof. intros w1 w2 E. unfold Date_now. simpl. split; [ | exact E]. f_equal. apply E. Qed.

Lemma respects_write (p c : string) : respects same_services (fs_writeFileSync p c).
Proof.
  intros w1 w2 (N & C & S & T). split; [reflexivity | ].
  repeat split; simpl; try assumption. rewrite !remote_history_snoc, T. reflexivity.
Qed.

Lemma stateless_keeps {S A} (I : S -> S -> Prop) (m : M S A) :
  (forall s, I s s) -> stateless m -> keeps I m.
Proof. intros Irefl [o E] s. rewrite E. apply Irefl. Qed.

Lemma stateless_respects {S A} (R : S -> S -> Prop) (m : M S A) :
  stateless m -> respects R m.
Proof. intros [o E] s1 s2 Rs. rewrite !E. split; [reflexivity | exact Rs]. Qed.

Lemma stateless_first_content {S} (choices : list (option string)) :
  stateless (first_content (S := S) choices).
Proof. destruct choices; eexists; reflexivity. Qed.

Lemma stateless_json_parse `{Platform} {S} (text : string) : stateless (json_parse (S := S) text).
Proof. unfold json_parse. destruct (JSON_parse text); eexists; reflexivity. Qed.

Lemma stateless_get_prop {S} (o : JsValue) (k : string) : stateless (get_prop (S := S) o k).
Proof. destruct o; eexists; reflexivity. Qed.

Lemma stateless_array_entries {S} (v : JsValue) : stateless (array_entries (S := S) v).
Proof. destruct v; eexists; reflexivity. Qed.

Lemma on_world_refl {L} (I : World -> World -> Prop) :
  (forall w, I w w) -> forall s : World * L, on_world I s s.
Proof. intros Irefl s. apply Irefl. Qed.

Lemma on_world_trans {L} (I : World -> World -> Prop) :
  (forall a b c, I a b -> I b c -> I a c) ->
  forall a b c : World * L, on_world I a b -> on_world I b c -> on_world I a c.
Proof. intros Itrans a b c. apply Itrans. Qed.

(** Proof steps for a computation made of the combinators: which effects it
    has ([grow]) and what it depends on ([indifferent]). *)
Ltac grow_step :=
  lazymatch goal with
  | |- keeps grows (bind _ _) => apply (keeps_bind grows grows_trans); [ | intros ? ]
  | |- keeps grows (try_catch _ _) => apply (keeps_try_catch grows grows_trans); [ | intros ? ]
  | |- keeps grows (ret _) => apply (keeps_ret grows grows_refl)
  | |- keeps grows (throw _) => apply (keeps_throw grows grows_refl)
  | |- keeps (on_world grows) (bind _ _) =>
      apply (keeps_bind (on_world grows) (on_world_trans grows grows_trans)); [ | intros ? ]
  | |- keeps (on_world grows) (try_catch _ _) =>
      apply (keeps_try_catch (on_world grows) (on_world_trans grows grows_trans)); [ | intros ? ]
  | |- keeps (on_world grows) (ret _) => apply (keeps_ret (on_world grows) (on_world_refl grows grows_refl))
  | |- keeps (on_world grows) (throw _) =>
      apply (keeps_throw (on_world grows) (on_world_refl grows grows_refl))
  | |- keeps (on_world grows) (lift _) => apply (keeps_lift grows)
  | |- keeps (on_world grows) (local _) => apply (keeps_local grows grows_refl)
  | |- keeps (on_world grows) (set_local _) => apply (keeps_set_local grows grows_refl)
  | |- keeps (on_world grows) collected_count => apply (keeps_local grows grows_refl)
  | |- keeps grows (with_locals _ _) => apply (keeps_with_locals grows)
  | |- keeps grows (console_log _) => apply keeps_console_log
  | |- keeps grows (console_error _ _) => apply keeps_console_error
  | |- keeps grows (chat_create _) => apply keeps_chat_create
  | |- keeps grows (axios_get _) => apply keeps_axios_get
  | |- keeps grows (fs_writeFileSync _ _) => apply keeps_write
  | |- keeps grows Date_now => apply keeps_Date_now
  | |- keeps grows (first_content _) => apply (stateless_keeps grows _ grows_refl), stateless_first_content
  | |- keeps grows (json_parse _) => apply (stateless_keeps grows _ grows_refl), stateless_json_parse
  | |- keeps grows (get_prop _ _) => apply (stateless_keeps grows _ grows_refl), stateless_get_prop
  | |- keeps _ (if ?b then _ else _) => destruct b
  end.

Ltac grow := repeat grow_step; try assumption.

Ltac indifferent_step :=
  lazymatch goal with
  | |- respects _ (bind _ _) => apply respects_bind; [ | intros ? ]
  | |- respects _ (try_catch _ _) => apply respects_try_catch; [ | intros ? ]
  | |- respects _ (ret _) => apply respects_ret
  | |- respects _ (throw _) => apply respects_throw
  | |- respects _ (lift _) => apply respects_lift
  | |- respects _ (local _) => apply respects_local
  | |- respects _ collected_count => apply respects_local
  | |- respects _ (set_local _) => apply respects_set_local
  | |- respects _ (with_locals _ _) => apply respects_with_locals
  | |- respects _ (console_log _) => apply respects_console_log
  | |- respects _ (console_error _ _) => apply respects_console_error
  | |- respects _ (chat_create _) => apply respects_chat_create
  | |- respects _ (axios_get _) => apply respects_axios_get
  | |- respects _ (fs_writeFileSync _ _) => apply respects_write
  | |- respects _ Date_now => apply respects_Date_now
  | |- respects _ (first_content _) => apply stateless_respects, stateless_first_content
  | |- respects _ (json_parse _) => apply stateless_respects, stateless_json_parse
  | |- respects _ (get_prop _ _) => apply stateless_respects, stateless_get_prop
  | |- respects _ (if ?b then _ else _) => destruct b
  end.

Ltac indifferent := repeat indifferent_step; try assumption.

Section Scout_frames.

Context `{Platform}.
Variable CONFIG : Config.

Lemma validateRelevance_grows (article : NewsArticle) :
  keeps grows (validateRelevance CONFIG article).
Proof. unfold validateRelevance. grow. Qed.

Lemma validateRelevance_indifferent (article : NewsArticle) :
  respects same_services (validateRelevance CONFIG article).
Proof. unfold validateRelevance. indifferent. Qed.

Lemma scan_articles_grows (articles : list RawArticle) :
  keeps (on_world grows) (scan_articles CONFIG articles).
Proof.
  induction articles as [ | a rest IH]; simpl; grow;
    first [apply validateRelevance_grows | destruct (raw_source a); grow].
Qed.

Lemma scan_articles_indifferent (articles : list RawArticle) :
  respects (beside same_services) (scan_articles CONFIG articles).
Proof.
  induction articles as [ | a rest IH]; simpl; indifferent;
    first [apply validateRelevance_indifferent | destruct (raw_source a); indifferent].
Qed.

Lemma fetch_pages_grows (topic fromDate : string) (pages : list Z) :
  keeps (on_world grows) (fetch_pages CONFIG topic fromDate pages).
Proof.
  induction pages as [ | page later IH]; simpl; grow.
  match goal with |- context [match ?x with _ => _ end] => destruct x as [[ | ] | ] end; grow.
  apply scan_articles_grows.
Qed.

Lemma fetch_pages_indifferent (topic fromDate : string) (pages : list Z) :
  respects (beside same_services) (fetch_pages CONFIG topic fromDate pages).
Proof.
  induction pages as [ | page later IH]; simpl; indifferent.
  match goal with |- context [match ?x with _ => _ end] => destruct x as [[ | ] | ] end; indifferent.
  apply scan_articles_indifferent.
Qed.

Lemma fetch_from_api_grows (topic cachePath : string) :
  keeps grows (fetch_from_api CONFIG topic cachePath).
Proof.
  unfold fetch_from_api. grow. apply fetch_pages_grows.
Qed.

Lemma fetch_from_api_indifferent (topic cachePath : string) :
  respects same_services (fetch_from_api CONFIG topic cachePath).
Proof.
  unfold fetch_from_api. indifferent. apply fetch_pages_indifferent.
Qed.

End Scout_frames.

Section Later.

Context {S : Type} (I : S -> S -> Prop).
Hypothesis I_trans : forall a b c, I a b -> I b c -> I a c.

(** A state reached in the middle of a computation stays related to the
    states that follow. *)
Lemma later_bind {A B} (m : M S A) (k : A -> M S B) (x s : S) :
  I x (snd (m s)) -> (forall a, keeps I (k a)) -> I x (snd (bind m k s)).
Proof.
  intros Hm Hk. unfold bind. destruct (m s) as [[a | e | c] s']; simpl in *; try assumption.
  eapply I_trans; [exact Hm | apply Hk].
Qed.

Lemma later_try_catch {A} (m : M S A) (h : JsError -> M S A) (x s : S) :
  I x (snd (m s)) -> (forall e, keeps I (h e)) -> I x (snd (try_catch m h s)).
Proof.
  intros Hm Hh. unfold try_catch. destruct (m s) as [[a | e | c] s']; simpl in *; try assumption.
  eapply I_trans; [exact Hm | apply Hh].
Qed.

End Later.

Section Scout_cache.

Context `{Platform}.
Variable CONFIG : Config.

Lemma load_cached_absent (p : string) (w : World) :
  exists_path p w = false -> load_cached CONFIG p w = (Ok None, w).
Proof. intros E. unfold load_cached, bind, fs_existsSync. rewrite E. reflexivity. Qed.

Lemma load_cached_expired (p : string) (w : World) (f : File) :
  files w !! p = Some f -> CACHE_TTL <= now w - mtimeMs f ->
  load_cached CONFIG p w = (Ok None, w).
Proof.
  intros F T. unfold load_cached, bind, fs_existsSync, fs_statSync, Date_now.
  rewrite (exists_path_file _ _ _ F), F.
  destruct (now w - mtimeMs f <? CACHE_TTL) eqn:Fresh; [ | reflexivity].
  apply Z.ltb_lt in Fresh. lia.
Qed.

Lemma load_cached_too_small (p : string) (w : World) (f : File) (items : list JsValue) :
  files w !! p = Some f -> now w - mtimeMs f < CACHE_TTL ->
  JSON_parse (content f) = inl (JArr items) ->
  Z.of_nat (length items) < newsMaxRequests CONFIG ->
  load_cached CONFIG p w = (Ok None, emit (cache_only_has CONFIG (Z.of_nat (length items))) w).
Proof.
  intros F T P N. unfold load_cached, bind, fs_existsSync, fs_statSync, Date_now.
  rewrite (exists_path_file _ _ _ F), F.
  apply Z.ltb_lt in T. rewrite T.
  unfold fs_readFileSync, json_parse. rewrite F, P. simpl.
  destruct (newsMaxRequests CONFIG <=? Z.of_nat (length items)) eqn:Enough; [ | reflexivity].
  apply Z.leb_le in Enough. lia.
Qed.

Lemma load_cached_fresh (p : string) (w : World) (f : File) (items : list JsValue) :
  files w !! p = Some f -> now w - mtimeMs f < CACHE_TTL ->
  JSON_parse (content f) = inl (JArr items) ->
  0 <= newsMaxRequests CONFIG <= Z.of_nat (length items) ->
  load_cached CONFIG p w
  = (Ok (Some (JArr (firstn (Z.to_nat (newsMaxRequests CONFIG)) items))), emit (loading CONFIG) w).
Proof.
  intros F T P N. unfold load_cached, bind, fs_existsSync, fs_statSync, Date_now.
  rewrite (exists_path_file _ _ _ F), F.
  apply Z.ltb_lt in T. rewrite T.
  unfold fs_readFileSync, json_parse. rewrite F, P. simpl.
  destruct (newsMaxRequests CONFIG <=? Z.of_nat (length items)) eqn:Enough;
    [ | apply Z.leb_gt in Enough; lia].
  unfold console_log, modify. simpl. unfold slice0.
  destruct (newsMaxRequests CONFIG <? 0) eqn:Neg; [apply Z.ltb_lt in Neg; lia | ].
  reflexivity.
Qed.

(** [fetchNews] in terms of its two steps. *)
Lemma fetchNews_run (topic : string) (w : World) :
  fetchNews CONFIG topic w
  = match load_cached CONFIG (cache_path topic) w with
    | (Ok (Some articles), w1) => (Ok articles, w1)
    | (Ok None, w1) =>
        (returned (fst (fetch_from_api CONFIG topic (cache_path topic) w1)),
         snd (fetch_from_api CONFIG topic (cache_path topic) w1))
    | (Throw e, w1) => (Throw e, w1)
    | (Exit code, w1) => (Exit code, w1)
    end.
Proof.
  unfold fetchNews, bind.
  destruct (load_cached CONFIG (cache_path topic) w) as [[[cached | ] | e | code] w1];
    try reflexivity.
  destruct (fetch_from_api CONFIG topic (cache_path topic) w1) as [[collected | e | code] w2];
    reflexivity.
Qed.

(** With no usable cache, [fetchNews] is [fetch_from_api], run in the same
    world up to a console line. *)
Lemma fetchNews_on_miss (topic : string) (w : World) :
  cache_miss CONFIG topic w ->
  exists w0 : World,
    fetchNews CONFIG topic w
    = (returned (fst (fetch_from_api CONFIG topic (cache_path topic) w0)),
       snd (fetch_from_api CONFIG topic (cache_path topic) w0))
    /\ same_services w0 w /\ files w0 = files w /\ grows w w0.
Proof.
  intros [E | f F T | f items F T P N]; rewrite fetchNews_run.
  - rewrite (load_cached_absent _ _ E). exists w.
    repeat split; try reflexivity. apply grows_refl.
  - rewrite (load_cached_expired _ _ _ F T). exists w.
    repeat split; try reflexivity. apply grows_refl.
  - rewrite (load_cached_too_small _ _ _ _ F T P N). eexists.
    split; [reflexivity | ]. repeat split; try reflexivity.
    + simpl. apply remote_history_log.
    + apply grows_emit.
Qed.

Lemma fetch_pages_asks (topic fromDate : string) (later : list Z) (w : World) (l : Scout) :
  1 <= newsMaxRequests CONFIG -> collectedArticles l = [] ->
  grows (emit (EvNews (mkNews topic fromDate (newsBatchSize CONFIG) 1 (newsApiKey CONFIG)))
           (emit (fetching_page 1) w))
    (fst (snd (fetch_pages CONFIG topic fromDate (1 :: later) (w, l)))).
Proof.
  intros N E.
  change (fetch_pages CONFIG topic fromDate (1 :: later))
    with (bind collected_count (fun n =>
            if n <? newsMaxRequests CONFIG
            then bind (lift (console_log ("
📄 Fetching Page " +:+ pretty 1 +:+ "...")))
                   (fun _ => bind
                      (try_catch
                         (bind (lift (axios_get (mkNews topic fromDate (newsBatchSize CONFIG) 1
                                                   (newsApiKey CONFIG))))
                            (fun articles =>
                               match articles with
                               | None | Some [] =>
                                   bind (lift (console_log "   ⚠️ No more articles available."))
                                     (fun _ => ret false)
                               | Some found => bind (scan_articles CONFIG found) (fun _ => ret true)
                               end))
                         (fun error =>
                            bind (lift (console_error ("   ❌ Error fetching page " +:+ pretty 1 +:+ ":")
                                          (message error)))
                              (fun _ => ret false)))
                      (fun again : bool =>
                         if again then fetch_pages CONFIG topic fromDate later else ret tt))
            else ret tt)).
  unfold bind at 1, collected_count, local. cbn [snd fst]. rewrite E.
  change (Z.of_nat (length (@nil NewsArticle))) with 0.
  destruct (0 <? newsMaxRequests CONFIG) eqn:Want; [ | apply Z.ltb_ge in Want; lia].
  unfold bind at 1, lift at 1, console_log at 1, modify at 1. cbn [snd fst]. fold (fetching_page 1).
  apply (later_bind (on_world grows) (on_world_trans grows grows_trans)
           _ _ (emit (EvNews _) (emit (fetching_page 1) w), l)).
  - apply (later_try_catch (on_world grows) (on_world_trans grows grows_trans)).
    + apply (later_bind (on_world grows) (on_world_trans grows grows_trans)).
      * unfold lift, axios_get, on_world. cbn [snd fst].
        destruct (news _ _ _); apply grows_refl.
      * intros [[ | a found] | ]; grow. apply scan_articles_grows.
    + intros e. grow.
  - intros again. destruct again; grow. apply fetch_pages_grows.
Qed.

Lemma fetch_from_api_asks (topic p : string) (w : World) :
  1 <= newsMaxRequests CONFIG ->
  In (EvNews (first_request CONFIG topic (now w))) (trace (snd (fetch_from_api CONFIG topic p w))).
Proof.
  intros N.
  assert (G : grows (emit (EvNews (first_request CONFIG topic (now w)))
                       (emit (fetching_page 1) (emit (fetching CONFIG) w)))
                (snd (fetch_from_api CONFIG topic p w))).
  { unfold fetch_from_api. unfold bind at 1, console_log at 1, modify at 1. cbn [snd fst].
    fold (fetching CONFIG). unfold bind at 1, Date_now. cbn [snd fst now emit].
    apply (later_bind grows grows_trans).
    - unfold with_locals.
      pose proof (fetch_pages_asks topic (before_T (toISOString (Date_minus_days (now w) 7)))
                    [2; 3] (emit (fetching CONFIG) w) (mkScout [] ∅) N eq_refl) as G.
      unfold bind at 1. change page_numbers with [1; 2; 3].
      destruct (fetch_pages CONFIG topic _ [1; 2; 3] _) as [[[] | e | c] [w' l']]; exact G.
    - intros [ | a collected]; grow. }
  destruct G as [later E]. rewrite E. apply in_or_app. left. simpl.
  apply in_or_app. right. left. reflexivity.
Qed.

(** C4: a fresh article-list cache entry with at least the requested number
    of articles is what [fetchNews] returns (its first articles as they are
    in the file, all of them when it holds exactly the number requested),
    with a console line as only effect; an absent, expired or too small entry
    gives the outcome and the remote calls of a run without the entry, and the
    first page is requested. *)
Theorem article_list_cache_contract (topic : string) (w : World) :
  (forall f items,
      files w !! cache_path topic = Some f ->
      now w - mtimeMs f < CACHE_TTL ->
      JSON_parse (content f) = inl (JArr items) ->
      0 <= newsMaxRequests CONFIG <= Z.of_nat (length items) ->
      fetchNews CONFIG topic w
        = (Ok (JArr (firstn (Z.to_nat (newsMaxRequests CONFIG)) items)), emit (loading CONFIG) w)
      /\ (newsMaxRequests CONFIG = Z.of_nat (length items) ->
          fetchNews CONFIG topic w = (Ok (JArr items), emit (loading CONFIG) w)))
  /\ (cache_miss CONFIG topic w ->
      fst (fetchNews CONFIG topic w) = fst (fetchNews CONFIG topic (without_cache topic w))
      /\ remote_history (trace (snd (fetchNews CONFIG topic w)))
         = remote_history (trace (snd (fetchNews CONFIG topic (without_cache topic w))))
      /\ (1 <= newsMaxRequests CONFIG ->
          In (EvNews (first_request CONFIG topic (now w)))
            (trace (snd (fetchNews CONFIG topic w))))).
Proof.
  split.
  - intros f items F T P N.
    assert (E : fetchNews CONFIG topic w
                = (Ok (JArr (firstn (Z.to_nat (newsMaxRequests CONFIG)) items)),
                   emit (loading CONFIG) w)).
    { rewrite fetchNews_run, (load_cached_fresh _ _ _ _ F T P N). reflexivity. }
    split; [exact E | ]. intros L. rewrite E, L, Nat2Z.id, firstn_all. reflexivity.
  - intros Miss.
    destruct (fetchNews_on_miss topic w Miss) as (w0 & E & Same & _ & _).
    assert (Absent : cache_miss CONFIG topic (without_cache topic w)).
    { apply cache_absent. unfold exists_path, without_cache. simpl.
      rewrite lookup_delete_eq. apply orb_false_iff. split.
      - apply bool_decide_eq_false. intros [x X]. discriminate.
      - apply bool_decide_eq_false. intros In.
        apply elem_of_difference in In. destruct In as [_ Not]. apply Not.
        apply elem_of_singleton. reflexivity. }
    destruct (fetchNews_on_miss topic _ Absent) as (w1 & E1 & Same1 & _ & _).
    rewrite E, E1.
    assert (S01 : same_services w0 w1).
    { destruct Same as (a & b & c & d), Same1 as (a1 & b1 & c1 & d1).
      unfold without_cache in *; simpl in *. repeat split; congruence. }
    destruct (fetch_from_api_indifferent CONFIG topic (cache_path topic) w0 w1 S01)
      as (O & _ & _ & _ & T).
    cbn [fst snd]. split; [rewrite O; reflexivity | ]. split; [exact T | ].
    intros N. destruct Same as (Now & _).
    rewrite <- Now. apply fetch_from_api_asks. exact N.
Qed.

End Scout_cache.

Section Witness_for_the_cache.

Import Demo.

(** A cache one hour old with the three articles requested, and the same
    cache 25 hours old. *)
Lemma article_list_cache_contract_witness :
  fetchNews config "AI business use cases" second_fails_world
    = (Ok (JArr [j1; j2; j3]), emit (loading config) second_fails_world)
  /\ fst (fetchNews config "AI business use cases" expired_world)
     = fst (fetchNews config "AI business use cases"
              (without_cache "AI business use cases" expired_world))
  /\ In (EvNews (first_request config "AI business use cases" (now expired_world)))
       (trace (snd (fetchNews config "AI business use cases" expired_world))).
Proof.
  split.
  - refine (proj2 (proj1 (article_list_cache_contract config "AI business use cases" second_fails_world)
                     (mkFile (print (JArr [j1; j2; j3])) 0) [j1; j2; j3] _ _ _ _) _);
      try (vm_compute; reflexivity).
    vm_compute. split; discriminate.
  - assert (Miss : cache_miss config "AI business use cases" expired_world).
    { apply (cache_expired config "AI business use cases" expired_world
               (mkFile (print (JArr [j1; j2; j3])) 0)).
      - vm_compute. reflexivity.
      - vm_compute. discriminate. }
    destruct (proj2 (article_list_cache_contract config "AI business use cases" expired_world) Miss)
      as (O & _ & Asked).
    split; [exact O | ]. apply Asked. vm_compute. discriminate.
Defined.

End Witness_for_the_cache.

Section Claims_on_exits_and_reports.

Context `{Platform}.
Variable CONFIG : Config.

Lemma fetch_pages_page_fails (topic fromDate : string) (page : Z) (later : list Z)
    (w : World) (l : Scout) (msg : string) :
  Z.of_nat (length (collectedArticles l)) < newsMaxRequests CONFIG ->
  news w (remote_history (trace w))
    (mkNews topic fromDate (newsBatchSize CONFIG) page (newsApiKey CONFIG)) = NewsFailed msg ->
  fetch_pages CONFIG topic fromDate (page :: later) (w, l)
  = (Ok tt,
     (emit (page_error page msg)
        (emit (EvNews (mkNews topic fromDate (newsBatchSize CONFIG) page (newsApiKey CONFIG)))
           (emit (fetching_page page) w)), l)).
Proof.
  intros N F. simpl. unfold bind at 1, collected_count, local. cbn [snd fst].
  apply Z.ltb_lt in N. rewrite N.
  unfold bind at 1, lift at 1, console_log at 1, modify at 1. cbn [snd fst].
  unfold bind at 1, try_catch at 1, bind at 1, lift at 1, axios_get at 1. cbn [snd fst emit trace news].
  rewrite remote_history_log, F. reflexivity.
Qed.

Lemma fetch_from_api_returns (topic p : string) (w w1 : World) (collected : list NewsArticle) :
  scout_pages CONFIG topic (now w) (emit (fetching CONFIG) w) = (Ok collected, w1) ->
  fetch_from_api CONFIG topic p w
  = match collected with
    | [] => (Throw no_articles, w1)
    | _ => (Ok collected, write_file p (JSON_stringify (JArr (map article_to_json collected))) w1)
    end.
Proof.
  intros S. unfold fetch_from_api.
  unfold bind at 1, console_log at 1, modify at 1. cbn [snd fst].
  unfold bind at 1, Date_now at 1. cbn [snd fst now emit].
  unfold bind at 1. unfold scout_pages in S. fold (fetching CONFIG). rewrite S.
  destruct collected; reflexivity.
Qed.

(** C9, as the code has it: [generateHTMLReport] makes no remote call and
    touches no file but the report; the document is [html_document] of the
    period read from the clock and of the rows rendered from the results alone;
    the function itself creates the reports directory when it is missing,
    writes the document to the report file and prints a line, and returns
    nothing. *)
Theorem report_effects (results : list AnalysisResult) (w : World) :
  let w' := snd (generateHTMLReport results w) in
  remote_history (trace w') = remote_history (trace w)
  /\ now w' = now w
  /\ (forall p, p <> report_path (now w) -> files w' !! p = files w !! p)
  /\ (forall rows,
        fst (render_rows results tt) = Ok rows ->
        generateHTMLReport results w
        = (Ok tt,
           emit (generated (now w))
             (write_file (report_path (now w)) (html_document (report_period (now w)) rows)
                (with_reports_dir w)))
        /\ files w' !! report_path (now w)
           = Some (mkFile (html_document (report_period (now w)) rows) (now w))
        /\ trace w' = trace (with_reports_dir w)
                        ++ [EvWrite (report_path (now w)) (html_document (report_period (now w)) rows);
                            generated (now w)]).
Proof.
  intros w'. subst w'. rewrite generateHTMLReport_run.
  assert (D : remote_history (trace (with_reports_dir w)) = remote_history (trace w)
              /\ now (with_reports_dir w) = now w
              /\ files (with_reports_dir w) = files w).
  { unfold with_reports_dir. destruct (exists_path REPORTS_DIR w); simpl; [auto | ].
    rewrite remote_history_snoc. simpl. rewrite app_nil_r. auto. }
  destruct D as (Dr & Dn & Df).
  destruct (fst (render_rows results tt)) as [rows | e | code]; simpl.
  - rewrite !remote_history_snoc. simpl. rewrite !app_nil_r, Dn, Df.
    split; [exact Dr | ]. split; [reflexivity | ]. split.
    + intros p NE. apply lookup_insert_ne. congruence.
    + intros rows' E. inversion E. subst rows'. split; [reflexivity | ]. split.
      * apply lookup_insert_eq.
      * rewrite <- app_assoc. reflexivity.
  - rewrite Df. split; [exact Dr | ]. split; [exact Dn | ]. split; [reflexivity | ].
    intros rows' E. discriminate.
  - rewrite Df. split; [exact Dr | ]. split; [exact Dn | ]. split; [reflexivity | ].
    intros rows' E. discriminate.
Qed.

End Claims_on_exits_and_reports.

Section Witnesses_for_the_reporter.

Import Demo.

(** The report on no result at all, in a world with nothing on disk: the
    function makes the directory, writes the file and prints a line; a day
    later the same results give another document in another file. *)
Lemma reporter_writes_the_file_itself :
  fst (generateHTMLReport [] (world ∅ 0 [] [])) = Ok tt
  /\ trace (snd (generateHTMLReport [] (world ∅ 0 [] [])))
     = [EvMkdir "/app/reports";
        EvWrite "/app/reports/report_day0.html" (html_document "day-7 to day0" EmptyString);
        EvLog "
✅ HTML Dashboard generated: /app/reports/report_day0.html"]
  /\ files (snd (generateHTMLReport [] (world ∅ 0 [] []))) !! "/app/reports/report_day0.html"
     = Some (mkFile (html_document "day-7 to day0" EmptyString) 0)
  /\ trace (snd (generateHTMLReport [] (world ∅ 86400000 [] [])))
     = [EvMkdir "/app/reports";
        EvWrite "/app/reports/report_day1.html" (html_document "day-6 to day1" EmptyString);
        EvLog "
✅ HTML Dashboard generated: /app/reports/report_day1.html"].
Proof. vm_compute. repeat split; reflexivity. Qed.

(** The report leaves the analysis cache as it was. *)
Lemma report_effects_witness :
  generateHTMLReport [] hit_world
    = (Ok tt,
       emit (generated 5000)
         (write_file (report_path 5000) (html_document (report_period 5000) EmptyString)
            (with_reports_dir hit_world)))
  /\ files (snd (generateHTMLReport [] hit_world)) !! analysis_path j1
     = files hit_world !! analysis_path j1.
Proof.
  split.
  - apply (proj2 (proj2 (proj2 (report_effects [] hit_world)))). reflexivity.
  - apply (proj1 (proj2 (proj2 (report_effects [] hit_world)))). vm_compute. discriminate.
Defined.

End Witnesses_for_the_reporter.

Lemma append_inv_head (a b c : string) : a +:+ b = a +:+ c -> b = c.
Proof.
  induction a as [ | x a IH]; simpl; intros E; [exact E | ].
  apply IH. inversion E. reflexivity.
Qed.

(** C3, as the code has it: the key is an MD5 digest of the article identity
    followed by the MD5 digest of the prompt, so two different prompt texts
    give one article the same key only through a collision of MD5, on the
    two prompts or on the two digested texts. *)
Theorem equal_keys_need_a_collision `{Platform} (article : JsValue) (P1 P2 : string) :
  P1 <> P2 ->
  analysis_key article P1 = analysis_key article P2 ->
  exists x y : string,
    x <> y /\ MD5.md5_hex x = MD5.md5_hex y
    /\ ((x = P1 /\ y = P2) \/ (x = key_text article P1 /\ y = key_text article P2)).
Proof.
  intros NE K.
  destruct (string_dec (MD5.md5_hex P1) (MD5.md5_hex P2)) as [Same | Diff].
  - exists P1, P2. auto.
  - exists (key_text article P1), (key_text article P2). split; [ | split].
    + intros E. apply Diff. unfold key_text in E. apply append_inv_head in E. exact E.
    + exact K.
    + right. auto.
Qed.

(** The two colliding texts as prompts of one article. *)
Lemma equal_keys_need_a_collision_witness :
  exists x y : string,
    x <> y /\ MD5.md5_hex x = MD5.md5_hex y
    /\ ((x = collision1 /\ y = collision2)
        \/ (x = key_text (H := Demo.platform) Demo.j1 collision1
            /\ y = key_text (H := Demo.platform) Demo.j1 collision2)).
Proof.
  apply (equal_keys_need_a_collision (H := Demo.platform) Demo.j1 collision1 collision2).
  - discriminate.
  - vm_compute. reflexivity.
Defined.

(** Two different prompt texts under which every article has the same cache
    key. *)
Lemma colliding_prompts_share_a_key :
  collision1 <> collision2
  /\ MD5.md5_hex collision1 = "faad49866e9498fc1719f5289e7a0269"
  /\ MD5.md5_hex collision2 = "faad49866e9498fc1719f5289e7a0269"
  /\ analysis_key (H := Demo.platform) Demo.j1 collision1
     = analysis_key (H := Demo.platform) Demo.j1 collision2
  /\ forall (P : Platform) (article : JsValue),
       analysis_key (H := P) article collision1 = analysis_key (H := P) article collision2.
Proof.
  assert (E : MD5.md5_hex collision1 = MD5.md5_hex collision2) by (vm_compute; reflexivity).
  split; [discriminate | ]. split; [vm_compute; reflexivity | ]. split; [vm_compute; reflexivity | ].
  split; intros; unfold analysis_key; rewrite E; reflexivity.
Qed.

(** ** The sanitizer *)

Section Removal.

Variable matcher : Chars.chars -> option nat.

(** Where the pattern matches at no position of [pre], the pass copies [pre]. *)
Lemma remove_all_before (pre rest : Chars.chars) :
  (forall l1 c l2, pre = l1 ++ c :: l2 -> matcher (c :: l2 ++ rest) = None) ->
  Chars.remove_all matcher 0 (pre ++ rest) = pre ++ Chars.remove_all matcher 0 rest.
Proof.
  induction pre as [ | c pre IH]; intros Hpre; [reflexivity | ].
  simpl. rewrite (Hpre [] c pre eq_refl). f_equal.
  apply IH. intros l1 c' l2 E. apply (Hpre (c :: l1)). rewrite E. reflexivity.
Qed.

Lemma remove_all_drop (l rest : Chars.chars) :
  Chars.remove_all matcher (length l) (l ++ rest) = Chars.remove_all matcher 0 rest.
Proof. induction l as [ | c l IH]; [reflexivity | exact IH]. Qed.

(** A match is dropped, and the pass goes on behind it. *)
Lemma remove_all_match (l rest : Chars.chars) :
  l <> [] -> matcher (l ++ rest) = Some (length l) ->
  Chars.remove_all matcher 0 (l ++ rest) = Chars.remove_all matcher 0 rest.
Proof.
  destruct l as [ | c l]; [contradiction | ]. intros _ E.
  simpl in *. rewrite E. apply remove_all_drop.
Qed.

(** A pass only removes characters. *)
Lemma remove_all_In (s : Chars.chars) :
  forall (skip : nat) (c : ascii), In c (Chars.remove_all matcher skip s) -> In c s.
Proof.
  induction s as [ | x s IH]; intros skip c; simpl; [auto | ].
  destruct skip as [ | k].
  - destruct (matcher (x :: s)) as [[ | k] | ]; simpl;
      first [intros [E | I]; [left; exact E | right; eapply IH; exact I]
            | intros I; right; eapply IH; exact I].
  - intros I. right. eapply IH. exact I.
Qed.

Lemma remove_all_nothing (s : Chars.chars) :
  (forall l1 c l2, s = l1 ++ c :: l2 -> matcher (c :: l2) = None) ->
  Chars.remove_all matcher 0 s = s.
Proof.
  intros Hs. rewrite <- (app_nil_r s) at 1. rewrite remove_all_before.
  - simpl. apply app_nil_r.
  - intros l1 c l2 E. rewrite app_nil_r. exact (Hs l1 c l2 E).
Qed.

Lemma remove_all_first_char (pre rest : Chars.chars) :
  (forall c, In c pre -> forall l, matcher (c :: l) = None) ->
  Chars.remove_all matcher 0 (pre ++ rest) = pre ++ Chars.remove_all matcher 0 rest.
Proof.
  intros Hpre. apply remove_all_before. intros l1 c l2 E. apply Hpre.
  rewrite E. apply in_or_app. right. left. reflexivity.
Qed.

End Removal.

(** ** Occurrences of a text in a concatenation *)

Section Occurrences.

Variable eqc : ascii -> ascii -> bool.

Lemma strip_prefix_differs (p s : Chars.chars) :
  differs eqc p s = true -> forall x, Chars.strip_prefix eqc p (s ++ x) = None.
Proof.
  revert s. induction p as [ | a p IH]; intros s D x; [discriminate | ].
  destruct s as [ | c s]; [discriminate | ]. simpl in *.
  destruct (eqc a c); [apply IH; exact D | reflexivity].
Qed.

(** Behind a text that ends apart from [p], only the rest counts. *)
Lemma occurs_app_end (p a b : Chars.chars) :
  ends_apart eqc p a = true -> occurs_in eqc p (a ++ b) = occurs_in eqc p b.
Proof.
  induction a as [ | c a IH]; intros E; [reflexivity | ].
  simpl in E. apply andb_prop in E. destruct E as [D E].
  change ((c :: a) ++ b) with (c :: a ++ b).
  unfold occurs_in; fold occurs_in.
  change (c :: a ++ b) with ((c :: a) ++ b).
  rewrite (strip_prefix_differs p (c :: a) D b). apply IH. exact E.
Qed.

(** An attempt to read [p] that fails in [s ++ x] fails in [s ++ y] too, when
    no end of [p] can be read at the start of [y]. *)
Lemma strip_prefix_continue (y x : Chars.chars) (s : Chars.chars) :
  forall p,
    (forall q1 q2, p = q1 ++ q2 -> q2 <> [] -> Chars.strip_prefix eqc q2 y = None) ->
    Chars.strip_prefix eqc p (s ++ x) = None ->
    Chars.strip_prefix eqc p (s ++ y) = None.
Proof.
  induction s as [ | c s IH]; intros p Hy Hx.
  - destruct p as [ | a p]; [discriminate | ]. apply (Hy [] (a :: p)); [reflexivity | discriminate].
  - destruct p as [ | a p]; [discriminate | ]. simpl in *.
    destruct (eqc a c); [ | reflexivity].
    apply IH; [ | exact Hx]. intros q1 q2 E. apply (Hy (a :: q1)). rewrite E. reflexivity.
Qed.

Lemma starts_apart_ends (p y : Chars.chars) :
  starts_apart eqc p y = true ->
  forall q1 q2, tl p = q1 ++ q2 -> q2 <> [] -> Chars.strip_prefix eqc q2 y = None.
Proof.
  intros A q1 q2 E NE. destruct q2 as [ | a q2]; [contradiction | ].
  destruct y as [ | c y]; [reflexivity | ]. simpl in *.
  rewrite forallb_forall in A.
  assert (I : In a (tl p)) by (rewrite E; apply in_or_app; right; left; reflexivity).
  specialize (A a I). destruct (eqc a c); [discriminate | reflexivity].
Qed.

Lemma strip_prefix_swap (p s x y : Chars.chars) :
  s <> [] -> starts_apart eqc p y = true ->
  Chars.strip_prefix eqc p (s ++ x) = None ->
  Chars.strip_prefix eqc p (s ++ y) = None.
Proof.
  intros NE A Hx. destruct s as [ | c s]; [contradiction | ].
  destruct p as [ | a p]; [discriminate | ]. simpl in *.
  destruct (eqc a c); [ | reflexivity].
  apply (strip_prefix_continue y x s p); [ | exact Hx].
  apply (starts_apart_ends (a :: p) y A).
Qed.

Lemma occurs_in_suffix (p l1 l2 : Chars.chars) :
  occurs_in eqc p (l1 ++ l2) = false -> occurs_in eqc p l2 = false.
Proof.
  induction l1 as [ | c l1 IH]; intros O; [exact O | ].
  apply IH. change ((c :: l1) ++ l2) with (c :: l1 ++ l2) in O.
  unfold occurs_in in O; fold occurs_in in O.
  destruct (Chars.strip_prefix eqc p (c :: l1 ++ l2)); [discriminate | exact O].
Qed.

Lemma occurs_in_here (p l : Chars.chars) :
  occurs_in eqc p l = false -> Chars.strip_prefix eqc p l = None.
Proof.
  intros O. destruct l; simpl in O;
    destruct (Chars.strip_prefix eqc p _); first [discriminate | reflexivity].
Qed.

Lemma strip_prefix_app (p : Chars.chars) :
  forall s l b, Chars.strip_prefix eqc p s = Some l ->
                Chars.strip_prefix eqc p (s ++ b) = Some (l ++ b).
Proof.
  induction p as [ | x p IH]; intros s l b E; simpl in *.
  - inversion E. reflexivity.
  - destruct s as [ | y s]; [discriminate | ]. simpl.
    destruct (eqc x y); [apply IH; exact E | discriminate].
Qed.

Lemma occurs_in_app_l (p a b : Chars.chars) :
  occurs_in eqc p a = true -> occurs_in eqc p (a ++ b) = true.
Proof.
  induction a as [ | c a IH]; intros O.
  - simpl in O. destruct p; [destruct b; reflexivity | discriminate].
  - unfold occurs_in in O; fold occurs_in in O.
    destruct (Chars.strip_prefix eqc p (c :: a)) eqn:Here.
    + apply (strip_prefix_app p (c :: a) l b) in Here.
      change ((c :: a) ++ b) with (c :: a ++ b) in *.
      unfold occurs_in; fold occurs_in. rewrite Here. reflexivity.
    + change ((c :: a) ++ b) with (c :: a ++ b).
      unfold occurs_in; fold occurs_in.
      destruct (Chars.strip_prefix eqc p (c :: a ++ b)); [reflexivity | apply IH; exact O].
Qed.

Lemma occurs_in_app_r (p a b : Chars.chars) :
  occurs_in eqc p b = true -> occurs_in eqc p (a ++ b) = true.
Proof.
  intros O. induction a as [ | c a IH]; [exact O | ].
  change ((c :: a) ++ b) with (c :: a ++ b).
  unfold occurs_in; fold occurs_in.
  destruct (Chars.strip_prefix eqc p (c :: a ++ b)); [reflexivity | exact IH].
Qed.

(** Two texts without [p], the second starting apart from [p], make a text
    without [p]. *)
Lemma occurs_app_start (p a b : Chars.chars) :
  occurs_in eqc p a = false -> occurs_in eqc p b = false ->
  starts_apart eqc p b = true ->
  occurs_in eqc p (a ++ b) = false.
Proof.
  intros Oa Ob A. induction a as [ | c a IH]; [exact Ob | ].
  pose proof (occurs_in_here _ _ Oa) as Here.
  pose proof (occurs_in_suffix p [c] a Oa) as Rest.
  change ((c :: a) ++ b) with (c :: a ++ b).
  unfold occurs_in; fold occurs_in.
  change (c :: a ++ b) with ((c :: a) ++ b).
  rewrite (strip_prefix_swap p (c :: a) [] b); [exact (IH Rest) | discriminate | exact A | ].
  rewrite app_nil_r. exact Here.
Qed.

End Occurrences.

(** ** The three passes of [sanitizeHtml] *)

Lemma of_string_app (a b : string) :
  Chars.of_string (a +:+ b) = Chars.of_string a ++ Chars.of_string b.
Proof.
  induction a as [ | c a IH]; simpl; [reflexivity | ].
  unfold Chars.of_string in *. simpl. f_equal. exact IH.
Qed.

Lemma of_to_string (l : Chars.chars) : Chars.of_string (Chars.to_string l) = l.
Proof. apply list_ascii_of_string_of_list_ascii. Qed.

Lemma eq_ci_lt (c : ascii) : Chars.eq_ci "<" c = true -> c = "<"%char.
Proof.
  destruct c as [[] [] [] [] [] [] [] []]; vm_compute; intros E;
    first [reflexivity | discriminate].
Qed.

Lemma eq_ci_j (c : ascii) : Chars.eq_ci "j" c = true -> c = "j"%char \/ c = "J"%char.
Proof.
  destruct c as [[] [] [] [] [] [] [] []]; vm_compute; intros E;
    first [left; reflexivity | right; reflexivity | discriminate].
Qed.

Lemma script_matcher_needs_tag (s : Chars.chars) :
  Chars.strip_prefix Chars.eq_ci (Chars.of_string "<script") s = None ->
  script_matcher s = None.
Proof. intros E. unfold script_matcher. rewrite E. reflexivity. Qed.

Lemma strip_prefix_first_char (eqc : ascii -> ascii -> bool) (a c : ascii) (p l : Chars.chars) :
  eqc a c = false -> Chars.strip_prefix eqc (a :: p) (c :: l) = None.
Proof. intros E. simpl. rewrite E. reflexivity. Qed.

Lemma not_lt (c : ascii) : c <> "<"%char -> Chars.eq_ci "<" c = false.
Proof.
  intros NE. destruct (Chars.eq_ci "<" c) eqn:E; [ | reflexivity].
  apply eq_ci_lt in E. contradiction.
Qed.

Lemma find_close_script (body rest : Chars.chars) :
  ~ In "<"%char body ->
  Chars.find_end Chars.eq_ci (Chars.of_string "</script>") (body ++ Chars.of_string "</script>" ++ rest)
  = Some (length body + 9)%nat.
Proof.
  induction body as [ | c body IH]; intros Free.
  - reflexivity.
  - change ((c :: body) ++ Chars.of_string "</script>" ++ rest)
      with (c :: (body ++ Chars.of_string "</script>" ++ rest)).
    unfold Chars.find_end; fold Chars.find_end.
    change (Chars.of_string "</script>") with ("<"%char :: Chars.of_string "/script>") at 1.
    rewrite strip_prefix_first_char.
    + rewrite IH; [reflexivity | ]. intros I. apply Free. right. exact I.
    + apply not_lt. intros E. apply Free. left. exact E.
Qed.

Lemma script_matcher_element (body rest : Chars.chars) :
  ~ In "<"%char body ->
  script_matcher ((Chars.of_string "<script>" ++ body ++ Chars.of_string "</script>") ++ rest)
  = Some (length (Chars.of_string "<script>" ++ body ++ Chars.of_string "</script>")).
Proof.
  intros Free. rewrite <- !app_assoc. unfold script_matcher.
  change (Chars.strip_prefix Chars.eq_ci (Chars.of_string "<script")
            (Chars.of_string "<script>" ++ body ++ Chars.of_string "</script>" ++ rest))
    with (Some (">"%char :: body ++ Chars.of_string "</script>" ++ rest)).
  cbn [Chars.is_word Chars.skip_past skipn].
  change (Chars.is_word ">") with false. cbn iota.
  change (Ascii.eqb ">" ">") with true. cbn iota. cbn [skipn].
  rewrite skipn_O, (find_close_script body rest Free).
  f_equal. rewrite !length_app. simpl. lia.
Qed.

(** The first pass on markup that has one script element, around text
    without [<], and no opening script tag elsewhere. *)
Lemma script_pass_element (pre body post : Chars.chars) :
  ~ In "<"%char body ->
  occurs_in Chars.eq_ci (Chars.of_string "<script") (pre ++ post) = false ->
  Chars.remove_all script_matcher 0
    (pre ++ (Chars.of_string "<script>" ++ body ++ Chars.of_string "</script>") ++ post)
  = pre ++ post
  /\ Chars.remove_all script_matcher 0 (pre ++ post) = pre ++ post.
Proof.
  intros Fbody Clean.
  assert (Plain : forall l1 c l2, pre ++ post = l1 ++ c :: l2 -> script_matcher (c :: l2) = None).
  { intros l1 c l2 E. apply script_matcher_needs_tag.
    rewrite E in Clean. apply occurs_in_suffix in Clean. apply occurs_in_here. exact Clean. }
  split; [ | apply remove_all_nothing; exact Plain].
  rewrite remove_all_before.
  - f_equal. rewrite remove_all_match.
    + apply remove_all_nothing. intros l1 c l2 E. apply (Plain (pre ++ l1)).
      rewrite E, <- app_assoc. reflexivity.
    + discriminate.
    + apply script_matcher_element. exact Fbody.
  - intros l1 c l2 E. apply script_matcher_needs_tag.
    change (c :: l2 ++ ?r) with ((c :: l2) ++ r).
    apply (strip_prefix_swap Chars.eq_ci _ (c :: l2) post); [discriminate | reflexivity | ].
    apply occurs_in_here. apply (occurs_in_suffix Chars.eq_ci _ l1).
    rewrite E in Clean. rewrite <- app_assoc in Clean. exact Clean.
Qed.

Lemma no_tag_without_lt (p l : Chars.chars) :
  ~ In "<"%char l -> occurs_in Chars.eq_ci ("<"%char :: p) l = false.
Proof.
  intros Free. induction l as [ | x l IH]; [reflexivity | ].
  unfold occurs_in; fold occurs_in. rewrite strip_prefix_first_char.
  - apply IH. intros I. apply Free. right. exact I.
  - apply not_lt. intros E. apply Free. left. exact E.
Qed.

Lemma javascript_matcher_start (c : ascii) (l : Chars.chars) :
  c <> "j"%char -> c <> "J"%char -> javascript_matcher (c :: l) = None.
Proof.
  intros N1 N2. unfold javascript_matcher.
  change (Chars.of_string "javascript:") with ("j"%char :: Chars.of_string "avascript:").
  cbn [Chars.strip_prefix].
  destruct (Chars.eq_ci "j" c) eqn:E; [ | reflexivity].
  apply eq_ci_j in E. tauto.
Qed.

Lemma handler_matcher_start (c : ascii) (l : Chars.chars) :
  c <> "o"%char -> handler_matcher (c :: l) = None.
Proof.
  intros NE. unfold handler_matcher.
  change (Chars.of_string "on") with ["o"%char; "n"%char]. cbn [Chars.strip_prefix].
  destruct (Ascii.eqb "o" c) eqn:E; [ | reflexivity].
  apply Ascii.eqb_eq in E. congruence.
Qed.

Lemma word_run_name (name rest : Chars.chars) :
  Forall (fun c => Chars.is_word c = true) name ->
  Chars.word_run (name ++ "="%char :: rest) = length name.
Proof.
  induction 1 as [ | c name W _ IH]; [reflexivity | ].
  simpl. rewrite W, IH. reflexivity.
Qed.

Lemma skip_past_value (stop : ascii) (value rest : Chars.chars) :
  ~ In stop value -> Chars.skip_past stop (value ++ stop :: rest) = Some (length value + 1)%nat.
Proof.
  induction value as [ | c value IH]; intros Free; simpl.
  - rewrite Ascii.eqb_refl. reflexivity.
  - destruct (Ascii.eqb c stop) eqn:E.
    + apply Ascii.eqb_eq in E. exfalso. apply Free. left. exact E.
    + rewrite IH; [reflexivity | ]. intros I. apply Free. right. exact I.
Qed.

(** The text of an attribute [on<name>="<value>"]. *)
Lemma handler_matcher_attribute (name value rest : Chars.chars) :
  name <> [] -> Forall (fun c => Chars.is_word c = true) name ->
  ~ In (ascii_of_N 34) value ->
  handler_matcher
    ((Chars.of_string "on" ++ name ++ Chars.of_string ("=" +:+ dq) ++ value ++ Chars.of_string dq)
       ++ rest)
  = Some (length (Chars.of_string "on" ++ name ++ Chars.of_string ("=" +:+ dq) ++ value
                    ++ Chars.of_string dq)).
Proof.
  intros NE W Free. rewrite <- !app_assoc. unfold handler_matcher.
  change (Chars.strip_prefix Ascii.eqb (Chars.of_string "on")
            (Chars.of_string "on" ++ name ++ Chars.of_string ("=" +:+ dq) ++ value
               ++ Chars.of_string dq ++ rest))
    with (Some (name ++ "="%char :: ascii_of_N 34 :: value ++ ascii_of_N 34 :: rest)).
  cbv iota beta.
  rewrite (word_run_name name _ W).
  destruct name as [ | c name]; [contradiction | ].
  cbn [length]. rewrite <- (length_cons c name), skipn_app, skipn_all, Nat.sub_diag.
  cbn [app skipn].
  change (Chars.strip_prefix Ascii.eqb (Chars.of_string ("=" +:+ dq))
            ("="%char :: ascii_of_N 34 :: value ++ ascii_of_N 34 :: rest))
    with (Some (value ++ ascii_of_N 34 :: rest)).
  cbv iota beta. rewrite (skip_past_value _ _ _ Free).
  f_equal. simpl. rewrite !length_app. simpl. rewrite !length_app. simpl. lia.
Qed.

(** ** The report *)

(** A text made of pieces: behind a constant piece that ends apart from the
    tag only the rest counts; a piece known to be free of the tag is followed
    by one that starts apart from it. *)
Ltac script_free_pieces :=
  repeat first
    [ rewrite (occurs_app_end Chars.eq_ci) by (vm_compute; reflexivity)
    | apply (occurs_app_start Chars.eq_ci); [assumption | | reflexivity] ];
  first [assumption | vm_compute; reflexivity].

Section Claim_on_the_sanitizer.

Context `{Platform}.

Lemma render_row_fields (res : AnalysisResult) (props : list (string * JsValue))
    (summary seller motive critique : string) :
  res_analysis res = Some (JObj props) ->
  assoc "summary" props = Some (JStr summary) ->
  assoc "seller_description" props = Some (JStr seller) ->
  assoc "hidden_motive" props = Some (JStr motive) ->
  assoc "critique" props = Some (JStr critique) ->
  render_row res tt
  = (Ok (row_html res
           (formatted_analysis (sanitizeHtml (marked_parse summary))
              (sanitizeHtml (marked_parse seller)) (sanitizeHtml (marked_parse motive))
              (sanitizeHtml (marked_parse critique)))
           (score_class (assoc "motive_score" props)) (badge_text (assoc "motive_score" props))),
     tt).
Proof.
  intros A S1 S2 S3 S4. unfold render_row, bind, get_prop, marked, ret.
  rewrite A, S1, S2, S3, S4. reflexivity.
Qed.

Lemma formatted_analysis_script_free (h1 h2 h3 h4 : string) :
  script_free h1 -> script_free h2 -> script_free h3 -> script_free h4 ->
  script_free (formatted_analysis h1 h2 h3 h4).
Proof.
  unfold script_free, occurs_ci, formatted_analysis. intros F1 F2 F3 F4.
  rewrite !of_string_app. script_free_pieces.
Qed.

Lemma score_class_script_free (motive_score : option JsValue) :
  script_free (score_class motive_score).
Proof.
  unfold score_class.
  destruct (at_least _ 8); [reflexivity | ]. destruct (at_least _ 4); reflexivity.
Qed.

Lemma row_html_script_free (res : AnalysisResult) (formattedAnalysis scoreClass badge : string) :
  script_free (text_of (res_title res)) -> script_free (text_of (res_source res)) ->
  script_free (text_of (res_url res)) ->
  script_free formattedAnalysis -> script_free scoreClass -> script_free badge ->
  script_free (row_html res formattedAnalysis scoreClass badge).
Proof.
  unfold script_free, occurs_ci, row_html. intros F1 F2 F3 F4 F5 F6.
  rewrite !of_string_app. script_free_pieces.
Qed.

Lemma html_document_script_free (periodString rows : string) :
  script_free periodString -> script_free rows ->
  script_free (html_document periodString rows).
Proof.
  unfold script_free, occurs_ci, html_document. intros F1 F2.
  rewrite !of_string_app. script_free_pieces.
Qed.

Lemma render_rows_script_free (results : list AnalysisResult) :
  Forall safe_result results ->
  exists rows : string,
    render_rows results tt = (Ok rows, tt)
    /\ script_free rows
    /\ starts_apart Chars.eq_ci (Chars.of_string "<script") (Chars.of_string rows) = true.
Proof.
  induction 1 as [ | res results Safe _ (rows & R & F & A)].
  - exists EmptyString. repeat split; reflexivity.
  - destruct Safe as [props s1 s2 s3 s4 An P1 P2 P3 P4 C1 C2 C3 C4 Ct Cs Cu Cb].
    eexists. simpl. unfold bind at 1.
    rewrite (render_row_fields res props s1 s2 s3 s4 An P1 P2 P3 P4).
    unfold bind at 1. rewrite R. split; [reflexivity | ]. split.
    + unfold script_free, occurs_ci. rewrite of_string_app.
      apply (occurs_app_start Chars.eq_ci); [ | exact F | exact A].
      apply row_html_script_free; try assumption.
      * apply formatted_analysis_script_free; assumption.
      * apply score_class_script_free.
    + reflexivity.
Qed.

(** What the sanitizer does achieve.  The report holds, for each of the
    four text fields, the output of [sanitizeHtml] on the rendered markup, and
    the template around them brings no script tag: a report whose results have
    sanitized fields, title, source, url and badge without [<script] has none.
    [sanitizeHtml] makes one left-to-right pass for each of its three
    patterns, in which a complete script element, an attribute [on...=...]
    and the text [javascript:] are removed where the pass meets them.  A
    script element around text without [<] is removed as if it were not
    there when the markup has no other opening script tag; when the markup has
    no other [<] at all, nothing of a script tag is left. *)
Lemma sanitized_report :
  (forall results periodString,
      Forall safe_result results -> script_free periodString ->
      exists rows : string,
        fst (render_rows results tt) = Ok rows
        /\ script_free (html_document periodString rows))
  /\ (forall res props summary seller motive critique,
        res_analysis res = Some (JObj props) ->
        assoc "summary" props = Some (JStr summary) ->
        assoc "seller_description" props = Some (JStr seller) ->
        assoc "hidden_motive" props = Some (JStr motive) ->
        assoc "critique" props = Some (JStr critique) ->
        render_row res tt
        = (Ok (row_html res
                 (formatted_analysis (sanitizeHtml (marked_parse summary))
                    (sanitizeHtml (marked_parse seller)) (sanitizeHtml (marked_parse motive))
                    (sanitizeHtml (marked_parse critique)))
                 (score_class (assoc "motive_score" props))
                 (badge_text (assoc "motive_score" props))),
           tt))
  /\ (forall pre body post : string,
        free_of "<" body -> script_free (pre +:+ post) ->
        sanitizeHtml (pre +:+ "<script>" +:+ body +:+ "</script>" +:+ post)
        = sanitizeHtml (pre +:+ post))
  /\ (forall pre body post : string,
        free_of "<" pre -> free_of "<" body -> free_of "<" post ->
        script_free (sanitizeHtml (pre +:+ "<script>" +:+ body +:+ "</script>" +:+ post)))
  /\ (forall pre name value post : Chars.chars,
        ~ In "o"%char pre ->
        name <> [] -> Forall (fun c => Chars.is_word c = true) name ->
        ~ In (ascii_of_N 34) value ->
        Chars.remove_all handler_matcher 0
          (pre ++ (Chars.of_string "on" ++ name ++ Chars.of_string ("=" +:+ dq) ++ value
                     ++ Chars.of_string dq) ++ post)
        = pre ++ Chars.remove_all handler_matcher 0 post)
  /\ (forall pre post : Chars.chars,
        ~ In "j"%char pre -> ~ In "J"%char pre ->
        Chars.remove_all javascript_matcher 0 (pre ++ Chars.of_string "javascript:" ++ post)
        = pre ++ Chars.remove_all javascript_matcher 0 post).
Proof.
  assert (Element : forall pre body post : string,
            free_of "<" body -> script_free (pre +:+ post) ->
            sanitizeHtml (pre +:+ "<script>" +:+ body +:+ "</script>" +:+ post)
            = sanitizeHtml (pre +:+ post)).
  { intros pre body post Fbody Clean. unfold free_of, script_free, occurs_ci in *.
    rewrite of_string_app in Clean.
    destruct (script_pass_element _ _ _ Fbody Clean) as [First Plain].
    unfold sanitizeHtml, sanitize_chars. rewrite !of_string_app.
    rewrite <- !app_assoc in First. rewrite First, Plain. reflexivity. }
  split; [ | split; [ | split; [ | split; [ | split]]]].
  - intros results periodString Safe Period.
    destruct (render_rows_script_free results Safe) as (rows & R & F & _).
    exists rows. rewrite R. split; [reflexivity | ].
    apply html_document_script_free; assumption.
  - intros. apply render_row_fields; assumption.
  - exact Element.
  - intros pre body post Fpre Fbody Fpost.
    assert (Free : ~ In "<"%char (Chars.of_string (pre +:+ post))).
    { rewrite of_string_app. intros I. apply in_app_or in I. unfold free_of in *. tauto. }
    rewrite Element; [ | exact Fbody | apply no_tag_without_lt; exact Free].
    unfold script_free, occurs_ci, sanitizeHtml, sanitize_chars. rewrite of_to_string.
    apply no_tag_without_lt. intros I.
    apply remove_all_In, remove_all_In, remove_all_In in I. contradiction.
  - intros pre name value post Fpre NE W Fvalue.
    rewrite remove_all_first_char.
    + f_equal. apply remove_all_match; [discriminate | ].
      apply handler_matcher_attribute; assumption.
    + intros c I l. apply handler_matcher_start. intros E. subst c. contradiction.
  - intros pre post F1 F2.
    rewrite remove_all_first_char.
    + reflexivity.
    + intros c I l. apply javascript_matcher_start; intros E; subst c; contradiction.
Qed.

End Claim_on_the_sanitizer.

Section Witnesses_for_the_sanitizer.

Import Demo.

(** A report on a result whose summary is the script element alone, and the
    sanitizer on the element inside plain text. *)
Lemma sanitized_report_witness :
  (exists rows : string,
     fst (render_rows [script_result] tt) = Ok rows
     /\ script_free (html_document "day-7 to day0" rows))
  /\ script_free (sanitizeHtml "Hello <script>alert(1)</script> world").
Proof.
  split.
  - apply (proj1 sanitized_report [script_result] "day-7 to day0").
    + constructor; [ | constructor].
      apply (safe script_result
               [("summary", JStr "<script>alert(1)</script>");
                ("seller_description", JStr "Cloud services");
                ("hidden_motive", JStr "Promotes its own platform"); ("motive_score", JNum 9);
                ("critique", JStr "Thin on evidence.")]
               "<script>alert(1)</script>" "Cloud services" "Promotes its own platform"
               "Thin on evidence."); vm_compute; reflexivity.
    + vm_compute. reflexivity.
  - apply (proj1 (proj2 (proj2 (proj2 (sanitized_report (H := platform))))) "Hello " "alert(1)" " world");
      unfold free_of; vm_compute; intuition discriminate.
Defined.

(** C8: results with the element [<script>alert(1)</script>] in an analysis
    field whose report has a script tag.  [sanitizeHtml] makes one pass over
    the text with a pattern that wants the end tag written [</script>]: it
    leaves a script tag that is not closed, a script element whose end tag
    has a blank before its [>], and the tags that the removal of an element
    puts together, so that a whole script element comes out of markup in
    which the element was nested in the pieces of another.  With a renderer
    that passes a line of raw HTML through, these are in the report; and with
    any renderer, a script element in the title of a result is in the report
    as it is. *)
Lemma script_survives_the_sanitizer :
  sanitizeHtml "<script>alert(1)</script><script>alert(2)" = "<script>alert(2)"
  /\ sanitizeHtml "<script>alert(1)</script><script>alert(2)</script >" = "<script>alert(2)</script >"
  /\ sanitizeHtml "<scr<script>alert(1)</script>ipt>" = "<script>"
  /\ sanitizeHtml "<scr<script>alert(1)</script>ipt>alert(2)</scr<script>alert(1)</script>ipt>"
     = "<script>alert(2)</script>"
  /\ occurs "<script>alert(1)</script>" "<script>alert(1)</script><script>alert(2)" = true
  /\ (exists rows : string,
        fst (render_rows [unsafe_result] tt) = Ok rows
        /\ occurs "<script>" (html_document "day-7 to day0" rows) = true)
  /\ (exists rows : string,
        fst (render_rows [blank_result] tt) = Ok rows
        /\ occurs "<script>alert(2)</script >" (html_document "day-7 to day0" rows) = true)
  /\ forall (P : Platform) (periodString : string),
       exists rows : string,
         fst (render_rows (H := P) [script_title_result] tt) = Ok rows
         /\ occurs "<script>" (html_document periodString rows) = true.
Proof.
  split; [vm_compute; reflexivity | ]. split; [vm_compute; reflexivity | ].
  split; [vm_compute; reflexivity | ]. split; [vm_compute; reflexivity | ].
  split; [vm_compute; reflexivity | ]. split; [ | split].
  - eexists. split; vm_compute; reflexivity.
  - eexists. split; vm_compute; reflexivity.
  - intros P periodString. eexists. split.
    + cbn [render_rows]. unfold bind at 1.
      rewrite (render_row_fields script_title_result
                 [("summary", JStr "<script>alert(1)</script>");
                  ("seller_description", JStr "Cloud services");
                  ("hidden_motive", JStr "Promotes its own platform"); ("motive_score", JNum 9);
                  ("critique", JStr "Thin on evidence.")]
                 "<script>alert(1)</script>" "Cloud services" "Promotes its own platform"
                 "Thin on evidence.") by reflexivity.
      reflexivity.
    + unfold occurs, html_document, row_html. rewrite !of_string_app.
      repeat first
        [ apply (occurs_in_app_l Ascii.eqb); vm_compute; reflexivity
        | apply (occurs_in_app_r Ascii.eqb) ].
Qed.

End Witnesses_for_the_sanitizer.
(** ** The digest on known inputs *)

Example md5_empty : MD5.md5_hex EmptyString = "d41d8cd98f00b204e9800998ecf8427e".
Proof. vm_compute. reflexivity. Qed.

Example md5_abc : MD5.md5_hex "abc" = "900150983cd24fb0d6963f7d28e17f72".
Proof. vm_compute. reflexivity. Qed.

Example md5_two_blocks :
  MD5.md5_hex "12345678901234567890123456789012345678901234567890123456789012345678901234567890"
  = "57edf4a22be3c955ac49da2e2107b67a".
Proof. vm_compute. reflexivity. Qed.
(** ** The trace accounts for every change of the world *)

Lemma replay_app (l1 l2 : list Event) (w : World) :
  replay (l1 ++ l2) w = replay l2 (replay l1 w).
Proof. unfold replay. apply fold_left_app. Qed.

Lemma does_refl (P : Event -> Prop) (w : World) : does P w w.
Proof. exists []. split; [constructor | reflexivity]. Qed.

Lemma does_trans (P : Event -> Prop) (a b c : World) : does P a b -> does P b c -> does P a c.
Proof.
  intros (l1 & F1 & E1) (l2 & F2 & E2). exists (l1 ++ l2). split.
  - apply Forall_app. split; assumption.
  - rewrite replay_app, <- E1. exact E2.
Qed.

Lemma does_one (P : Event -> Prop) (e : Event) (w : World) : P e -> does P w (perform e w).
Proof. intros Pe. exists [e]. split; [constructor; [exact Pe | constructor] | reflexivity]. Qed.

Lemma does_weaken (P Q : Event -> Prop) (w w' : World) :
  (forall e, P e -> Q e) -> does P w w' -> does Q w w'.
Proof.
  intros PQ (l & F & E). exists l. split; [ | exact E].
  eapply Forall_impl; [exact F | exact PQ].
Qed.

Lemma perform_trace (e : Event) (w : World) : trace (perform e w) = trace w ++ [e].
Proof. destruct e; reflexivity. Qed.

Lemma replay_trace (events : list Event) :
  forall w, trace (replay events w) = trace w ++ events.
Proof.
  induction events as [ | e events IH]; intros w; simpl.
  - symmetry. apply app_nil_r.
  - change (trace (replay events (perform e w)) = trace w ++ e :: events).
    rewrite IH, perform_trace, <- app_assoc. reflexivity.
Qed.

Lemma replay_services (events : list Event) :
  forall w, chat (replay events w) = chat w /\ news (replay events w) = news w.
Proof.
  induction events as [ | e events IH]; intros w; [split; reflexivity | ].
  change (replay (e :: events) w) with (replay events (perform e w)).
  destruct (IH (perform e w)) as [C N]. rewrite C, N. destruct e; split; reflexivity.
Qed.

(** Without a pause the clock stands still. *)
Lemma replay_now (events : list Event) :
  Forall (fun e => forall ms, e <> EvSleep ms) events ->
  forall w, now (replay events w) = now w.
Proof.
  induction 1 as [ | e events Pe _ IH]; intros w; [reflexivity | ].
  change (replay (e :: events) w) with (replay events (perform e w)).
  rewrite IH. destruct e as [r | r | ms | q | q c0 | t | t d]; try reflexivity.
  exfalso. exact (Pe ms eq_refl).
Qed.

(** A file that is not written stays as it is. *)
Lemma replay_files (p : string) (events : list Event) :
  Forall (fun e => forall c, e <> EvWrite p c) events ->
  forall w, files (replay events w) !! p = files w !! p.
Proof.
  induction 1 as [ | e events Pe _ IH]; intros w; [reflexivity | ].
  change (replay (e :: events) w) with (replay events (perform e w)).
  rewrite IH. destruct e as [r | r | ms | q | q c0 | t | t d]; try reflexivity. simpl.
  apply lookup_insert_ne. intros E. subst. exact (Pe c0 eq_refl).
Qed.

Lemma replay_talk (events : list Event) :
  Forall talk events ->
  forall w, files (replay events w) = files w /\ dirs (replay events w) = dirs w
            /\ now (replay events w) = now w.
Proof.
  induction 1 as [ | e events Pe _ IH]; intros w; [repeat split; reflexivity | ].
  change (replay (e :: events) w) with (replay events (perform e w)).
  destruct (IH (perform e w)) as (F & D & N). rewrite F, D, N.
  destruct e; try contradiction; repeat split; reflexivity.
Qed.

Lemma chat_requests_app (a b : list Event) :
  chat_requests (a ++ b) = chat_requests a ++ chat_requests b.
Proof. unfold chat_requests. apply flat_map_app. Qed.

Lemma news_requests_app (a b : list Event) :
  news_requests (a ++ b) = news_requests a ++ news_requests b.
Proof. unfold news_requests. apply flat_map_app. Qed.

Lemma does_no_news (P : Event -> Prop) (w w' : World) :
  (forall e, P e -> forall req, e <> EvNews req) ->
  does P w w' -> news_requests (trace w') = news_requests (trace w).
Proof.
  intros No (l & F & E). subst w'. rewrite replay_trace, news_requests_app.
  rewrite <- (app_nil_r (news_requests (trace w))) at 2. f_equal.
  induction F as [ | e events Pe _ IH]; [reflexivity | ].
  simpl. rewrite IH. destruct e as [r | r | ms | q | q c0 | t | t d]; try reflexivity.
  exfalso. exact (No _ Pe r eq_refl).
Qed.

Lemma does_no_chat (P : Event -> Prop) (w w' : World) :
  (forall e, P e -> forall req, e <> EvChat req) ->
  does P w w' -> chat_requests (trace w') = chat_requests (trace w).
Proof.
  intros No (l & F & E). subst w'. rewrite replay_trace, chat_requests_app.
  rewrite <- (app_nil_r (chat_requests (trace w))) at 2. f_equal.
  induction F as [ | e events Pe _ IH]; [reflexivity | ].
  simpl. rewrite IH. destruct e as [r | r | ms | q | q c0 | t | t d]; try reflexivity.
  exfalso. exact (No _ Pe r eq_refl).
Qed.

Lemma does_talk (w w' : World) :
  does talk w w' -> files w' = files w /\ dirs w' = dirs w /\ now w' = now w.
Proof. intros (l & F & E). subst w'. apply replay_talk. exact F. Qed.

Lemma chatter_no_news (e : Event) : chatter e -> forall req, e <> EvNews req.
Proof. destruct e; simpl; intros C r; try discriminate. contradiction. Qed.

Lemma chatter_talk (e : Event) : chatter e -> talk e.
Proof. destruct e; simpl; tauto. Qed.

(** The operations on the world, as events. *)
Section Does.

Variable P : Event -> Prop.

Lemma does_console_log (text : string) : P (EvLog text) -> keeps (does P) (console_log text).
Proof. intros Pe w. apply (does_one P (EvLog text)). exact Pe. Qed.

Lemma does_console_error (text detail : string) :
  P (EvError text detail) -> keeps (does P) (console_error text detail).
Proof. intros Pe w. apply (does_one P (EvError text detail)). exact Pe. Qed.

Lemma does_chat_create (req : ChatRequest) : P (EvChat req) -> keeps (does P) (chat_create req).
Proof.
  intros Pe w. unfold chat_create.
  destruct (chat w _ _); apply (does_one P (EvChat req)); exact Pe.
Qed.

Lemma does_axios_get (req : NewsRequest) : P (EvNews req) -> keeps (does P) (axios_get req).
Proof.
  intros Pe w. unfold axios_get.
  destruct (news w _ _); apply (does_one P (EvNews req)); exact Pe.
Qed.

Lemma does_write (p c : string) : P (EvWrite p c) -> keeps (does P) (fs_writeFileSync p c).
Proof. intros Pe w. apply (does_one P (EvWrite p c)). exact Pe. Qed.

Lemma does_mkdir (p : string) : P (EvMkdir p) -> keeps (does P) (fs_mkdirSync p).
Proof. intros Pe w. apply (does_one P (EvMkdir p)). exact Pe. Qed.

Lemma does_sleep (ms : Z) : P (EvSleep ms) -> keeps (does P) (sleep ms).
Proof. intros Pe w. apply (does_one P (EvSleep ms)). exact Pe. Qed.

Lemma does_Date_now : keeps (does P) Date_now.
Proof. intros w. apply does_refl. Qed.

Lemma does_existsSync (p : string) : keeps (does P) (fs_existsSync p).
Proof. intros w. apply does_refl. Qed.

Lemma does_readFileSync (p : string) : keeps (does P) (fs_readFileSync p).
Proof. intros w. unfold fs_readFileSync. destruct (files w !! p); apply does_refl. Qed.

Lemma does_statSync (p : string) : keeps (does P) (fs_statSync p).
Proof. intros w. unfold fs_statSync. destruct (files w !! p); apply does_refl. Qed.

Lemma does_exit {A} (code : Z) : keeps (does P) (exit (A := A) code).
Proof. intros w. apply does_refl. Qed.

Lemma does_pure {A} (m : M unit A) : keeps (does P) (pure m).
Proof. intros w. apply does_refl. Qed.

End Does.

(** Proof steps: the events of a computation made of the combinators all
    satisfy a predicate, once the events of its operations do. *)
Ltac account_step P :=
  lazymatch goal with
  | |- keeps (does _) (bind _ _) => apply (keeps_bind (does P) (does_trans P)); [ | intros ? ]
  | |- keeps (does _) (try_catch _ _) =>
      apply (keeps_try_catch (does P) (does_trans P)); [ | intros ? ]
  | |- keeps (does _) (ret _) => apply (keeps_ret (does P) (does_refl P))
  | |- keeps (does _) (throw _) => apply (keeps_throw (does P) (does_refl P))
  | |- keeps (does _) (exit _) => apply does_exit
  | |- keeps (does _) (pure _) => apply does_pure
  | |- keeps (on_world (does _)) (bind _ _) =>
      apply (keeps_bind (on_world (does P)) (on_world_trans (does P) (does_trans P)));
      [ | intros ? ]
  | |- keeps (on_world (does _)) (try_catch _ _) =>
      apply (keeps_try_catch (on_world (does P)) (on_world_trans (does P) (does_trans P)));
      [ | intros ? ]
  | |- keeps (on_world (does _)) (ret _) =>
      apply (keeps_ret (on_world (does P)) (on_world_refl (does P) (does_refl P)))
  | |- keeps (on_world (does _)) (throw _) =>
      apply (keeps_throw (on_world (does P)) (on_world_refl (does P) (does_refl P)))
  | |- keeps (on_world (does _)) (exit _) =>
      intros ?; apply (on_world_refl (does P) (does_refl P))
  | |- keeps (on_world (does _)) (lift _) => apply (keeps_lift (does P))
  | |- keeps (on_world (does _)) (local _) => apply (keeps_local (does P) (does_refl P))
  | |- keeps (on_world (does _)) (set_local _) => apply (keeps_set_local (does P) (does_refl P))
  | |- keeps (on_world (does _)) collected_count => apply (keeps_local (does P) (does_refl P))
  | |- keeps (does _) (with_locals _ _) => apply (keeps_with_locals (does P))
  | |- keeps (does _) (console_log _) => apply does_console_log
  | |- keeps (does _) (console_error _ _) => apply does_console_error
  | |- keeps (does _) (chat_create _) => apply does_chat_create
  | |- keeps (does _) (axios_get _) => apply does_axios_get
  | |- keeps (does _) (fs_writeFileSync _ _) => apply does_write
  | |- keeps (does _) (fs_mkdirSync _) => apply does_mkdir
  | |- keeps (does _) (sleep _) => apply does_sleep
  | |- keeps (does _) Date_now => apply does_Date_now
  | |- keeps (does _) (fs_existsSync _) => apply does_existsSync
  | |- keeps (does _) (fs_readFileSync _) => apply does_readFileSync
  | |- keeps (does _) (fs_statSync _) => apply does_statSync
  | |- keeps (does _) (first_content _) =>
      apply (stateless_keeps (does P) _ (does_refl P)), stateless_first_content
  | |- keeps (does _) (json_parse _) =>
      apply (stateless_keeps (does P) _ (does_refl P)), stateless_json_parse
  | |- keeps (does _) (get_prop _ _) =>
      apply (stateless_keeps (does P) _ (does_refl P)), stateless_get_prop
  | |- keeps (on_world (does _)) (get_prop _ _) =>
      apply (stateless_keeps (on_world (does P)) _ (on_world_refl (does P) (does_refl P))),
        stateless_get_prop
  | |- keeps (on_world (does _)) (array_entries _) =>
      apply (stateless_keeps (on_world (does P)) _ (on_world_refl (does P) (does_refl P))),
        stateless_array_entries
  | |- keeps _ (if ?b then _ else _) => destruct b
  end.

Ltac account P := repeat account_step P; try assumption; try exact I.

(** ** The Gatekeeper and the Scout, step by step *)

Section Scout_runs.

Context `{Platform}.
Variable CONFIG : Config.

Lemma validateRelevance_world (article : NewsArticle) (w : World) :
  validateRelevance CONFIG article w
  = (Ok (verdict (chat w (remote_history (trace w)) (gatekeeper_request CONFIG article))),
     match caught (chat w (remote_history (trace w)) (gatekeeper_request CONFIG article)) with
     | Some e => emit (gatekeeper_error article e) (emit (EvChat (gatekeeper_request CONFIG article)) w)
     | None => emit (EvChat (gatekeeper_request CONFIG article)) w
     end).
Proof.
  unfold validateRelevance, try_catch, bind, chat_create, verdict, caught.
  destruct (chat w _ _) as [msg | [ | c rest]]; try reflexivity.
  cbn [fst snd first_content ret]. unfold json_parse.
  destruct (JSON_parse (or_else c "{}")) as [v | msg]; [ | reflexivity].
  destruct v; reflexivity.
Qed.

Lemma caught_unusable (answer : ChatResponse) :
  unusable answer <-> exists e, caught answer = Some e.
Proof.
  split.
  - intros [msg | | c rest msg P | c rest P]; simpl; try rewrite P; eauto.
  - intros [e E]. destruct answer as [msg | [ | c rest]];
      [apply call_failed | apply no_choices | ].
    simpl in E. destruct (JSON_parse (or_else c "{}")) as [v | msg] eqn:P.
    + destruct v; try discriminate. apply null_value. exact P.
    + eapply parse_error. exact P.
Qed.

Lemma caught_verdict (answer : ChatResponse) (e : JsError) :
  caught answer = Some e -> verdict answer = false.
Proof.
  destruct answer as [msg | [ | c rest]]; try reflexivity. simpl.
  destruct (JSON_parse (or_else c "{}")) as [v | msg]; [ | reflexivity].
  destruct v; try reflexivity. discriminate.
Qed.

Lemma validateRelevance_chatter (article : NewsArticle) (w : World) :
  does chatter w (snd (validateRelevance CONFIG article w)).
Proof.
  rewrite validateRelevance_world. cbn [snd].
  destruct (caught _) as [e | ].
  - exists [EvChat (gatekeeper_request CONFIG article); gatekeeper_error article e].
    split; [repeat constructor | reflexivity].
  - exists [EvChat (gatekeeper_request CONFIG article)].
    split; [repeat constructor | reflexivity].
Qed.


Lemma scan_articles_step (a : RawArticle) (rest : list RawArticle) (w : World) (l : Scout) :
  scan_articles CONFIG (a :: rest) (w, l)
  = if newsMaxRequests CONFIG <=? Z.of_nat (length (collectedArticles l)) then (Ok tt, (w, l))
    else if bool_decide (raw_url a ∈ seenUrls l) then scan_articles CONFIG rest (w, l)
    else match raw_source a with
         | None => (Throw no_source, (w, add_url (raw_url a) l))
         | Some name =>
             let article := article_of a name in
             let w' := snd (validateRelevance CONFIG article w) in
             if verdict (chat w (remote_history (trace w)) (gatekeeper_request CONFIG article))
             then scan_articles CONFIG rest
                    (emit (relevant_line article) w', push_article article (add_url (raw_url a) l))
             else scan_articles CONFIG rest (emit (skipped_line article) w', add_url (raw_url a) l)
         end.
Proof.
  cbn [scan_articles]. unfold bind at 1, collected_count, local. cbn [fst snd].
  destruct (newsMaxRequests CONFIG <=? Z.of_nat (length (collectedArticles l))); [reflexivity | ].
  unfold bind at 1. cbn [fst snd].
  destruct (bool_decide (raw_url a ∈ seenUrls l)); [reflexivity | ].
  unfold bind at 1, set_local at 1. cbn [fst snd].
  destruct (raw_source a) as [name | ]; [ | reflexivity].
  unfold bind at 1, ret at 1. unfold bind at 1, lift at 1. cbn [fst snd].
  fold (article_of a name).
  rewrite validateRelevance_world. cbv zeta. cbn [snd].
  destruct (verdict _).
  - unfold bind at 1, bind at 1, lift at 1, console_log at 1, modify at 1. cbn [fst snd].
    unfold set_local at 1. cbn [fst snd]. reflexivity.
  - unfold bind at 1, lift at 1, console_log at 1, modify at 1. cbn [fst snd]. reflexivity.
Qed.

(** The scan of a page ends normally or on an article without a source. *)
Lemma scan_articles_outcome (articles : list RawArticle) :
  forall s, fst (scan_articles CONFIG articles s) = Ok tt
            \/ fst (scan_articles CONFIG articles s) = Throw no_source.
Proof.
  induction articles as [ | a rest IH]; intros [w l]; [left; reflexivity | ].
  rewrite scan_articles_step.
  destruct (newsMaxRequests CONFIG <=? _); [left; reflexivity | ].
  destruct (bool_decide _); [apply IH | ].
  destruct (raw_source a) as [name | ]; [ | right; reflexivity].
  cbv zeta. destruct (verdict _); apply IH.
Qed.

Lemma fetch_pages_step (topic fromDate : string) (page : Z) (later : list Z) (w : World) (l : Scout) :
  let req := mkNews topic fromDate (newsBatchSize CONFIG) page (newsApiKey CONFIG) in
  let w1 := emit (EvNews req) (emit (fetching_page page) w) in
  fetch_pages CONFIG topic fromDate (page :: later) (w, l)
  = if Z.of_nat (length (collectedArticles l)) <? newsMaxRequests CONFIG then
      match news w (remote_history (trace w)) req with
      | NewsFailed msg => (Ok tt, (emit (page_error page msg) w1, l))
      | NewsData None | NewsData (Some []) => (Ok tt, (emit no_more_articles w1, l))
      | NewsData (Some found) =>
          match scan_articles CONFIG found (w1, l) with
          | (Ok _, s) => fetch_pages CONFIG topic fromDate later s
          | (Throw e, s) => (Ok tt, (emit (page_error page (message e)) (fst s), snd s))
          | (Exit code, s) => (Exit code, s)
          end
      end
    else (Ok tt, (w, l)).
Proof.
  intros req w1. cbn [fetch_pages].
  unfold bind at 1, collected_count, local. cbn [fst snd].
  destruct (Z.of_nat (length (collectedArticles l)) <? newsMaxRequests CONFIG); [ | reflexivity].
  unfold bind at 1, lift at 1, console_log at 1, modify at 1. cbn [fst snd].
  unfold bind at 1, try_catch at 1, bind at 1, lift at 1, axios_get at 1.
  cbn [fst snd emit trace news]. rewrite remote_history_log.
  fold (fetching_page page). fold req. fold w1.
  destruct (news w (remote_history (trace w)) req) as [msg | [[ | a found] | ]]; try reflexivity.
  unfold bind.
  destruct (scan_articles CONFIG (a :: found) (w1, l)) as [[[] | e | code] [w2 l2]]; reflexivity.
Qed.

Lemma fetch_pages_ok (topic fromDate : string) (pages : list Z) :
  forall s, fst (fetch_pages CONFIG topic fromDate pages s) = Ok tt.
Proof.
  induction pages as [ | page later IH]; intros [w l]; [reflexivity | ].
  rewrite fetch_pages_step. cbv zeta.
  destruct (_ <? _); [ | reflexivity].
  destruct (news w _ _) as [msg | [[ | a found] | ]]; try reflexivity.
  destruct (scan_articles_outcome (a :: found)
              (emit (EvNews (mkNews topic fromDate (newsBatchSize CONFIG) page (newsApiKey CONFIG)))
                 (emit (fetching_page page) w), l)) as [O | O];
    destruct (scan_articles CONFIG (a :: found) _) as [o s]; simpl in O; subst o.
  - apply IH.
  - reflexivity.
Qed.

Lemma scout_pages_ok (topic : string) (t : Z) (w : World) :
  exists collected, fst (scout_pages CONFIG topic t w) = Ok collected.
Proof.
  unfold scout_pages, with_locals, bind.
  pose proof (fetch_pages_ok topic (before_T (toISOString (Date_minus_days t 7))) page_numbers
                (w, mkScout [] ∅)) as O.
  destruct (fetch_pages CONFIG topic _ page_numbers (w, mkScout [] ∅)) as [o [w' l']].
  simpl in O. subst o. simpl. eauto.
Qed.

End Scout_runs.

Section Scout_invariants.

Context `{Platform}.
Variable CONFIG : Config.

Lemma validateRelevance_does (article : NewsArticle) :
  keeps (does chatter) (validateRelevance CONFIG article).
Proof. intros w. apply validateRelevance_chatter. Qed.

Lemma scan_articles_does (articles : list RawArticle) :
  keeps (on_world (does chatter)) (scan_articles CONFIG articles).
Proof.
  induction articles as [ | a rest IH]; simpl; account chatter;
    first [apply validateRelevance_does | destruct (raw_source a); account chatter].
Qed.

Lemma fetch_pages_does (topic fromDate : string) (pages : list Z) :
  keeps (on_world (does talk)) (fetch_pages CONFIG topic fromDate pages).
Proof.
  induction pages as [ | page later IH]; simpl; account talk.
  match goal with |- context [match ?x with _ => _ end] => destruct x as [[ | ] | ] end; account talk.
  intros s. eapply does_weaken; [exact chatter_talk | apply scan_articles_does].
Qed.

Lemma fetch_from_api_does (topic : string) :
  keeps (does (scout_event topic)) (fetch_from_api CONFIG topic (cache_path topic)).
Proof.
  unfold fetch_from_api. account (scout_event topic); try reflexivity.
  intros s. eapply does_weaken; [ | apply fetch_pages_does].
  intros e. destruct e; simpl; tauto.
Qed.

Lemma approved_later (P : Event -> Prop) (a : NewsArticle) (w w' : World) :
  does P w w' -> approved CONFIG a w -> approved CONFIG a w'.
Proof.
  intros (l & _ & E) (before & after & T & V). exists before, (after ++ l). subst w'.
  rewrite replay_trace, T. split.
  - rewrite <- app_assoc. reflexivity.
  - destruct (replay_services l w) as [C _]. rewrite C. exact V.
Qed.

Lemma scout_invariant_later (P : Event -> Prop) (w w' : World) (l : Scout) :
  does P w w' -> scout_invariant CONFIG (w, l) -> scout_invariant CONFIG (w', l).
Proof.
  intros D (B & N & S & A). repeat split; try assumption.
  intros a I. apply (approved_later P a w w' D). apply A. exact I.
Qed.

Lemma scout_invariant_seen (u : string) (w : World) (l : Scout) :
  scout_invariant CONFIG (w, l) -> scout_invariant CONFIG (w, add_url u l).
Proof.
  intros (B & N & S & A). repeat split; try assumption.
  intros a I. simpl. apply elem_of_union. right. apply S. exact I.
Qed.

Lemma verdict_not_caught (answer : ChatResponse) : verdict answer = true -> caught answer = None.
Proof.
  intros V. destruct (caught answer) as [e | ] eqn:C; [ | reflexivity].
  rewrite (caught_verdict answer e C) in V. discriminate.
Qed.

Lemma scan_articles_invariant (articles : list RawArticle) :
  forall s, scout_invariant CONFIG s -> scout_invariant CONFIG (snd (scan_articles CONFIG articles s)).
Proof.
  induction articles as [ | a rest IH]; intros [w l] Inv; [exact Inv | ].
  rewrite scan_articles_step.
  destruct (newsMaxRequests CONFIG <=? Z.of_nat (length (collectedArticles l))) eqn:Full; [exact Inv | ].
  destruct (bool_decide (raw_url a ∈ seenUrls l)) eqn:Seen; [apply IH; exact Inv | ].
  destruct (raw_source a) as [name | ]; [ | apply scout_invariant_seen; exact Inv].
  cbv zeta.
  destruct (verdict _) eqn:V.
  - apply IH. rewrite validateRelevance_world, (verdict_not_caught _ V). cbn [snd].
    apply Z.leb_gt in Full. apply bool_decide_eq_false in Seen.
    destruct Inv as (B & N & S & A). simpl in *. repeat split; simpl.
    + rewrite length_app. simpl. lia.
    + rewrite map_app. apply NoDup_app. split; [exact N | ]. split.
      * intros u Iu Eu. apply list_elem_of_singleton in Eu. simpl in Eu. subst u. apply Seen.
        apply list_elem_of_In, in_map_iff in Iu. destruct Iu as (a' & E & I').
        rewrite <- E. apply S. exact I'.
      * apply NoDup_cons. split; [ | constructor]. intros In0. inversion In0.
    + intros a' I'. apply in_app_or in I'. destruct I' as [I' | [E | []]].
      * apply elem_of_union. right. apply S. exact I'.
      * subst a'. apply elem_of_union. left. apply elem_of_singleton. reflexivity.
    + intros a' I'. apply in_app_or in I'. destruct I' as [I' | [E | []]].
      * apply (approved_later (fun _ => True) a' w).
        -- exists [EvChat (gatekeeper_request CONFIG (article_of a name));
                   relevant_line (article_of a name)].
           split; [repeat constructor | reflexivity].
        -- apply A. exact I'.
      * subst a'. exists (trace w), []. split; [ | exact V].
        simpl. rewrite <- app_assoc. reflexivity.
  - apply IH. apply (scout_invariant_later (fun _ => True) w).
    + apply (does_trans _ _ (snd (validateRelevance CONFIG (article_of a name) w))).
      * eapply does_weaken; [ | apply validateRelevance_chatter]. auto.
      * apply (does_one (fun _ => True) (skipped_line (article_of a name))). exact I.
    + apply scout_invariant_seen. exact Inv.
Qed.

Lemma fetch_pages_invariant (topic fromDate : string) (pages : list Z) :
  forall s, scout_invariant CONFIG s ->
            scout_invariant CONFIG (snd (fetch_pages CONFIG topic fromDate pages s)).
Proof.
  induction pages as [ | page later IH]; intros [w l] Inv; [exact Inv | ].
  rewrite fetch_pages_step. cbv zeta.
  destruct (_ <? _); [ | exact Inv].
  assert (Asked : scout_invariant CONFIG
            (emit (EvNews (mkNews topic fromDate (newsBatchSize CONFIG) page (newsApiKey CONFIG)))
               (emit (fetching_page page) w), l)).
  { apply (scout_invariant_later (fun _ => True) w); [ | exact Inv].
    exists [fetching_page page;
            EvNews (mkNews topic fromDate (newsBatchSize CONFIG) page (newsApiKey CONFIG))].
    split; [repeat constructor | reflexivity]. }
  destruct (news w _ _) as [msg | [[ | a found] | ]].
  - apply (scout_invariant_later (fun _ => True) _ _ _ (does_one _ (page_error page msg) _ I) Asked).
  - apply (scout_invariant_later (fun _ => True) _ _ _ (does_one _ no_more_articles _ I) Asked).
  - pose proof (scan_articles_invariant (a :: found) _ Asked) as Scanned.
    destruct (scan_articles CONFIG (a :: found) _) as [[[] | e | code] [w2 l2]]; cbn [snd fst] in *.
    + apply IH. exact Scanned.
    + apply (scout_invariant_later (fun _ => True) _ _ _
               (does_one _ (page_error page (message e)) _ I) Scanned).
    + exact Scanned.
  - apply (scout_invariant_later (fun _ => True) _ _ _ (does_one _ no_more_articles _ I) Asked).
Qed.

(** What [fetch_from_api] returns is what the paging collected, next to the
    world after the write of the cache. *)
Lemma fetch_from_api_collected (topic : string) (w w' : World) (articles : list NewsArticle) :
  fetch_from_api CONFIG topic (cache_path topic) w = (Ok articles, w') ->
  articles <> []
  /\ exists w1 l,
       scout_invariant CONFIG (w1, l) /\ collectedArticles l = articles
       /\ does talk w w1
       /\ w' = write_file (cache_path topic)
                 (JSON_stringify (JArr (map article_to_json articles))) w1.
Proof.
  unfold fetch_from_api.
  unfold bind at 1, console_log at 1, modify at 1. cbn [snd fst].
  unfold bind at 1, Date_now at 1. cbn [snd fst now emit].
  unfold bind at 1, with_locals, bind at 1.
  set (fromDate := before_T (toISOString (Date_minus_days (now w) 7))).
  fold (fetching CONFIG). set (w0 := emit (fetching CONFIG) w).
  pose proof (fetch_pages_invariant topic fromDate page_numbers (w0, mkScout [] ∅)) as Inv.
  pose proof (fetch_pages_ok CONFIG topic fromDate page_numbers (w0, mkScout [] ∅)) as O.
  pose proof (fetch_pages_does topic fromDate page_numbers (w0, mkScout [] ∅)) as D.
  destruct (fetch_pages CONFIG topic fromDate page_numbers (w0, mkScout [] ∅)) as [o [w1 l]].
  simpl in O. subst o. unfold local. cbn [snd fst] in *.
  destruct (collectedArticles l) as [ | first others] eqn:C; [discriminate | ].
  intros E. injection E as <- <-. split; [discriminate | ].
  exists w1, l. split; [ | split; [exact C | split; [ | reflexivity]]].
  - apply Inv. repeat split; simpl; try lia; try constructor; intros a [].
  - apply (does_trans talk w w0); [ | exact D].
    apply (does_one talk (fetching CONFIG)). exact I.
Qed.

End Scout_invariants.

Section Scout_properties.

Context `{Platform}.
Variable CONFIG : Config.

(** The two ways in which [load_cached] gives a value: the file is fresh and
    holds an array or a string that is long enough. *)
Lemma load_cached_some (p : string) (w w1 : World) (articles : JsValue) :
  load_cached CONFIG p w = (Ok (Some articles), w1) ->
  exists f,
    files w !! p = Some f /\ now w - mtimeMs f < CACHE_TTL
    /\ w1 = emit (loading CONFIG) w
    /\ ((exists items,
           JSON_parse (content f) = inl (JArr items)
           /\ newsMaxRequests CONFIG <= Z.of_nat (length items)
           /\ articles = JArr (slice0 (newsMaxRequests CONFIG) items))
        \/ (exists text,
              JSON_parse (content f) = inl (JStr text)
              /\ newsMaxRequests CONFIG <= utf16_length text
              /\ articles = JStr (String_slice text (newsMaxRequests CONFIG)))).
Proof.
  unfold load_cached, bind, fs_existsSync, fs_statSync, Date_now, fs_readFileSync.
  destruct (exists_path p w); [ | discriminate].
  destruct (files w !! p) as [f | ] eqn:F; [ | discriminate].
  destruct (now w - mtimeMs f <? CACHE_TTL) eqn:Fresh; [ | discriminate].
  rewrite F. unfold json_parse.
  destruct (JSON_parse (content f)) as [v | msg] eqn:P; simpl; [ | discriminate].
  apply Z.ltb_lt in Fresh.
  destruct v as [ | b | z | text | items | props]; simpl; try discriminate.
  - destruct (newsMaxRequests CONFIG <=? utf16_length text) eqn:Enough; simpl; [ | discriminate].
    intros E. injection E as <- <-. exists f. apply Z.leb_le in Enough.
    split; [reflexivity | ]. split; [exact Fresh | ]. split; [reflexivity | ].
    right. exists text. auto.
  - destruct (newsMaxRequests CONFIG <=? Z.of_nat (length items)) eqn:Enough; simpl; [ | discriminate].
    intros E. injection E as <- <-. exists f. apply Z.leb_le in Enough.
    split; [reflexivity | ]. split; [exact Fresh | ]. split; [reflexivity | ].
    left. exists items. auto.
  - destruct (assoc "length" props) as [len | ]; simpl; [ | discriminate].
    destruct (at_least len (newsMaxRequests CONFIG)); simpl; discriminate.
Qed.

Lemma load_cached_does (p : string) : keeps (does chatter) (load_cached CONFIG p).
Proof.
  unfold load_cached. account chatter.
  match goal with |- context [match ?x with _ => _ end] => destruct x end; account chatter.
  all: repeat match goal with
         | |- context [match ?x with _ => _ end] => destruct x; account chatter
         end.
Qed.

Lemma slice0_length {A} (n : Z) (l : list A) :
  0 <= n -> Z.of_nat (length (slice0 n l)) <= n.
Proof.
  intros N. unfold slice0. destruct (n <? 0) eqn:Neg; [apply Z.ltb_lt in Neg; lia | ].
  rewrite length_firstn. lia.
Qed.

(** X2: the Scout returns at most the number of articles requested, and at
    least one when it asked the news service. *)
Theorem scout_returns_at_most_the_number_requested
    (topic : string) (w w' : World) (articles : list NewsArticle) (items : list JsValue) :
  (fetch_from_api CONFIG topic (cache_path topic) w = (Ok articles, w') ->
   1 <= Z.of_nat (length articles) <= newsMaxRequests CONFIG)
  /\ (0 <= newsMaxRequests CONFIG ->
      fetchNews CONFIG topic w = (Ok (JArr items), w') ->
      Z.of_nat (length items) <= newsMaxRequests CONFIG).
Proof.
  assert (Api : forall w0 w1 collected,
            fetch_from_api CONFIG topic (cache_path topic) w0 = (Ok collected, w1) ->
            1 <= Z.of_nat (length collected) <= newsMaxRequests CONFIG).
  { intros w0 w1 collected E.
    destruct (fetch_from_api_collected CONFIG topic w0 w1 collected E)
      as (NE & w2 & l & (B & _) & C & _).
    simpl in B. rewrite C in B. destruct collected; [contradiction | ]. simpl in *. lia. }
  split; [apply Api | ].
  intros N. rewrite fetchNews_run.
  destruct (load_cached CONFIG (cache_path topic) w) as [[[cached | ] | e | code] w1] eqn:L;
    try discriminate.
  - intros E. injection E as -> <-.
    destruct (load_cached_some _ _ _ _ L) as (f & _ & _ & _ & [(l & _ & _ & A) | (t & _ & _ & A)]);
      [ | discriminate].
    injection A as ->. apply slice0_length. exact N.
  - destruct (fetch_from_api CONFIG topic (cache_path topic) w1) as [[collected | e | code] w2] eqn:A;
      try discriminate.
    intros E. cbn [fst snd returned] in E. injection E as <- <-.
    rewrite length_map. apply (Api _ _ _ A).
Qed.

(** X3: the articles the Scout collects from the news service have pairwise
    different URLs. *)
Theorem scout_collects_each_url_once
    (topic : string) (w w' : World) (articles : list NewsArticle) :
  fetch_from_api CONFIG topic (cache_path topic) w = (Ok articles, w') ->
  NoDup (map url articles).
Proof.
  intros E. destruct (fetch_from_api_collected CONFIG topic w w' articles E)
    as (_ & w1 & l & (_ & N & _) & C & _).
  simpl in N. rewrite C in N. exact N.
Qed.

(** X4: every article the Scout collects from the news service was approved
    by the Gatekeeper in that run. *)
Theorem scout_collects_approved_articles
    (topic : string) (w w' : World) (articles : list NewsArticle) :
  fetch_from_api CONFIG topic (cache_path topic) w = (Ok articles, w') ->
  forall a, In a articles -> approved CONFIG a w'.
Proof.
  intros E a Ia. destruct (fetch_from_api_collected CONFIG topic w w' articles E)
    as (_ & w1 & l & (_ & _ & _ & A) & C & _ & W).
  simpl in A. rewrite C in A. subst w'.
  apply (approved_later CONFIG (fun _ => True) a w1); [ | apply A; exact Ia].
  apply (does_one (fun _ => True) (EvWrite _ _)). exact I.
Qed.

Lemma fetch_pages_requests (topic fromDate : string) (pages : list Z) :
  forall s, exists k : nat,
    (Z.of_nat (length (collectedArticles (snd s))) < newsMaxRequests CONFIG ->
     pages <> [] -> (1 <= k)%nat)
    /\ news_requests (trace (fst (snd (fetch_pages CONFIG topic fromDate pages s))))
       = news_requests (trace (fst s))
         ++ map (fun page => mkNews topic fromDate (newsBatchSize CONFIG) page (newsApiKey CONFIG))
              (firstn k pages).
Proof.
  induction pages as [ | page later IH]; intros [w l].
  - exists 0%nat. split; [intros _ NE; contradiction | ]. simpl. symmetry. apply app_nil_r.
  - rewrite fetch_pages_step. cbv zeta. cbn [snd fst].
    destruct (_ <? _) eqn:Room.
    2: { exists 0%nat. split; [intros R; apply Z.ltb_ge in Room; lia | ].
         simpl. symmetry. apply app_nil_r. }
    set (req := mkNews topic fromDate (newsBatchSize CONFIG) page (newsApiKey CONFIG)).
    assert (One : forall e w2,
              does chatter (emit (EvNews req) (emit (fetching_page page) w)) w2 ->
              chatter e ->
              news_requests (trace (emit e w2)) = news_requests (trace w) ++ [req]).
    { intros e w2 D Ce. simpl. rewrite news_requests_app.
      rewrite (does_no_news chatter _ _ chatter_no_news D). simpl.
      rewrite !news_requests_app. simpl. rewrite !app_nil_r.
      destruct e; try contradiction; simpl; rewrite app_nil_r; reflexivity. }
    destruct (news w _ _) as [msg | [[ | a found] | ]].
    + exists 1%nat. split; [lia | ]. cbn [snd fst firstn map].
      apply One; [apply does_refl | exact I].
    + exists 1%nat. split; [lia | ]. cbn [snd fst firstn map].
      apply One; [apply does_refl | exact I].
    + pose proof (scan_articles_does CONFIG (a :: found)
                    (emit (EvNews req) (emit (fetching_page page) w), l)) as D.
      destruct (scan_articles CONFIG (a :: found) _) as [[[] | e | code] [w2 l2]];
        unfold on_world in D; cbn [snd fst] in *.
      * destruct (IH (w2, l2)) as (k & _ & E). exists (S k). split; [lia | ].
        rewrite E. cbn [fst firstn map].
        rewrite (does_no_news chatter _ _ chatter_no_news D). simpl.
        rewrite !news_requests_app. simpl. rewrite !app_nil_r, <- app_assoc. reflexivity.
      * exists 1%nat. split; [lia | ]. cbn [firstn map]. apply One; [exact D | exact I].
      * exists 1%nat. split; [lia | ]. cbn [firstn map].
        rewrite (does_no_news chatter _ _ chatter_no_news D). simpl.
        rewrite !news_requests_app. simpl. rewrite !app_nil_r. reflexivity.
    + exists 1%nat. split; [lia | ]. cbn [snd fst firstn map].
      apply One; [apply does_refl | exact I].
Qed.

Lemma fetch_from_api_requests (topic p : string) (w : World) :
  exists k : nat,
    (1 <= newsMaxRequests CONFIG -> (1 <= k)%nat)
    /\ news_requests (trace (snd (fetch_from_api CONFIG topic p w)))
       = news_requests (trace w) ++ map (page_request CONFIG topic (now w)) (firstn k [1; 2; 3]).
Proof.
  unfold fetch_from_api.
  unfold bind at 1, console_log at 1, modify at 1. cbn [snd fst].
  unfold bind at 1, Date_now at 1. cbn [snd fst now emit].
  unfold bind at 1, with_locals, bind at 1.
  set (fromDate := before_T (toISOString (Date_minus_days (now w) 7))).
  fold (fetching CONFIG). set (w1 := emit (fetching CONFIG) w).
  destruct (fetch_pages_requests topic fromDate page_numbers (w1, mkScout [] ∅)) as (k & B & E).
  pose proof (fetch_pages_ok CONFIG topic fromDate page_numbers (w1, mkScout [] ∅)) as O.
  destruct (fetch_pages CONFIG topic fromDate page_numbers (w1, mkScout [] ∅)) as [o [w2 l]].
  simpl in O. subst o. unfold local. cbn [snd fst] in *.
  exists k. split; [intros N; apply B; [simpl; lia | discriminate] | ].
  change page_numbers with [1; 2; 3] in E.
  assert (E' : news_requests (trace w2)
               = news_requests (trace w)
                 ++ map (page_request CONFIG topic (now w)) (firstn k [1; 2; 3])).
  { rewrite E. unfold w1. simpl. rewrite news_requests_app. simpl. rewrite app_nil_r.
    reflexivity. }
  destruct (collectedArticles l); cbn [snd fst]; [exact E' | ].
  simpl. rewrite news_requests_app, E'. simpl. apply app_nil_r.
Qed.


(** X5: a call of [fetchNews] sends at most three requests to the news
    service: those for pages 1, 2, 3 of the topic, in this order and as far
    as it goes, all for the week before the call. *)
Theorem scout_asks_for_at_most_three_pages (topic : string) (w : World) :
  exists k : nat,
    news_requests (trace (snd (fetchNews CONFIG topic w)))
    = news_requests (trace w) ++ map (page_request CONFIG topic (now w)) (firstn k [1; 2; 3]).
Proof.
  rewrite fetchNews_run.
  pose proof (load_cached_does (cache_path topic) w) as D.
  destruct (load_cached CONFIG (cache_path topic) w) as [[[cached | ] | e | code] w1];
    cbn [snd fst] in *;
    pose proof (does_no_news chatter _ _ chatter_no_news D) as Same.
  - exists 0%nat. rewrite Same. simpl. symmetry. apply app_nil_r.
  - destruct (fetch_from_api_requests topic (cache_path topic) w1) as (k & _ & E).
    exists k. rewrite E, Same.
    destruct (does_talk w w1) as (_ & _ & Now);
      [eapply does_weaken; [exact chatter_talk | exact D] | ].
    rewrite Now. reflexivity.
  - exists 0%nat. rewrite Same. simpl. symmetry. apply app_nil_r.
  - exists 0%nat. rewrite Same. simpl. symmetry. apply app_nil_r.
Qed.

(** X27: the Scout answers from its cache only when the cache can be used.
    When at least one article is requested and [fetchNews] returns without a
    request to the news service, the cache file of the topic was fresh and
    held at least the number of articles requested, what is returned is its
    first articles, and a console line is the only effect. *)
Theorem answer_without_request_comes_from_the_cache
    (topic : string) (w w' : World) (articles : list JsValue) :
  1 <= newsMaxRequests CONFIG ->
  fetchNews CONFIG topic w = (Ok (JArr articles), w') ->
  news_requests (trace w') = news_requests (trace w) ->
  exists f items,
    files w !! cache_path topic = Some f
    /\ now w - mtimeMs f < CACHE_TTL
    /\ JSON_parse (content f) = inl (JArr items)
    /\ newsMaxRequests CONFIG <= Z.of_nat (length items)
    /\ articles = firstn (Z.to_nat (newsMaxRequests CONFIG)) items
    /\ w' = emit (loading CONFIG) w.
Proof.
  intros N. rewrite fetchNews_run.
  pose proof (load_cached_does (cache_path topic) w) as D.
  destruct (load_cached CONFIG (cache_path topic) w) as [[[cached | ] | e | code] w1] eqn:L;
    cbn [snd fst] in *; try discriminate.
  - intros E _. injection E as -> <-.
    destruct (load_cached_some _ _ _ _ L)
      as (f & F & T & W & [(items & P & Enough & A) | (text & _ & _ & A)]); [ | discriminate].
    exists f, items. injection A as ->. unfold slice0.
    destruct (newsMaxRequests CONFIG <? 0) eqn:Neg; [apply Z.ltb_lt in Neg; lia | ].
    auto 10.
  - intros E Same. exfalso.
    destruct (fetch_from_api_requests topic (cache_path topic) w1) as (k & B & R).
    injection E as _ E. rewrite E in R.
    rewrite (does_no_news chatter _ _ chatter_no_news D) in R. rewrite Same in R.
    specialize (B N). destruct k as [ | k]; [lia | ].
    apply (f_equal (@length _)) in R. rewrite length_app in R. simpl in R. lia.
Qed.

End Scout_properties.

Section Scout_cache_properties.

Context `{Platform}.
Variable CONFIG : Config.

(** X6: the list the Scout writes to its cache reads back as the list it
    returned.  For 24 hours, and as long as the file is left alone, a call of
    [fetchNews] returns that list without a request when it holds the number
    of articles requested; a list that holds fewer is never used. *)
Theorem scout_cache_round_trip (topic : string) (w w' : World) (articles : list NewsArticle) :
  fetch_from_api CONFIG topic (cache_path topic) w = (Ok articles, w') ->
  JSON_parse (JSON_stringify (JArr (map article_to_json articles)))
    = inl (JArr (map article_to_json articles)) ->
  files w' !! cache_path topic
    = Some (mkFile (JSON_stringify (JArr (map article_to_json articles))) (now w))
  /\ forall w'' : World,
       files w'' !! cache_path topic = files w' !! cache_path topic ->
       (Z.of_nat (length articles) = newsMaxRequests CONFIG ->
        now w'' - now w < CACHE_TTL ->
        fetchNews CONFIG topic w''
        = (Ok (JArr (map article_to_json articles)), emit (loading CONFIG) w''))
       /\ (Z.of_nat (length articles) < newsMaxRequests CONFIG ->
           cache_miss CONFIG topic w'').
Proof.
  intros E P.
  destruct (fetch_from_api_collected CONFIG topic w w' articles E)
    as (_ & w1 & l & _ & _ & D & W).
  destruct (does_talk w w1 D) as (_ & _ & Now).
  assert (F : files w' !! cache_path topic
              = Some (mkFile (JSON_stringify (JArr (map article_to_json articles))) (now w))).
  { subst w'. simpl. rewrite Now. apply lookup_insert_eq. }
  split; [exact F | ]. intros w'' Same. rewrite F in Same. split.
  - intros Full Fresh. rewrite fetchNews_run.
    rewrite (load_cached_fresh CONFIG _ _ _ _ Same Fresh P); [ | rewrite length_map; lia].
    rewrite <- Full, Nat2Z.id, <- (length_map article_to_json), firstn_all. reflexivity.
  - intros Few. destruct (Z_lt_le_dec (now w'' - now w) CACHE_TTL) as [Fresh | Old].
    + apply (cache_too_small CONFIG topic w'' _ (map article_to_json articles) Same Fresh P).
      rewrite length_map. exact Few.
    + apply (cache_expired CONFIG topic w'' _ Same Old).
Qed.

Lemma load_cached_unreadable (p : string) (w : World) (f : File) (msg : string) :
  files w !! p = Some f -> now w - mtimeMs f < CACHE_TTL ->
  JSON_parse (content f) = inr msg ->
  load_cached CONFIG p w = (Throw (mkError SyntaxError msg), w).
Proof.
  intros F T P. unfold load_cached, bind, fs_existsSync, fs_statSync, Date_now.
  rewrite (exists_path_file _ _ _ F), F.
  apply Z.ltb_lt in T. rewrite T.
  unfold fs_readFileSync, json_parse. rewrite F, P. reflexivity.
Qed.

(** X8: a fresh article-list cache that is not JSON text stops the run: no
    request is sent, nothing is written, and the exit status is 1. *)
Theorem unreadable_article_cache_stops_the_run (w : World) (f : File) (msg : string) :
  files w !! cache_path "AI business use cases" = Some f ->
  now w - mtimeMs f < CACHE_TTL ->
  JSON_parse (content f) = inr msg ->
  runMAS CONFIG (w, [])
  = (Exit 1, (emit (stopped (mkError SyntaxError msg)) (emit starting w), []))
  /\ exit_status CONFIG w = 1
  /\ files (final_world CONFIG w) = files w.
Proof.
  intros F Fresh P.
  assert (R : runMAS CONFIG (w, [])
              = (Exit 1, (emit (stopped (mkError SyntaxError msg)) (emit starting w), []))).
  { apply runMAS_scout_throws. unfold fetchNews, bind.
    rewrite (load_cached_unreadable _ (emit starting w) f msg F Fresh P). reflexivity. }
  unfold exit_status, final_world. rewrite R. repeat split; reflexivity.
Qed.

(** X9: an article without a source ends the paging.  The error of reading
    its name is caught with the errors of the request: it is printed as an
    error of the page, the rest of the page is not looked at, and no further
    page is requested. *)
Theorem article_without_source_ends_the_paging
    (topic fromDate : string) (page : Z) (later : list Z) (w : World) (l : Scout)
    (found : list RawArticle) :
  let req := mkNews topic fromDate (newsBatchSize CONFIG) page (newsApiKey CONFIG) in
  let w1 := emit (EvNews req) (emit (fetching_page page) w) in
  Z.of_nat (length (collectedArticles l)) < newsMaxRequests CONFIG ->
  news w (remote_history (trace w)) req = NewsData (Some found) ->
  (forall e s,
      scan_articles CONFIG found (w1, l) = (Throw e, s) ->
      e = no_source
      /\ fetch_pages CONFIG topic fromDate (page :: later) (w, l)
         = (Ok tt, (emit (page_error page (message no_source)) (fst s), snd s)))
  /\ (forall a rest,
        found = a :: rest -> raw_source a = None -> raw_url a ∉ seenUrls l ->
        fetch_pages CONFIG topic fromDate (page :: later) (w, l)
        = (Ok tt, (emit (page_error page (message no_source)) w1, add_url (raw_url a) l))).
Proof.
  intros req w1 Room N.
  assert (Step : fetch_pages CONFIG topic fromDate (page :: later) (w, l)
                 = match found with
                   | [] => (Ok tt, (emit no_more_articles w1, l))
                   | _ =>
                       match scan_articles CONFIG found (w1, l) with
                       | (Ok _, s) => fetch_pages CONFIG topic fromDate later s
                       | (Throw e, s) => (Ok tt, (emit (page_error page (message e)) (fst s), snd s))
                       | (Exit code, s) => (Exit code, s)
                       end
                   end).
  { rewrite fetch_pages_step. cbv zeta. apply Z.ltb_lt in Room. rewrite Room.
    fold req. rewrite N. destruct found; reflexivity. }
  split.
  - intros e s S.
    assert (E : e = no_source).
    { destruct (scan_articles_outcome CONFIG found (w1, l)) as [O | O];
        rewrite S in O; simpl in O; congruence. }
    split; [exact E | ]. rewrite Step, S. subst e.
    destruct found; [discriminate | reflexivity].
  - intros a rest -> Src New. rewrite Step, scan_articles_step.
    destruct (newsMaxRequests CONFIG <=? Z.of_nat (length (collectedArticles l))) eqn:Full;
      [apply Z.leb_le in Full; lia | ].
    rewrite (bool_decide_eq_false_2 _ New), Src. reflexivity.
Qed.

End Scout_cache_properties.

(** ** The Investigator and its cache *)

Section Investigator_properties.

Context `{Platform}.
Variable CONFIG : Config.

Lemma analyzeMotive_does (article : JsValue) :
  keeps (does (investigator_event CONFIG article)) (analyzeMotive CONFIG article).
Proof.
  unfold analyzeMotive. account (investigator_event CONFIG article); reflexivity.
Qed.

(** An analysis marked as not from the cache was asked from the model, with
    no cache entry there, and written to the cache. *)
Lemma analyzeMotive_live (article : JsValue) (w w' : World) (r : Motive) :
  analyzeMotive CONFIG article w = (Ok r, w') -> fromCache r = false ->
  exists v,
    r = mkMotive (Some v) false
    /\ article <> JNull
    /\ exists_path (analysis_path article) w = false
    /\ w' = write_file (analysis_path article) (JSON_stringify (cache_entry article v (now w)))
              (emit (EvChat (investigator_request CONFIG article)) (emit (requesting article) w)).
Proof.
  intros R Live.
  destruct (null_or_not article) as [-> | NN]; [discriminate | ].
  destruct (exists_path (analysis_path article) w) eqn:E.
  - destruct (files w !! analysis_path article) as [f | ] eqn:F.
    + rewrite (analyzeMotive_hit _ _ _ _ NN F) in R.
      destruct (JSON_parse (content f)) as [[] | ]; inversion R; subst; discriminate.
    + rewrite (analyzeMotive_dir _ _ _ NN E F) in R. discriminate.
  - rewrite (analyzeMotive_miss _ _ _ NN E) in R.
    destruct (chat w _ _) as [m | [ | c rest]]; try discriminate.
    destruct (JSON_parse (or_else c "{}")) as [v | m]; inversion R; subst.
    exists v. auto.
Qed.

(** X11: the analysis the Investigator writes to its cache reads back.  In
    any later world that has the cache file as it was written, whatever the
    time that has passed, [analyzeMotive] returns that analysis from the
    cache, with a console line as only effect. *)
Theorem analysis_cache_round_trip (article : JsValue) (w w' : World) (v : JsValue) :
  analyzeMotive CONFIG article w = (Ok (mkMotive (Some v) false), w') ->
  JSON_parse (JSON_stringify (cache_entry article v (now w))) = inl (cache_entry article v (now w)) ->
  files w' !! analysis_path article
    = Some (mkFile (JSON_stringify (cache_entry article v (now w))) (now w))
  /\ forall w'' : World,
       files w'' !! analysis_path article = files w' !! analysis_path article ->
       analyzeMotive CONFIG article w''
       = (Ok (mkMotive (Some v) true), emit (using_cache article) w'').
Proof.
  intros R P.
  destruct (analyzeMotive_live article w w' _ R eq_refl) as (v' & E & NN & _ & W).
  injection E as <-.
  assert (F : files w' !! analysis_path article
              = Some (mkFile (JSON_stringify (cache_entry article v (now w))) (now w))).
  { subst w'. apply lookup_insert_eq. }
  split; [exact F | ]. intros w'' Same. rewrite F in Same.
  rewrite (analyzeMotive_hit _ _ _ _ NN Same). cbn [content]. rewrite P.
  unfold cache_entry. destruct (prop article "title"), (prop article "url"); reflexivity.
Qed.


(** X13: an analysis changes nothing but the cache entry of its article.  It
    sends at most one request to the model and none to the news service, and
    it leaves the clock, the directories and every other file as they
    were. *)
Theorem investigator_touches_only_its_cache_entry (article : JsValue) (w : World) :
  let w' := snd (analyzeMotive CONFIG article w) in
  now w' = now w
  /\ dirs w' = dirs w
  /\ (forall p, p <> analysis_path article -> files w' !! p = files w !! p)
  /\ news_requests (trace w') = news_requests (trace w)
  /\ (chat_requests (trace w') = chat_requests (trace w)
      \/ chat_requests (trace w') = chat_requests (trace w) ++ [investigator_request CONFIG article]).
Proof.
  intros w'. subst w'.
  destruct (null_or_not article) as [-> | NN]; [rewrite analyzeMotive_null; simpl; auto 10 | ].
  destruct (exists_path (analysis_path article) w) eqn:E.
  - assert (W : snd (analyzeMotive CONFIG article w) = emit (using_cache article) w).
    { destruct (files w !! analysis_path article) as [f | ] eqn:F.
      - rewrite (analyzeMotive_hit _ _ _ _ NN F). reflexivity.
      - rewrite (analyzeMotive_dir _ _ _ NN E F). reflexivity. }
    rewrite W. simpl. rewrite news_requests_app, chat_requests_app. simpl.
    rewrite !app_nil_r. auto 10.
  - rewrite (analyzeMotive_miss _ _ _ NN E).
    destruct (chat w _ _) as [m | [ | c rest]];
      [ | | destruct (JSON_parse (or_else c "{}")) as [v | m]];
      simpl; rewrite ?news_requests_app, ?chat_requests_app; simpl; rewrite ?app_nil_r;
      (split; [reflexivity | ]); (split; [reflexivity | ]);
      (split; [ | split; [reflexivity | right; reflexivity]]);
      intros p NE; try reflexivity.
    apply lookup_insert_ne. congruence.
Qed.

End Investigator_properties.

(** ** The loop of the orchestrator *)

Section Orchestrator_properties.

Context `{Platform}.
Variable CONFIG : Config.

(** The ways in which [analyzeMotive] leaves the world. *)
Lemma analyzeMotive_world (article : JsValue) (w : World) :
  snd (analyzeMotive CONFIG article w) = w
  \/ snd (analyzeMotive CONFIG article w) = emit (using_cache article) w
  \/ snd (analyzeMotive CONFIG article w)
     = emit (EvChat (investigator_request CONFIG article)) (emit (requesting article) w)
  \/ exists c,
       snd (analyzeMotive CONFIG article w)
       = write_file (analysis_path article) c
           (emit (EvChat (investigator_request CONFIG article)) (emit (requesting article) w)).
Proof.
  destruct (null_or_not article) as [-> | NN]; [left; reflexivity | right].
  destruct (exists_path (analysis_path article) w) eqn:E.
  - left. destruct (files w !! analysis_path article) as [f | ] eqn:F.
    + rewrite (analyzeMotive_hit _ _ _ _ NN F). reflexivity.
    + rewrite (analyzeMotive_dir _ _ _ NN E F). reflexivity.
  - right. rewrite (analyzeMotive_miss _ _ _ NN E).
    destruct (chat w _ _) as [m | [ | c rest]];
      [ | | destruct (JSON_parse (or_else c "{}")) as [v | m]]; eauto.
Qed.


Lemma analyzeMotive_requests (article : JsValue) (w : World) :
  news_requests (trace (snd (analyzeMotive CONFIG article w))) = news_requests (trace w)
  /\ exists calls,
       chat_requests (trace (snd (analyzeMotive CONFIG article w))) = chat_requests (trace w) ++ calls
       /\ (calls = [] \/ calls = [investigator_request CONFIG article]).
Proof.
  destruct (analyzeMotive_world article w) as [E | [E | [E | [c E]]]]; rewrite E; simpl;
    rewrite ?news_requests_app, ?chat_requests_app; simpl; rewrite ?app_nil_r;
    (split; [reflexivity | ]).
  - exists []. rewrite app_nil_r. auto.
  - exists []. rewrite app_nil_r. auto.
  - exists [investigator_request CONFIG article]. auto.
  - exists [investigator_request CONFIG article]. auto.
Qed.

(** The world after the body of the loop, from the world after the analysis. *)
Lemma investigate_next (count index : Z) (article : JsValue) (w : World) (rs : list AnalysisResult) :
  article <> JNull ->
  let o := fst (analyzeMotive CONFIG article (announced count index article w)) in
  let w2 := snd (analyzeMotive CONFIG article (announced count index article w)) in
  fst (snd (investigate CONFIG count index article (w, rs)))
  = match o with
    | Ok r => if live o && (index <? count - 1)
              then pass_time (respectRPM CONFIG) (emit (waiting CONFIG) w2) else w2
    | Throw e => emit (failed_to_analyze article e) w2
    | Exit _ => w2
    end.
Proof.
  intros NN o w2. subst o w2. rewrite investigate_run by exact NN.
  destruct (analyzeMotive CONFIG article (announced count index article w)) as [[r | e | code] w2];
    reflexivity.
Qed.

Lemma investigate_all_cons (count index : Z) (article : JsValue) (rest : list JsValue)
    (w : World) (rs : list AnalysisResult) :
  article <> JNull ->
  fst (snd (investigate_all CONFIG count index (article :: rest) (w, rs)))
  = fst (snd (investigate_all CONFIG count (index + 1) rest
                (fst (snd (investigate CONFIG count index article (w, []))),
                 snd (snd (investigate CONFIG count index article (w, rs)))))).
Proof.
  intros NN. cbn [investigate_all]. unfold bind at 1.
  pose proof (investigate_world CONFIG count index article w rs) as W.
  pose proof (investigate_run CONFIG count index article w rs NN) as R.
  pose proof (analyzeMotive_no_exit CONFIG article (announced count index article w)) as NE.
  destruct (investigate CONFIG count index article (w, rs)) as [o [w3 rs3]].
  cbn [fst snd] in *. rewrite <- W.
  destruct (analyzeMotive CONFIG article (announced count index article w)) as [[r | e | code] w2];
    inversion R; subst; try reflexivity.
  exfalso. apply (NE code). reflexivity.
Qed.




Lemma investigate_requests (count index : Z) (article : JsValue) (w : World) :
  news_requests (trace (fst (snd (investigate CONFIG count index article (w, [])))))
    = news_requests (trace w)
  /\ exists calls,
       chat_requests (trace (fst (snd (investigate CONFIG count index article (w, [])))))
         = chat_requests (trace w) ++ calls
       /\ (calls = [] \/ calls = [investigator_request CONFIG article]).
Proof.
  destruct (null_or_not article) as [-> | NN].
  { split; [reflexivity | ]. exists []. rewrite app_nil_r. auto. }
  rewrite investigate_next by exact NN.
  destruct (analyzeMotive_requests article (announced count index article w)) as (N & calls & C & K).
  assert (T : forall e,
            (forall r, e <> EvNews r) -> (forall r, e <> EvChat r) ->
            forall w0, news_requests (trace (emit e w0)) = news_requests (trace w0)
                       /\ chat_requests (trace (emit e w0)) = chat_requests (trace w0)).
  { intros e N1 N2 w0. simpl. rewrite news_requests_app, chat_requests_app.
    destruct e; simpl; rewrite ?app_nil_r; try (split; reflexivity).
    - exfalso. exact (N1 _ eq_refl).
    - exfalso. exact (N2 _ eq_refl). }
  assert (A : news_requests (trace (announced count index article w)) = news_requests (trace w)
              /\ chat_requests (trace (announced count index article w)) = chat_requests (trace w)).
  { apply T; discriminate. }
  destruct A as [A1 A2]. rewrite A1 in N. rewrite A2 in C.
  cbv zeta.
  destruct (fst (analyzeMotive CONFIG article (announced count index article w))) as [r | e | code].
  - destruct (live (Ok r) && (index <? count - 1)).
    + change (trace (pass_time (respectRPM CONFIG) ?x)) with (trace (emit (EvSleep (respectRPM CONFIG)) x)).
      destruct (T (EvSleep (respectRPM CONFIG)) ltac:(discriminate) ltac:(discriminate)
                  (emit (waiting CONFIG) (snd (analyzeMotive CONFIG article (announced count index article w)))))
        as [T1 T2].
      destruct (T (waiting CONFIG) ltac:(discriminate) ltac:(discriminate)
                  (snd (analyzeMotive CONFIG article (announced count index article w))))
        as [T3 T4].
      rewrite T1, T2, T3, T4. split; [exact N | ]. exists calls. auto.
    + split; [exact N | ]. exists calls. auto.
  - destruct (T (failed_to_analyze article e) ltac:(discriminate) ltac:(discriminate)
                (snd (analyzeMotive CONFIG article (announced count index article w))))
      as [T1 T2].
    rewrite T1, T2. split; [exact N | ]. exists calls. auto.
  - split; [exact N | ]. exists calls. auto.
Qed.

(** X16: the loop sends at most one request to the model for each article, in
    the order of the articles, and no request to the news service. *)
Theorem loop_asks_at_most_once_per_article (count : Z) (articles : list JsValue) :
  forall index w rs,
    let w' := fst (snd (investigate_all CONFIG count index articles (w, rs))) in
    news_requests (trace w') = news_requests (trace w)
    /\ exists calls,
         chat_requests (trace w') = chat_requests (trace w) ++ calls
         /\ sublist calls (map (investigator_request CONFIG) articles).
Proof.
  induction articles as [ | a rest IH]; intros index w rs w'; subst w'.
  - simpl. split; [reflexivity | ]. exists []. rewrite app_nil_r. split; [reflexivity | constructor].
  - destruct (null_or_not a) as [-> | NN].
    { split; [reflexivity | ]. exists []. rewrite app_nil_r. split; [reflexivity | ].
      apply sublist_nil_l. }
    rewrite investigate_all_cons by exact NN.
    match goal with |- context [investigate_all _ _ _ _ (?w3, ?rs3)] =>
      destruct (IH (index + 1) w3 rs3) as (N & later & C & S) end.
    cbv zeta in N, C. rewrite N, C.
    destruct (investigate_requests count index a w) as (N1 & calls & C1 & K).
    rewrite N1, C1. split; [reflexivity | ].
    exists (calls ++ later). rewrite app_assoc. split; [reflexivity | ].
    destruct K as [-> | ->]; simpl.
    + apply sublist_cons. exact S.
    + apply sublist_skip. exact S.
Qed.

End Orchestrator_properties.

(** ** A whole run *)

Section Run_properties.

Context `{Platform}.
Variable CONFIG : Config.

Lemma fetchNews_does (topic : string) : keeps (does (scout_event topic)) (fetchNews CONFIG topic).
Proof.
  unfold fetchNews. account (scout_event topic).
  - intros w. eapply does_weaken; [ | apply load_cached_does].
    intros e. destruct e; simpl; tauto.
  - match goal with |- context [match ?x with _ => _ end] => destruct x end;
      account (scout_event topic).
    apply fetch_from_api_does.
Qed.

Lemma generateHTMLReport_does (results : list AnalysisResult) :
  keeps (does (run_event CONFIG)) (generateHTMLReport results).
Proof.
  unfold generateHTMLReport. account (run_event CONFIG).
  - reflexivity.
  - right. right. eexists. reflexivity.
Qed.

Lemma investigate_does (count index : Z) (article : JsValue) :
  keeps (on_world (does (run_event CONFIG))) (investigate CONFIG count index article).
Proof.
  unfold investigate. account (run_event CONFIG).
  - intros w. eapply does_weaken; [ | apply analyzeMotive_does].
    intros e. destruct e; simpl; try tauto. intros ->. eauto.
  - reflexivity.
Qed.

Lemma investigate_all_does (count : Z) (articles : list JsValue) :
  forall index, keeps (on_world (does (run_event CONFIG))) (investigate_all CONFIG count index articles).
Proof.
  induction articles as [ | a rest IH]; intros index; simpl; account (run_event CONFIG).
  - apply investigate_does.
  - apply IH.
Qed.

Lemma runMAS_does : keeps (on_world (does (run_event CONFIG))) (runMAS CONFIG).
Proof.
  unfold runMAS, investigation, stop. account (run_event CONFIG).
  - intros w. eapply does_weaken; [ | apply fetchNews_does].
    intros e. destruct e; simpl; tauto.
  - apply investigate_all_does.
  - apply generateHTMLReport_does.
  - apply generateHTMLReport_does.
Qed.

(** Events only add files and directories. *)
Lemma replay_keeps_files (events : list Event) :
  forall w p, is_Some (files w !! p) -> is_Some (files (replay events w) !! p).
Proof.
  induction events as [ | e events IH]; intros w p S; [exact S | ].
  change (replay (e :: events) w) with (replay events (perform e w)).
  apply IH. destruct e as [r | r | ms | q | q c0 | t | t d]; try exact S. simpl.
  destruct (decide (q = p)) as [-> | NE].
  - rewrite lookup_insert_eq. eauto.
  - rewrite lookup_insert_ne by exact NE. exact S.
Qed.

Lemma replay_dirs (p : string) (events : list Event) :
  Forall (fun e => forall q, e = EvMkdir q -> q = p) events ->
  forall w, dirs (replay events w) = dirs w \/ dirs (replay events w) = {[p]} ∪ dirs w.
Proof.
  induction 1 as [ | e events Pe _ IH]; intros w; [left; reflexivity | ].
  change (replay (e :: events) w) with (replay events (perform e w)).
  destruct (IH (perform e w)) as [E | E]; rewrite E;
    destruct e as [r | r | ms | q | q c0 | t | t d]; auto.
  - simpl. rewrite (Pe q eq_refl). auto.
  - simpl. rewrite (Pe q eq_refl). right.
    rewrite (assoc_L (∪)), (idemp_L (∪)). reflexivity.
Qed.

(** X19: a run writes only the article-list cache, analysis cache entries and
    reports; it deletes no file; the only directory it may make is the
    reports directory; and its pauses have the configured length. *)
Theorem run_changes_only_its_own_files (w : World) :
  let w' := final_world CONFIG w in
  (forall p,
      p <> cache_path "AI business use cases" ->
      (forall article, p <> analysis_path article) ->
      (forall t, p <> report_path t) ->
      files w' !! p = files w !! p)
  /\ (forall p, is_Some (files w !! p) -> is_Some (files w' !! p))
  /\ (dirs w' = dirs w \/ dirs w' = {[REPORTS_DIR]} ∪ dirs w)
  /\ (forall ms, In (EvSleep ms) (trace w') -> In (EvSleep ms) (trace w) \/ ms = respectRPM CONFIG).
Proof.
  intros w'. subst w'. unfold final_world.
  destruct (runMAS_does (w, [])) as (events & F & E). cbn [fst] in E. rewrite E.
  split; [ | split; [ | split]].
  - intros p N1 N2 N3. apply replay_files.
    eapply Forall_impl; [exact F | ]. intros e Pe c ->. simpl in Pe.
    destruct Pe as [-> | [[a ->] | [t ->]]]; [exact (N1 eq_refl) | exact (N2 a eq_refl) | exact (N3 t eq_refl)].
  - intros p. apply replay_keeps_files.
  - apply replay_dirs. eapply Forall_impl; [exact F | ]. intros e Pe q ->. exact Pe.
  - intros ms. rewrite replay_trace. intros I. apply in_app_or in I. destruct I as [I | I]; [auto | ].
    right. rewrite Forall_forall in F. apply list_elem_of_In in I. exact (F _ I).
Qed.

Lemma render_row_no_exit (res : AnalysisResult) (code : Z) : fst (render_row res tt) <> Exit code.
Proof.
  unfold render_row, bind.
  destruct (res_analysis res) as [fields | ]; [ | discriminate]. simpl.
  destruct fields; simpl; try discriminate.
  destruct (assoc "summary" props) as [[] | ]; simpl; try discriminate.
  destruct (assoc "seller_description" props) as [[] | ]; simpl; try discriminate.
  destruct (assoc "hidden_motive" props) as [[] | ]; simpl; try discriminate.
  destruct (assoc "critique" props) as [[] | ]; simpl; discriminate.
Qed.

Lemma render_rows_no_exit (results : list AnalysisResult) (code : Z) :
  fst (render_rows results tt) <> Exit code.
Proof.
  induction results as [ | res rest IH]; [discriminate | ].
  cbn [render_rows]. unfold bind at 1.
  pose proof (render_row_no_exit res code) as NE.
  destruct (render_row res tt) as [[row | e | c] []]; simpl in *; try discriminate.
  - unfold bind. destruct (render_rows rest tt) as [[rows | e | c] []]; simpl in *;
      try discriminate. exact IH.
  - exact NE.
Qed.

End Run_properties.

Section Exit_properties.

Context `{Platform}.
Variable CONFIG : Config.

Lemma load_cached_no_exit (p : string) (w : World) (code : Z) :
  fst (load_cached CONFIG p w) <> Exit code.
Proof.
  unfold load_cached, bind, fs_existsSync, fs_statSync, Date_now, fs_readFileSync.
  destruct (exists_path p w); [ | discriminate].
  destruct (files w !! p) as [f | ] eqn:F; [ | discriminate].
  destruct (now w - mtimeMs f <? CACHE_TTL); [ | discriminate].
  rewrite F. unfold json_parse.
  destruct (JSON_parse (content f)) as [v | msg]; simpl; [ | discriminate].
  destruct v as [ | b | z | s | items | props]; simpl; try discriminate.
  - destruct (newsMaxRequests CONFIG <=? utf16_length s); simpl; discriminate.
  - destruct (newsMaxRequests CONFIG <=? Z.of_nat (length items)); simpl; discriminate.
  - destruct (assoc "length" props) as [len | ]; simpl; [ | discriminate].
    destruct (at_least len (newsMaxRequests CONFIG)); simpl; discriminate.
Qed.

Lemma fetch_from_api_no_exit (topic p : string) (w : World) (code : Z) :
  fst (fetch_from_api CONFIG topic p w) <> Exit code.
Proof.
  destruct (scout_pages_ok CONFIG topic (now w) (emit (fetching CONFIG) w)) as [collected S].
  rewrite (fetch_from_api_returns CONFIG topic p w
             (snd (scout_pages CONFIG topic (now w) (emit (fetching CONFIG) w))) collected).
  - destruct collected; discriminate.
  - rewrite <- S. apply surjective_pairing.
Qed.

Lemma fetchNews_no_exit (topic : string) (w : World) (code : Z) :
  fst (fetchNews CONFIG topic w) <> Exit code.
Proof.
  rewrite fetchNews_run.
  pose proof (load_cached_no_exit (cache_path topic) w) as NE.
  destruct (load_cached CONFIG (cache_path topic) w) as [[[cached | ] | e | c] w1]; simpl in *.
  - discriminate.
  - pose proof (fetch_from_api_no_exit topic (cache_path topic) w1 code) as NA.
    destruct (fst (fetch_from_api CONFIG topic (cache_path topic) w1)); simpl in *; congruence.
  - discriminate.
  - exfalso. apply (NE c). reflexivity.
Qed.

Lemma with_reports_dir_again (e : Event) (w : World) :
  exists_path REPORTS_DIR (emit e (with_reports_dir w)) = true.
Proof.
  unfold with_reports_dir. destruct (exists_path REPORTS_DIR w) eqn:E; [exact E | ].
  unfold exists_path. simpl. apply orb_true_iff. right.
  apply bool_decide_eq_true. apply elem_of_union. left. apply elem_of_singleton. reflexivity.
Qed.

(** What [runMAS] comes to: the Scout throws; or it returns a value that has
    no entries; or an array with a [null], at which the loop stops; or an
    array of values that the loop goes through, and then the outcome is that
    of the rendering of the results. *)
Lemma runMAS_outcome (w : World) :
  (exists e w1,
      fetchNews CONFIG "AI business use cases" (emit starting w) = (Throw e, w1)
      /\ runMAS CONFIG (w, []) = (Exit 1, (emit (stopped e) w1, [])))
  \/ (exists v e w1,
        fetchNews CONFIG "AI business use cases" (emit starting w) = (Ok v, w1)
        /\ (forall items, v <> JArr items)
        /\ runMAS CONFIG (w, []) = (Exit 1, (emit (stopped e) w1, [])))
  \/ (exists good rest w1 w2,
        fetchNews CONFIG "AI business use cases" (emit starting w)
          = (Ok (JArr (good ++ JNull :: rest)), w1)
        /\ no_null good
        /\ w2 = fst (snd (investigate_all CONFIG (Z.of_nat (length (good ++ JNull :: rest))) 0
                            (good ++ JNull :: rest) (w1, [])))
        /\ runMAS CONFIG (w, [])
           = stop null_title
               (w2, succeeded (analyses CONFIG (Z.of_nat (length (good ++ JNull :: rest))) 0 good w1)))
  \/ exists articles w1 w2,
       fetchNews CONFIG "AI business use cases" (emit starting w) = (Ok (JArr articles), w1)
       /\ no_null articles
       /\ let reported := succeeded (analyses CONFIG (Z.of_nat (length articles)) 0 articles w1) in
          investigate_all CONFIG (Z.of_nat (length articles)) 0 articles (w1, []) = (Ok tt, (w2, reported))
          /\ ((exists rows,
                  fst (render_rows reported tt) = Ok rows
                  /\ runMAS CONFIG (w, [])
                     = (Ok tt,
                        (emit (generated (now w2))
                           (write_file (report_path (now w2))
                              (html_document (report_period (now w2)) rows) (with_reports_dir w2)),
                         reported)))
              \/ (exists e,
                    fst (render_rows reported tt) = Throw e
                    /\ runMAS CONFIG (w, [])
                       = (Throw e, (emit (stopped e) (with_reports_dir w2), reported)))).
Proof.
  pose proof (fetchNews_no_exit "AI business use cases" (emit starting w)) as NE.
  destruct (fetchNews CONFIG "AI business use cases" (emit starting w)) as [[v | e | code] w1] eqn:F.
  - assert (Other : forall e,
              array_entries v (w1, @nil AnalysisResult) = (Throw e, (w1, [])) ->
              runMAS CONFIG (w, []) = (Exit 1, (emit (stopped e) w1, []))).
    { intros e A. rewrite runMAS_run. unfold try_catch.
      rewrite (investigation_after_fetch _ _ _ _ F), A. apply stop_run. }
    destruct v as [ | b | z | text | items | props];
      try (right; left; eexists _, _, w1; split; [reflexivity | ];
           split; [discriminate | apply Other; reflexivity]).
    right. right. destruct (first_null items) as [NN | (good & rest & NN & ->)].
    + right. destruct (runMAS_after_fetch CONFIG w w1 items F NN) as (w2 & L & R).
      exists items, w1, w2. split; [reflexivity | ]. split; [exact NN | ].
      cbv zeta in *. split; [exact L | ].
      set (reported := succeeded _) in *. clearbody reported.
      rewrite R, generateHTMLReport_run.
      pose proof (render_rows_no_exit reported) as NX.
      destruct (fst (render_rows reported tt)) as [rows | e | code] eqn:Rows.
      * left. exists rows. split; reflexivity.
      * right. exists e. split; [reflexivity | ].
        destruct reported as [ | r rs]; [discriminate | ].
        rewrite generateHTMLReport_run, Rows.
        unfold with_reports_dir at 1. rewrite with_reports_dir_again. reflexivity.
      * exfalso. apply (NX code). reflexivity.
    + left. destruct (runMAS_null_entry CONFIG w w1 good rest F NN) as (w2 & L & R).
      exists good, rest, w1, w2. rewrite L. auto.
  - left. exists e, w1. split; [reflexivity | ]. apply runMAS_scout_throws. exact F.
  - exfalso. apply (NE code). reflexivity.
Qed.





End Exit_properties.

(** ** The Gatekeeper, seen from outside *)

Section Gatekeeper_properties.

Context `{Platform}.
Variable CONFIG : Config.

(** X1: a validation is one request to the model and nothing else, but for
    an error line when the answer cannot be used: a negative verdict is
    silent, and neither the disk nor the clock changes. *)
Theorem gatekeeper_asks_once_and_reports_errors (article : NewsArticle) (w : World) :
  let req := gatekeeper_request CONFIG article in
  let answer := chat w (remote_history (trace w)) req in
  let w' := snd (validateRelevance CONFIG article w) in
  chat_requests (trace w') = chat_requests (trace w) ++ [req]
  /\ news_requests (trace w') = news_requests (trace w)
  /\ files w' = files w /\ dirs w' = dirs w /\ now w' = now w
  /\ (unusable answer ->
      fst (validateRelevance CONFIG article w) = Ok false
      /\ exists e, trace w' = trace w ++ [EvChat req; gatekeeper_error article e])
  /\ (~ unusable answer -> trace w' = trace w ++ [EvChat req]).
Proof.
  intros req answer w'. subst w'. rewrite validateRelevance_world. fold req answer. cbn [fst snd].
  pose proof (caught_unusable answer) as U.
  destruct (caught answer) as [e | ] eqn:C; simpl;
    rewrite ?chat_requests_app, ?news_requests_app; simpl; rewrite ?app_nil_r;
    repeat (split; [reflexivity | ]).
  - split.
    + intros _. rewrite (caught_verdict answer e C). split; [reflexivity | ].
      exists e. rewrite <- app_assoc. reflexivity.
    + intros No. exfalso. apply No, U. eauto.
  - split; [ | reflexivity]. intros Un. apply U in Un. destruct Un as [e E]. discriminate.
Qed.

End Gatekeeper_properties.

(** ** The sanitizer only deletes *)

Lemma remove_all_sublist (matcher : Chars.chars -> option nat) (s : Chars.chars) :
  forall skip, sublist (Chars.remove_all matcher skip s) s.
Proof.
  induction s as [ | c s IH]; intros skip; [constructor | ].
  simpl. destruct skip as [ | k].
  - destruct (matcher (c :: s)) as [[ | k] | ].
    + apply sublist_skip, IH.
    + apply sublist_cons, IH.
    + apply sublist_skip, IH.
  - apply sublist_cons, IH.
Qed.

Lemma strip_prefix_eqb (p : Chars.chars) :
  forall s r, Chars.strip_prefix Ascii.eqb p s = Some r -> s = p ++ r.
Proof.
  induction p as [ | a p IH]; intros s r E; simpl in *.
  - inversion E. reflexivity.
  - destruct s as [ | b s]; [discriminate | ].
    destruct (Ascii.eqb a b) eqn:AB; [ | discriminate].
    apply Ascii.eqb_eq in AB. subst b. f_equal. apply IH. exact E.
Qed.

Lemma no_occurrence_no_prefix (eqc : ascii -> ascii -> bool) (p l1 l2 : Chars.chars) :
  occurs_in eqc p (l1 ++ l2) = false -> Chars.strip_prefix eqc p l2 = None.
Proof. intros O. apply occurs_in_here. apply (occurs_in_suffix eqc p l1 l2 O). Qed.

Lemma of_string_length (s : string) : length (Chars.of_string s) = String.length s.
Proof. induction s as [ | c s IH]; simpl; [reflexivity | f_equal; exact IH]. Qed.

(** X22: the output of [sanitizeHtml] is its input with some characters
    left out: nothing is added, replaced or moved. *)
Theorem sanitizer_only_deletes (html : string) :
  sublist (Chars.of_string (sanitizeHtml html)) (Chars.of_string html)
  /\ (String.length (sanitizeHtml html) <= String.length html)%nat.
Proof.
  assert (S : sublist (Chars.of_string (sanitizeHtml html)) (Chars.of_string html)).
  { unfold sanitizeHtml, sanitize_chars. rewrite of_to_string.
    etransitivity; [apply remove_all_sublist | ].
    etransitivity; [apply remove_all_sublist | ].
    apply remove_all_sublist. }
  split; [exact S | ].
  apply sublist_length in S. rewrite !of_string_length in S. exact S.
Qed.

(** X23: markup in which none of the three patterns can start goes through
    [sanitizeHtml] unchanged: no [<script] and no [javascript:] in any case
    of the letters, and no equals sign followed by a double quote. *)
Theorem sanitizer_keeps_clean_markup (html : string) :
  occurs_ci "<script" html = false ->
  occurs ("=" +:+ dq) html = false ->
  occurs_ci "javascript:" html = false ->
  sanitizeHtml html = html.
Proof.
  unfold occurs_ci, occurs. intros Script Quote Java.
  unfold sanitizeHtml, sanitize_chars.
  rewrite (remove_all_nothing script_matcher (Chars.of_string html)).
  - rewrite (remove_all_nothing handler_matcher (Chars.of_string html)).
    + rewrite (remove_all_nothing javascript_matcher (Chars.of_string html)).
      * apply string_of_list_ascii_of_string.
      * intros l1 c l2 E. rewrite E in Java. unfold javascript_matcher.
        rewrite (no_occurrence_no_prefix _ _ _ _ Java). reflexivity.
    + intros l1 c l2 E. unfold handler_matcher.
      destruct (Chars.strip_prefix Ascii.eqb (Chars.of_string "on") (c :: l2)) as [r1 | ] eqn:On;
        [ | reflexivity].
      apply strip_prefix_eqb in On.
      destruct (Chars.word_run r1) as [ | n] eqn:W; [reflexivity | ].
      rewrite <- (firstn_skipn (S n) r1) in On. rewrite On in E.
      rewrite E, !app_assoc in Quote.
      rewrite (no_occurrence_no_prefix _ _ _ _ Quote). reflexivity.
  - intros l1 c l2 E. rewrite E in Script. unfold script_matcher.
    rewrite (no_occurrence_no_prefix _ _ _ _ Script). reflexivity.
Qed.

(** ** The name of an analysis cache file *)

Lemma le_bytes_range (n : nat) : forall x, Forall (fun b => 0 <= b < 256) (MD5.le_bytes n x).
Proof.
  induction n as [ | n IH]; intros x; simpl; constructor.
  - apply Z.mod_pos_bound. lia.
  - apply IH.
Qed.

Lemma le_bytes_length (n : nat) : forall x, length (MD5.le_bytes n x) = n.
Proof. induction n as [ | n IH]; intros x; simpl; [reflexivity | f_equal; apply IH]. Qed.

Lemma hex_digit_is_hex (n : Z) : 0 <= n < 16 -> is_hex_digit (MD5.hex_digit n) = true.
Proof.
  intros R.
  assert (All : forallb (fun k => is_hex_digit (MD5.hex_digit (Z.of_nat k))) (seq 0 16) = true)
    by reflexivity.
  rewrite forallb_forall in All. rewrite <- (Z2Nat.id n) by lia.
  apply All, in_seq. lia.
Qed.

Lemma hex_shape (bs : list Z) :
  Forall (fun b => 0 <= b < 256) bs ->
  String.length (MD5.hex bs) = (2 * length bs)%nat
  /\ Forall (fun c => is_hex_digit c = true) (Chars.of_string (MD5.hex bs)).
Proof.
  intros R. unfold MD5.hex. rewrite <- of_string_length, of_to_string.
  induction R as [ | b bs Rb _ [IHl IHf]]; [split; [reflexivity | constructor] | ].
  cbn [flat_map app length]. split; [rewrite IHl; lia | ].
  constructor; [ | constructor; [ | exact IHf]]; apply hex_digit_is_hex.
  - split; [apply Z.div_pos; lia | apply Z.div_lt_upper_bound; lia].
  - apply Z.mod_pos_bound. lia.
Qed.

(** X14: the name of an analysis cache file is made of 32 hexadecimal digits
    between [analysis_] and [.json], whatever the URL, the title and the other
    texts of the article are. *)
Theorem analysis_cache_name_is_a_digest `{Platform} (article : JsValue) :
  exists digest : string,
    analysis_path article = path_join CACHE_DIR ("analysis_" +:+ digest +:+ ".json")
    /\ String.length digest = 32%nat
    /\ Forall (fun c => is_hex_digit c = true) (Chars.of_string digest).
Proof.
  exists (articleHash article). split; [reflexivity | ].
  unfold articleHash, analysis_key, MD5.md5_hex.
  set (msg := map Chars.code (Chars.of_string (text_of _ +:+ _))).
  assert (R : Forall (fun b => 0 <= b < 256) (MD5.digest msg)).
  { unfold MD5.digest. destruct (fold_left MD5.block _ MD5.init) as [a b c d].
    repeat (apply Forall_app; split); apply le_bytes_range. }
  assert (L : length (MD5.digest msg) = 16%nat).
  { unfold MD5.digest. destruct (fold_left MD5.block _ MD5.init) as [a b c d].
    rewrite !length_app, !le_bytes_length. reflexivity. }
  destruct (hex_shape _ R) as [Len Hex]. rewrite Len, L. split; [reflexivity | exact Hex].
Qed.

(** ** The rows of the report *)

Lemma append_assoc (a b c : string) : (a +:+ b) +:+ c = a +:+ (b +:+ c).
Proof.
  induction a as [ | x a IH]; [reflexivity | ].
  change (String x ((a +:+ b) +:+ c) = String x (a +:+ (b +:+ c))). f_equal. exact IH.
Qed.

(** X20: the body of the table is made of the rows of the results in their
    order: the rows of a list followed by another are the rows of the first
    followed by the rows of the second, and a result that cannot be rendered
    in either list makes the whole rendering fail. *)
Theorem rows_follow_the_results `{Platform} (first second : list AnalysisResult) :
  fst (render_rows (first ++ second) tt)
  = match fst (render_rows first tt), fst (render_rows second tt) with
    | Ok rows1, Ok rows2 => Ok (rows1 +:+ rows2)
    | Ok _, other => other
    | other, _ => other
    end.
Proof.
  induction first as [ | res rest IH].
  - simpl. destruct (fst (render_rows second tt)); reflexivity.
  - cbn [app render_rows]. unfold bind at 1 3.
    destruct (render_row res tt) as [[row | e | code] []]; cbn [fst snd]; try reflexivity.
    unfold bind. 
    destruct (render_rows (rest ++ second) tt) as [o []].
    destruct (render_rows rest tt) as [o1 []]. cbn [fst snd] in *. subst o.
    destruct o1 as [rows1 | e | code]; cbn [fst]; try reflexivity.
    destruct (fst (render_rows second tt)) as [rows2 | e | code]; cbn [fst]; try reflexivity.
    unfold ret. cbn [fst]. rewrite append_assoc. reflexivity.
Qed.

(** ** The start of the script *)

Lemma strip_prefix_self (p rest : Chars.chars) :
  Chars.strip_prefix Ascii.eqb p (p ++ rest) = Some rest.
Proof.
  induction p as [ | a p IH]; [reflexivity | ].
  simpl. rewrite Ascii.eqb_refl. exact IH.
Qed.

Lemma occurs_in_self (p : Chars.chars) : occurs_in Ascii.eqb p p = true.
Proof.
  pose proof (strip_prefix_self p []) as S. rewrite app_nil_r in S.
  destruct p; simpl in *; rewrite ?S; reflexivity.
Qed.

Lemma occurs_join (sep key : string) (l : list string) :
  In key l -> occurs key (join sep l) = true.
Proof.
  unfold occurs. induction l as [ | x rest IH]; [contradiction | ].
  intros I. destruct rest as [ | y rest'].
  - destruct I as [-> | []]. apply occurs_in_self.
  - change (join sep (x :: y :: rest')) with (x +:+ sep +:+ join sep (y :: rest')).
    rewrite !of_string_app. destruct I as [-> | I].
    + apply occurs_in_app_l, occurs_in_self.
    + apply occurs_in_app_r, occurs_in_app_r, IH. exact I.
Qed.

Section Start_properties.

Context `{Platform}.
Variable CONFIG : Config.

Lemma unset_spec (env : Env) (key : string) :
  unset env key = true <-> env !! key = None \/ env !! key = Some EmptyString.
Proof.
  unfold unset. destruct (env !! key) as [[ | c s] | ]; split; intros X; auto;
    first [discriminate | destruct X as [X | X]; discriminate].
Qed.

(** X24: the script runs only with its four variables set to texts that are
    not empty.  When one of them is missing, the only thing the script does is
    to print one line, in which every missing variable is named, and to exit
    with status 1: no directory is made and no request is sent.  When none is
    missing, the script makes the cache directory unless it is there, and goes
    on with [runMAS]. *)
Theorem script_needs_its_four_variables (env : Env) (w : World) :
  ((exists key, In key requiredEnv /\ (env !! key = None \/ env !! key = Some EmptyString)) ->
   script CONFIG env w = (Exit 1, emit (missing_line (missingEnv env)) w)
   /\ forall key,
        In key requiredEnv -> env !! key = None \/ env !! key = Some EmptyString ->
        In key (missingEnv env)
        /\ occurs key ("❌ Missing required environment variables: " +:+ join ", " (missingEnv env))
           = true)
  /\ ((forall key, In key requiredEnv -> exists c s, env !! key = Some (String c s)) ->
      script CONFIG env w = with_locals [] (runMAS CONFIG) (with_cache_dir w)).
Proof.
  split.
  - intros (key & I & U).
    assert (M : In key (missingEnv env)).
    { unfold missingEnv. apply filter_In. split; [exact I | apply unset_spec; exact U]. }
    split.
    + unfold script, bind at 1, check_environment.
      destruct (missingEnv env) as [ | x rest]; [contradiction | ]. reflexivity.
    + intros key' I' U'.
      assert (M' : In key' (missingEnv env)).
      { unfold missingEnv. apply filter_In. split; [exact I' | apply unset_spec; exact U']. }
      split; [exact M' | ]. unfold occurs. rewrite of_string_app.
      apply occurs_in_app_r. apply (occurs_join ", " key' _ M').
  - intros AllSet.
    assert (M : missingEnv env = []).
    { unfold missingEnv.
      destruct (List.filter (unset env) requiredEnv) as [ | x rest] eqn:F; [reflexivity | ].
      assert (I : In x (List.filter (unset env) requiredEnv)) by (rewrite F; left; reflexivity).
      apply filter_In in I. destruct I as [I U].
      destruct (AllSet x I) as (c & s & E). unfold unset in U. rewrite E in U. discriminate. }
    unfold script, bind at 1, check_environment. rewrite M. cbn [ret fst snd].
    unfold bind at 1, make_cache_dir, bind, fs_existsSync, with_cache_dir.
    destruct (exists_path CACHE_DIR w); reflexivity.
Qed.

End Start_properties.

(** ** The properties above on runs of the script *)

Section Scenes_of_the_scout.

Import Demo Scenes.

(** The page with [a1] twice: three articles are collected, each once. *)
Lemma scout_returns_at_most_the_number_requested_witness :
  fst (fetch_from_api config topic (cache_path topic) repeated_world) = Ok [a1; a2; a3]
  /\ 1 <= Z.of_nat (length [a1; a2; a3]) <= newsMaxRequests config.
Proof.
  assert (E : fetch_from_api config topic (cache_path topic) repeated_world
              = (Ok [a1; a2; a3], snd (fetch_from_api config topic (cache_path topic) repeated_world)))
    by (vm_compute; reflexivity).
  split; [rewrite E; reflexivity | ].
  exact (proj1 (scout_returns_at_most_the_number_requested config topic repeated_world _
                  [a1; a2; a3] []) E).
Defined.

Lemma scout_collects_each_url_once_witness :
  NoDup (map url [a1; a2; a3]).
Proof.
  apply (scout_collects_each_url_once config topic repeated_world
           (snd (fetch_from_api config topic (cache_path topic) repeated_world))).
  vm_compute. reflexivity.
Defined.

Lemma scout_collects_approved_articles_witness :
  approved config a2 (snd (fetch_from_api config topic (cache_path topic) repeated_world)).
Proof.
  apply (scout_collects_approved_articles config topic repeated_world _ [a1; a2; a3]).
  - vm_compute. reflexivity.
  - right. left. reflexivity.
Defined.

(** The list written by that run is what the next call returns, one hour
    later. *)
Lemma scout_cache_round_trip_witness :
  fetchNews config topic
    (pass_time hour (snd (fetch_from_api config topic (cache_path topic) repeated_world)))
  = (Ok (JArr [j1; j2; j3]),
     emit (loading config)
       (pass_time hour (snd (fetch_from_api config topic (cache_path topic) repeated_world)))).
Proof.
  refine (proj1 (proj2 (scout_cache_round_trip config topic repeated_world
                          (snd (fetch_from_api config topic (cache_path topic) repeated_world))
                          [a1; a2; a3] _ _) _ _) _ _).
  - vm_compute. reflexivity.
  - vm_compute. reflexivity.
  - reflexivity.
  - reflexivity.
  - vm_compute. reflexivity.
Defined.

Lemma unreadable_article_cache_stops_the_run_witness :
  runMAS config (garbled_list_world, [])
  = (Exit 1,
     (emit (stopped (mkError SyntaxError "Unexpected token in JSON")) (emit starting garbled_list_world),
      []))
  /\ exit_status config garbled_list_world = 1.
Proof.
  destruct (unreadable_article_cache_stops_the_run config garbled_list_world
              (mkFile "<html>busy</html>" 0) "Unexpected token in JSON") as (R & S & _).
  - vm_compute. reflexivity.
  - vm_compute. reflexivity.
  - vm_compute. reflexivity.
  - split; [exact R | exact S].
Defined.

Lemma article_without_source_ends_the_paging_witness :
  fetch_pages config topic "day-6" [1; 2; 3] (anonymous_world, mkScout [] ∅)
  = (Ok tt,
     (emit (page_error 1 (message no_source))
        (emit (EvNews (mkNews topic "day-6" 20 1 "news-key")) (emit (fetching_page 1) anonymous_world)),
      add_url "https://news.example/anonymous" (mkScout [] ∅))).
Proof.
  refine (proj2 (article_without_source_ends_the_paging config topic "day-6" 1 [2; 3]
                   anonymous_world (mkScout [] ∅) [anonymous; raw a1] _ _)
            anonymous [raw a1] _ _ _).
  - vm_compute. reflexivity.
  - vm_compute. reflexivity.
  - reflexivity.
  - reflexivity.
  - vm_compute. discriminate.
Defined.

End Scenes_of_the_scout.

Section Scenes_of_the_investigator.

Import Demo Scenes.

Lemma analysis_cache_round_trip_witness :
  analyzeMotive config j1 (pass_time (48 * hour) (snd (analyzeMotive config j1 first_run_world)))
  = (Ok (mkMotive (Some (analysis_of "First summary" 9)) true),
     emit (using_cache j1) (pass_time (48 * hour) (snd (analyzeMotive config j1 first_run_world)))).
Proof.
  refine (proj2 (analysis_cache_round_trip config j1 first_run_world
                   (snd (analyzeMotive config j1 first_run_world))
                   (analysis_of "First summary" 9) _ _) _ _).
  - vm_compute. reflexivity.
  - vm_compute. reflexivity.
  - reflexivity.
Defined.



End Scenes_of_the_investigator.

Section Other_scenes.

Import Demo Scenes.

Lemma sanitizer_keeps_clean_markup_witness :
  sanitizeHtml "<p>Thin on evidence.</p>" = "<p>Thin on evidence.</p>".
Proof.
  apply sanitizer_keeps_clean_markup; vm_compute; reflexivity.
Defined.

(** With only the model set, the three other variables are named. *)
Lemma script_needs_its_four_variables_witness :
  script config model_only (world ∅ 0 [] [])
  = (Exit 1,
     emit (EvError "❌ Missing required environment variables: LLM_API_KEY, LLM_BASE_URL, NEWS_API_KEY"
             EmptyString)
       (world ∅ 0 [] [])).
Proof.
  refine (proj1 (proj1 (script_needs_its_four_variables config model_only (world ∅ 0 [] [])) _)).
  exists "LLM_API_KEY". split; [left; reflexivity | left; vm_compute; reflexivity].
Defined.

End Other_scenes.

(** ** The name of the article-list cache *)

Lemma after_space_underscore (rest : Chars.chars) : after_space ("_"%char :: rest) = None.
Proof. destruct rest as [ | c2 [ | c3 s3]]; reflexivity. Qed.

Ltac space_cases :=
  repeat match goal with
         | E : context [if ?b then _ else _] |- _ => destruct b eqn:?; try discriminate
         | |- context [if ?b then _ else _] => destruct b eqn:?; try discriminate
         end.

Lemma after_space_1 (c : ascii) (s : Chars.chars) :
  after_space (c :: s) = None -> after_space [c] = None.
Proof. intros E. unfold after_space in *. space_cases. reflexivity. Qed.

Lemma after_space_2 (c c2 : ascii) (s : Chars.chars) :
  after_space (c :: c2 :: s) = None -> after_space [c; c2] = None.
Proof. intros E. unfold after_space in *. space_cases. reflexivity. Qed.

Lemma after_space_3 (c c2 c3 : ascii) (s r : Chars.chars) :
  after_space (c :: c2 :: c3 :: s) = None -> after_space (c :: c2 :: c3 :: r) = None.
Proof. intros E. unfold after_space in *. space_cases. reflexivity. Qed.

Lemma after_space_1u (c : ascii) (s r : Chars.chars) :
  after_space (c :: s) = None -> after_space (c :: "_"%char :: r) = None.
Proof.
  intros E. apply after_space_1 in E. unfold after_space in *.
  destruct ((_ && _) || _); [discriminate | ].
  change (Chars.code "_") with 95. cbn [Z.eqb Pos.eqb Z.leb Z.compare Pos.compare].
  rewrite andb_false_r.
  destruct r as [ | c3 r]; [reflexivity | ].
  change (95 =? 154) with false. change (95 =? 128) with false.
  change (95 =? 129) with false. change (95 =? 187) with false.
  rewrite !andb_false_r. reflexivity.
Qed.

Lemma after_space_2u (c c2 : ascii) (s r : Chars.chars) :
  after_space (c :: c2 :: s) = None -> after_space (c :: c2 :: "_"%char :: r) = None.
Proof.
  intros E. apply after_space_2 in E. unfold after_space in *.
  destruct ((_ && _) || _); [discriminate | ].
  destruct ((_ =? 194) && _); [discriminate | ].
  change (Chars.code "_") with 95.
  change (95 =? 128) with false. change (95 =? 159) with false. change (95 =? 191) with false.
  change (95 =? 168) with false. change (95 =? 169) with false. change (95 =? 175) with false.
  change (128 <=? 95) with false.
  cbn [andb orb]. rewrite !andb_false_r. reflexivity.
Qed.

(** The output of [underscore_runs] is empty, or starts with an underscore,
    or starts with a character that is no white space with what follows it
    in the input (the first character of the input, outside a run of white
    space), and goes on with the output for what follows. *)
Lemma underscore_runs_head (n : nat) :
  forall in_run s,
    underscore_runs n in_run s = []
    \/ (exists rest, underscore_runs n in_run s = "_"%char :: rest)
    \/ exists c s' n',
         (in_run = false -> s = c :: s') /\ after_space (c :: s') = None
         /\ underscore_runs n in_run s = c :: underscore_runs n' false s'.
Proof.
  induction n as [ | n IH]; intros in_run s; [left; reflexivity | ].
  cbn [underscore_runs].
  destruct (after_space s) as [rest | ] eqn:A.
  - destruct in_run; [ | right; left; eauto].
    destruct (IH true rest) as [E | [E | (c & s' & n' & _ & A' & E)]]; auto.
    right. right. exists c, s', n'. split; [discriminate | auto].
  - destruct s as [ | c s']; [left; reflexivity | ].
    right. right. exists c, s', n. auto.
Qed.

Lemma underscore_runs_no_space (n : nat) (in_run : bool) (s : Chars.chars) :
  after_space (underscore_runs n in_run s) = None.
Proof.
  destruct (underscore_runs_head n in_run s) as [E | [[rest E] | (c & s' & n' & _ & A & E)]];
    rewrite E; [reflexivity | apply after_space_underscore | ].
  destruct (underscore_runs_head n' false s') as [E1 | [[rest E1] | (c2 & s'' & n'' & S1 & A2 & E1)]];
    rewrite E1; [exact (after_space_1 _ _ A) | exact (after_space_1u _ _ _ A) | ].
  rewrite (S1 eq_refl) in A.
  destruct (underscore_runs_head n'' false s'') as [E2 | [[rest E2] | (c3 & s3 & n3 & S2 & A3 & E2)]];
    rewrite E2; [exact (after_space_2 _ _ _ A) | exact (after_space_2u _ _ _ _ A) | ].
  rewrite (S2 eq_refl) in A.
  exact (after_space_3 _ _ _ _ _ A).
Qed.

Lemma underscore_runs_spaceless (n : nat) :
  forall in_run s, spaceless (underscore_runs n in_run s).
Proof.
  induction n as [ | n IH]; intros in_run s l1 l2 E.
  - destruct l1; [ | discriminate]. simpl in E. subst l2. reflexivity.
  - destruct l1 as [ | x l1].
    + cbn [app] in E. subst l2. apply underscore_runs_no_space.
    + cbn [underscore_runs] in E.
      destruct (after_space s) as [rest | ].
      * destruct in_run.
        -- apply (IH true rest (x :: l1) l2 E).
        -- injection E as _ E. apply (IH true rest l1 l2 E).
      * destruct s as [ | c s']; [discriminate | ].
        injection E as _ E. apply (IH false s' l1 l2 E).
Qed.

Lemma underscore_runs_copy (s : Chars.chars) :
  forall n in_run, spaceless s -> (length s < n)%nat -> underscore_runs n in_run s = s.
Proof.
  induction s as [ | c s IH]; intros n in_run Sp L.
  - destruct n; [inversion L | ]. reflexivity.
  - destruct n as [ | n]; [inversion L | ].
    cbn [underscore_runs]. rewrite (Sp [] (c :: s) eq_refl). f_equal.
    apply IH; [ | simpl in L; lia].
    intros l1 l2 E. apply (Sp (c :: l1) l2). rewrite E. reflexivity.
Qed.

(** X10: in the name of the article-list cache every run of white space of
    the topic is one underscore: the name has no white space left, a topic
    without white space is its own name, and so a topic shares its cache file
    with the topic in which underscores stand for the white space. *)
Theorem topic_cache_name_has_no_white_space `{Platform} (topic : string) :
  spaceless (Chars.of_string (replace_spaces topic))
  /\ (spaceless (Chars.of_string topic) -> replace_spaces topic = topic)
  /\ cache_path (replace_spaces topic) = cache_path topic.
Proof.
  assert (Clean : spaceless (Chars.of_string (replace_spaces topic))).
  { unfold replace_spaces. rewrite of_to_string. apply underscore_runs_spaceless. }
  assert (Same : forall t, spaceless (Chars.of_string t) -> replace_spaces t = t).
  { intros t Sp. unfold replace_spaces. rewrite underscore_runs_copy; [ | exact Sp | lia].
    apply string_of_list_ascii_of_string. }
  split; [exact Clean | ]. split; [apply Same | ].
  unfold cache_path. rewrite (Same _ Clean). reflexivity.
Qed.

Section Scout_disk.

Context `{Platform}.
Variable CONFIG : Config.

Lemma fetch_from_api_world (topic p : string) (w : World) :
  exists w1 collected,
    does talk w w1
    /\ fetch_from_api CONFIG topic p w
       = match collected with
         | [] => (Throw no_articles, w1)
         | _ => (Ok collected, write_file p (JSON_stringify (JArr (map article_to_json collected))) w1)
         end.
Proof.
  destruct (scout_pages_ok CONFIG topic (now w) (emit (fetching CONFIG) w)) as [collected S].
  exists (snd (scout_pages CONFIG topic (now w) (emit (fetching CONFIG) w))), collected. split.
  - apply (does_trans talk w (emit (fetching CONFIG) w)).
    + apply (does_one talk (fetching CONFIG)). exact I.
    + unfold scout_pages, with_locals, bind.
      pose proof (fetch_pages_does CONFIG topic (before_T (toISOString (Date_minus_days (now w) 7)))
                    page_numbers (emit (fetching CONFIG) w, mkScout [] ∅)) as D.
      destruct (fetch_pages CONFIG topic _ page_numbers _) as [[[] | e | code] [w1 l]]; exact D.
  - apply fetch_from_api_returns. rewrite <- S. apply surjective_pairing.
Qed.

(** X7: the Scout changes the disk in one way only: when it returns
    articles that it collected from the news service, it has written them to
    the cache file of the topic.  In every other case, and so whenever it
    throws, the files are as they were; it makes no directory and does not
    pause. *)
Theorem scout_writes_its_cache_only_on_success (topic : string) (w : World) :
  let w' := snd (fetchNews CONFIG topic w) in
  (files w' = files w
   \/ exists articles,
        fst (fetchNews CONFIG topic w) = Ok (JArr (map article_to_json articles)) /\ articles <> []
        /\ files w'
           = <[cache_path topic := mkFile (JSON_stringify (JArr (map article_to_json articles))) (now w)]>
               (files w))
  /\ ((exists e, fst (fetchNews CONFIG topic w) = Throw e) -> files w' = files w)
  /\ dirs w' = dirs w /\ now w' = now w.
Proof.
  intros w'. subst w'.
  rewrite fetchNews_run.
  pose proof (load_cached_does CONFIG (cache_path topic) w) as D.
  apply (does_weaken _ _ _ _ chatter_talk), does_talk in D. destruct D as (F & Dr & N).
  destruct (load_cached CONFIG (cache_path topic) w) as [[[cached | ] | e | code] w1];
    cbn [fst snd] in *; try (split; [left; exact F | auto]).
  destruct (fetch_from_api_world topic (cache_path topic) w1) as (w2 & collected & T & E).
  apply does_talk in T. destruct T as (F2 & D2 & N2).
  rewrite E. destruct collected as [ | a rest]; cbn [fst snd].
  - rewrite F2, D2, N2. auto.
  - simpl. rewrite F2, D2, N2, F, N. split; [ | split; [ | auto]].
    + right. exists (a :: rest). split; [reflexivity | ]. split; [discriminate | reflexivity].
    + intros [e X]. discriminate.
Qed.

End Scout_disk.

(** ** What the report shows *)

Section Report_rows.

Context `{Platform}.

Lemma occurs_middle (a x b : string) : occurs x (a +:+ x +:+ b) = true.
Proof.
  unfold occurs. rewrite !of_string_app.
  apply occurs_in_app_r, occurs_in_app_l, occurs_in_self.
Qed.

Lemma occurs_left (x a b : string) : occurs x a = true -> occurs x (a +:+ b) = true.
Proof. unfold occurs. rewrite of_string_app. apply occurs_in_app_l. Qed.

Lemma occurs_right (x a b : string) : occurs x b = true -> occurs x (a +:+ b) = true.
Proof. unfold occurs. rewrite of_string_app. apply occurs_in_app_r. Qed.

Lemma render_row_shape (res : AnalysisResult) (row : string) :
  fst (render_row res tt) = Ok row ->
  exists formattedAnalysis scoreClass badge, row = row_html res formattedAnalysis scoreClass badge.
Proof.
  unfold render_row, bind.
  destruct (res_analysis res) as [fields | ]; [ | discriminate]. simpl.
  destruct fields; simpl; try discriminate.
  destruct (assoc "summary" props) as [[] | ]; simpl; try discriminate.
  destruct (assoc "seller_description" props) as [[] | ]; simpl; try discriminate.
  destruct (assoc "hidden_motive" props) as [[] | ]; simpl; try discriminate.
  destruct (assoc "critique" props) as [[] | ]; simpl; try discriminate.
  intros E. injection E as <-. eauto.
Qed.

Lemma row_html_shows (res : AnalysisResult) (formattedAnalysis scoreClass badge : string) :
  occurs (text_of (res_title res)) (row_html res formattedAnalysis scoreClass badge) = true
  /\ occurs (text_of (res_source res)) (row_html res formattedAnalysis scoreClass badge) = true
  /\ occurs (text_of (res_url res)) (row_html res formattedAnalysis scoreClass badge) = true.
Proof.
  unfold row_html. split; [apply occurs_middle | ]. split.
  - apply occurs_right, occurs_right. apply occurs_middle.
  - do 4 apply occurs_right. apply occurs_right. apply occurs_middle.
Qed.

(** X21: a report that is rendered shows every result: the title, the source
    and the URL of each result are in the document. *)
Theorem report_lists_every_result (results : list AnalysisResult) (rows periodString : string) :
  fst (render_rows results tt) = Ok rows ->
  forall res, In res results ->
    occurs (text_of (res_title res)) (html_document periodString rows) = true
    /\ occurs (text_of (res_source res)) (html_document periodString rows) = true
    /\ occurs (text_of (res_url res)) (html_document periodString rows) = true.
Proof.
  intros R res I.
  assert (Rows : occurs (text_of (res_title res)) rows = true
                 /\ occurs (text_of (res_source res)) rows = true
                 /\ occurs (text_of (res_url res)) rows = true).
  { revert rows R. induction results as [ | r rest IH]; [contradiction | ].
    intros rows. cbn [render_rows]. unfold bind at 1.
    pose proof (render_row_shape r) as Shape.
    destruct (render_row r tt) as [[row | e | code] []]; cbn [fst snd] in *; try discriminate.
    unfold bind.
    destruct (render_rows rest tt) as [[rows' | e | code] []]; cbn [fst snd] in *; try discriminate.
    intros E. injection E as <-.
    destruct I as [-> | I].
    - destruct (Shape row eq_refl) as (fa & sc & b & ->).
      destruct (row_html_shows res fa sc b) as (T & S & U).
      repeat split; apply occurs_left; assumption.
    - destruct (IH I rows' eq_refl) as (T & S & U).
      repeat split; apply occurs_right; assumption. }
  destruct Rows as (T & S & U). unfold html_document.
  repeat split; repeat first [apply occurs_left; assumption | apply occurs_right].
Qed.

End Report_rows.

Section Scenes_of_the_report.

Import Demo Scenes.

(** The topic of the script and the same topic with underscores. *)
Lemma topic_cache_name_has_no_white_space_witness :
  cache_path "AI_business_use_cases" = cache_path "AI business use cases".
Proof.
  exact (proj2 (proj2 (topic_cache_name_has_no_white_space "AI business use cases"))).
Defined.

Lemma report_lists_every_result_witness :
  exists rows : string,
    fst (render_rows [result_of j1 (mkMotive (Some (analysis_of "First summary" 9)) false)] tt)
      = Ok rows
    /\ occurs "Banks and AI spending" (html_document "day-7 to day0" rows) = true
    /\ occurs "https://news.example/banks" (html_document "day-7 to day0" rows) = true.
Proof.
  pose (rows := match fst (render_rows
                             [result_of j1 (mkMotive (Some (analysis_of "First summary" 9)) false)] tt)
                with Ok rows => rows | _ => EmptyString end).
  assert (E : fst (render_rows
                     [result_of j1 (mkMotive (Some (analysis_of "First summary" 9)) false)] tt)
              = Ok rows) by (vm_compute; reflexivity).
  exists rows. split; [exact E | ].
  destruct (report_lists_every_result _ rows "day-7 to day0" E
              (result_of j1 (mkMotive (Some (analysis_of "First summary" 9)) false)))
    as (T & _ & U); [left; reflexivity | ].
  split; [exact T | exact U].
Defined.


(** The three articles asked for are in a cache one hour old. *)
Lemma answer_without_request_comes_from_the_cache_witness :
  exists f items,
    files second_fails_world !! cache_path topic = Some f
    /\ now second_fails_world - mtimeMs f < CACHE_TTL
    /\ JSON_parse (content f) = inl (JArr items)
    /\ newsMaxRequests config <= Z.of_nat (length items)
    /\ [j1; j2; j3] = firstn (Z.to_nat (newsMaxRequests config)) items
    /\ emit (loading config) second_fails_world = emit (loading config) second_fails_world.
Proof.
  apply (answer_without_request_comes_from_the_cache config topic second_fails_world
           (emit (loading config) second_fails_world) [j1; j2; j3]).
  - vm_compute. discriminate.
  - vm_compute. reflexivity.
  - reflexivity.
Defined.

End Scenes_of_the_report.

(** ** Runs that send no request *)

Section Quiet_runs.

Context `{Platform}.
Variable CONFIG : Config.

Lemma fetch_pages_none (topic fromDate : string) (pages : list Z) (w : World) (l : Scout) :
  newsMaxRequests CONFIG <= Z.of_nat (length (collectedArticles l)) ->
  fetch_pages CONFIG topic fromDate pages (w, l) = (Ok tt, (w, l)).
Proof.
  intros Full. destruct pages as [ | page later]; [reflexivity | ].
  rewrite fetch_pages_step. cbv zeta.
  destruct (_ <? _) eqn:Room; [apply Z.ltb_lt in Room; lia | reflexivity].
Qed.

(** X25: when no article is requested, the Scout sends no request.  With a
    number of articles to find that is zero or negative, [fetch_from_api]
    prints its first line and throws its terminal error; a run without a
    cache then stops with the exit status 1, having asked nothing. *)
Theorem nothing_requested_means_no_request (topic p : string) (w : World) :
  newsMaxRequests CONFIG <= 0 ->
  fetch_from_api CONFIG topic p w = (Throw no_articles, emit (fetching CONFIG) w)
  /\ (exists_path (cache_path "AI business use cases") w = false ->
      runMAS CONFIG (w, [])
      = (Exit 1, (emit (stopped no_articles) (emit (fetching CONFIG) (emit starting w)), []))).
Proof.
  intros None.
  assert (Api : forall topic p w,
            fetch_from_api CONFIG topic p w = (Throw no_articles, emit (fetching CONFIG) w)).
  { intros topic0 p0 w0.
    rewrite (fetch_from_api_returns CONFIG topic0 p0 w0 (emit (fetching CONFIG) w0) []); [reflexivity | ].
    unfold scout_pages, with_locals, bind.
    rewrite fetch_pages_none by (simpl; lia). reflexivity. }
  split; [apply Api | ].
  intros Absent. apply runMAS_scout_throws. rewrite fetchNews_run.
  rewrite (load_cached_absent CONFIG _ (emit starting w) Absent), Api. reflexivity.
Qed.


(** With its cache file there, [analyzeMotive] prints a line, and returns
    from the cache or throws. *)
Lemma analyzeMotive_cached (article : JsValue) (w : World) :
  article <> JNull ->
  exists_path (analysis_path article) w = true ->
  snd (analyzeMotive CONFIG article w) = emit (using_cache article) w
  /\ live (fst (analyzeMotive CONFIG article w)) = false.
Proof.
  intros NN E. destruct (files w !! analysis_path article) as [f | ] eqn:F.
  - rewrite (analyzeMotive_hit _ _ _ _ NN F). split; [reflexivity | ].
    cbn [fst]. destruct (JSON_parse (content f)) as [[] | ]; reflexivity.
  - rewrite (analyzeMotive_dir _ _ _ NN E F). split; reflexivity.
Qed.

Lemma warm_loop (articles : list JsValue) :
  forall count index w rs,
    (forall a, In a articles -> exists_path (analysis_path a) w = true) ->
    does offline w (fst (snd (investigate_all CONFIG count index articles (w, rs)))).
Proof.
  induction articles as [ | a rest IH]; intros count index w rs Warm; [apply does_refl | ].
  destruct (null_or_not a) as [-> | NN]; [apply does_refl | ].
  rewrite investigate_all_cons by exact NN.
  set (w3 := fst (snd (investigate CONFIG count index a (w, [])))).
  assert (Step : does offline w w3 /\ files w3 = files w /\ dirs w3 = dirs w).
  { unfold w3. rewrite investigate_next by exact NN.
    destruct (analyzeMotive_cached a (announced count index a w) NN) as [W L];
      [apply Warm; left; reflexivity | ].
    rewrite W, L. cbn [andb].
    destruct (fst (analyzeMotive CONFIG a (announced count index a w))) as [r | e | code].
    - split; [ | split; reflexivity].
      exists [EvLog ("
[" +:+ pretty (index + 1) +:+ "/" +:+ pretty count +:+ "] Investigating: " +:+ field a "title" +:+ "...");
              using_cache a].
      split; [repeat constructor | reflexivity].
    - split; [ | split; reflexivity].
      exists [EvLog ("
[" +:+ pretty (index + 1) +:+ "/" +:+ pretty count +:+ "] Investigating: " +:+ field a "title" +:+ "...");
              using_cache a; failed_to_analyze a e].
      split; [repeat constructor | reflexivity].
    - split; [ | split; reflexivity].
      exists [EvLog ("
[" +:+ pretty (index + 1) +:+ "/" +:+ pretty count +:+ "] Investigating: " +:+ field a "title" +:+ "...");
              using_cache a].
      split; [repeat constructor | reflexivity]. }
  destruct Step as (D & F & Dr).
  apply (does_trans offline w w3); [exact D | ].
  apply IH. intros a' I'. unfold exists_path. rewrite F, Dr. apply Warm. right. exact I'.
Qed.

Lemma with_reports_dir_offline (w : World) : does offline w (with_reports_dir w).
Proof.
  unfold with_reports_dir. destruct (exists_path REPORTS_DIR w); [apply does_refl | ].
  apply (does_one offline (EvMkdir REPORTS_DIR)). exact I.
Qed.

Lemma generateHTMLReport_offline (results : list AnalysisResult) (w : World) :
  does offline w (snd (generateHTMLReport results w)).
Proof.
  rewrite generateHTMLReport_run.
  destruct (fst (render_rows results tt)) as [rows | e | code]; cbn [snd];
    try apply with_reports_dir_offline.
  apply (does_trans offline w _ _ (with_reports_dir_offline w)).
  exists [EvWrite (report_path (now w)) (html_document (report_period (now w)) rows);
          generated (now w)].
  split; [repeat constructor | reflexivity].
Qed.

Lemma stop_offline (e : JsError) (w : World) (results : list AnalysisResult) :
  does offline w (fst (snd (stop e (w, results)))).
Proof.
  rewrite stop_run.
  assert (S : does offline w (emit (stopped e) w)) by (apply (does_one offline (stopped e)); exact I).
  destruct results as [ | r rs]; [exact S | ].
  pose proof (generateHTMLReport_offline (r :: rs) (emit (stopped e) w)) as G.
  destruct (generateHTMLReport (r :: rs) (emit (stopped e) w)) as [[[] | e' | code] w4];
    cbn [fst snd] in *; apply (does_trans offline w _ _ S G).
Qed.

(** X26: a run with a warm cache is offline.  When the article-list cache is
    fresh and holds at least the number of articles requested, and the
    analysis cache has a file for each of the articles taken from it, the run
    sends no request to the news service and none to the model, and it never
    pauses. *)
Theorem warm_cache_run_is_offline (w : World) (f : File) (items : list JsValue) :
  files w !! cache_path "AI business use cases" = Some f ->
  now w - mtimeMs f < CACHE_TTL ->
  JSON_parse (content f) = inl (JArr items) ->
  0 <= newsMaxRequests CONFIG <= Z.of_nat (length items) ->
  (forall a, In a (firstn (Z.to_nat (newsMaxRequests CONFIG)) items) ->
             exists_path (analysis_path a) w = true) ->
  let w' := final_world CONFIG w in
  news_requests (trace w') = news_requests (trace w)
  /\ chat_requests (trace w') = chat_requests (trace w)
  /\ now w' = now w.
Proof.
  intros F Fresh P N Warm w'.
  assert (D : does offline w w').
  { subst w'. unfold final_world.
    assert (Fetch : fetchNews CONFIG "AI business use cases" (emit starting w)
                    = (Ok (JArr (firstn (Z.to_nat (newsMaxRequests CONFIG)) items)),
                       emit (loading CONFIG) (emit starting w))).
    { rewrite fetchNews_run.
      rewrite (load_cached_fresh CONFIG _ (emit starting w) f items F Fresh P N).
      reflexivity. }
    assert (Start : does offline w (emit (loading CONFIG) (emit starting w))).
    { exists [starting; loading CONFIG]. split; [repeat constructor | reflexivity]. }
    assert (Loop : forall count rs,
              does offline w
                (fst (snd (investigate_all CONFIG count 0
                             (firstn (Z.to_nat (newsMaxRequests CONFIG)) items)
                             (emit (loading CONFIG) (emit starting w), rs))))).
    { intros count rs. apply (does_trans offline w _ _ Start).
      apply warm_loop. intros a Ia. apply Warm. exact Ia. }
    destruct (runMAS_outcome CONFIG w)
      as [(e & w1 & F1 & R)
         | [(v & e & w1 & F1 & NA & R)
           | [(good & rest & w1 & w2 & F1 & NN & W2 & R)
             | (articles & w1 & w2 & F1 & NN & L & Cases)]]];
      rewrite Fetch in F1.
    - discriminate.
    - injection F1 as <- _. exfalso. exact (NA _ eq_refl).
    - injection F1 as E1 <-. rewrite R.
      apply (does_trans offline w w2); [ | apply stop_offline].
      rewrite W2, <- E1. apply Loop.
    - injection F1 as <- <-. cbv zeta in L, Cases.
      assert (Loop2 : does offline w w2).
      { specialize (Loop (Z.of_nat (length (firstn (Z.to_nat (newsMaxRequests CONFIG)) items))) []).
        rewrite L in Loop. exact Loop. }
      assert (Dir : does offline w (with_reports_dir w2)).
      { apply (does_trans offline w w2 _ Loop2), with_reports_dir_offline. }
      destruct Cases as [(rows & _ & R) | (e & _ & R)]; rewrite R; cbn [fst snd].
      + apply (does_trans offline w _ _ Dir).
        exists [EvWrite (report_path (now w2)) (html_document (report_period (now w2)) rows);
                generated (now w2)].
        split; [repeat constructor | reflexivity].
      + apply (does_trans offline w _ _ Dir).
        apply (does_one offline (stopped e)). exact I. }
  split; [ | split].
  - apply (does_no_news offline); [ | exact D].
    intros e Pe r ->. exact Pe.
  - apply (does_no_chat offline); [ | exact D].
    intros e Pe r ->. exact Pe.
  - destruct D as (events & Q & ->). apply replay_now.
    eapply Forall_impl; [exact Q | ]. intros e Pe ms ->. exact Pe.
Qed.

End Quiet_runs.

Section Quiet_scenes.

Import Demo Scenes.

(** No article requested and nothing on disk. *)
Lemma nothing_requested_means_no_request_witness :
  runMAS (mkConfig "key" "https://llm.example/v1" "demo-model" "news-key" 0 20 4500)
    (world ∅ 0 [] [], [])
  = (Exit 1,
     (emit (stopped no_articles)
        (emit (fetching (mkConfig "key" "https://llm.example/v1" "demo-model" "news-key" 0 20 4500))
           (emit starting (world ∅ 0 [] []))), [])).
Proof.
  refine (proj2 (nothing_requested_means_no_request
                   (mkConfig "key" "https://llm.example/v1" "demo-model" "news-key" 0 20 4500)
                   topic (cache_path topic) (world ∅ 0 [] []) _) _).
  - vm_compute. discriminate.
  - vm_compute. reflexivity.
Defined.

(** The list [a1] and the analysis of [a1] in the cache, one article
    requested. *)
Lemma warm_cache_run_is_offline_witness :
  chat_requests (trace (final_world config1 warm_world)) = []
  /\ news_requests (trace (final_world config1 warm_world)) = []
  /\ now (final_world config1 warm_world) = hour.
Proof.
  destruct (warm_cache_run_is_offline config1 warm_world
              (mkFile (print (JArr [j1])) 0) [j1]) as (N & C & T).
  - vm_compute. reflexivity.
  - vm_compute. reflexivity.
  - vm_compute. reflexivity.
  - vm_compute. split; discriminate.
  - intros a [<- | []]. vm_compute. reflexivity.
  - split; [exact C | ]. split; [exact N | exact T].
Defined.

End Quiet_scenes.

(** ** The loop, the report and the exit status *)

Section Report_content.

Context `{Platform}.








End Report_content.

Section Claims_on_the_run.

Context `{Platform}.
Variable CONFIG : Config.




End Claims_on_the_run.

Section Scenes_of_the_run.

Import Demo Scenes.

(** C1: three cached articles; the analysis of the second fails and the model
    answers the third request with a completion without text, or with an
    object that has a score and no summary.  The third analysis returns (its
    result is the empty object, or the object of the score), the loop
    accumulates the first and the third article, the rendering of the third
    throws in the [try] block and again in the [catch] block, and the run
    ends with the exit status 1 without a report: the only files written are
    the two cache entries, and the first article, whose analysis succeeded,
    is in no report. *)
Lemma empty_third_answer_leaves_no_report :
  map snd (analyses config 3 0 [j1; j2; j3] (emit (loading config) (emit starting empty_third_world)))
    = [Ok (mkMotive (Some (analysis_of "First summary" 9)) false);
       Throw (mkError Error "429 rate limited");
       Ok (mkMotive (Some (JObj [])) false)]
  /\ snd (snd (runMAS config (empty_third_world, [])))
     = [result_of j1 (mkMotive (Some (analysis_of "First summary" 9)) false);
        result_of j3 (mkMotive (Some (JObj [])) false)]
  /\ fst (runMAS config (empty_third_world, []))
     = Throw (mkError Error "marked(): input parameter is undefined or null")
  /\ written_paths (trace (final_world config empty_third_world))
     = [analysis_path j1; analysis_path j3]
  /\ exists_path (report_path (now (final_world config empty_third_world)))
       (final_world config empty_third_world) = false
  /\ exit_status config empty_third_world = 1
  /\ snd (snd (runMAS config (partial_third_world, [])))
     = [result_of j1 (mkMotive (Some (analysis_of "First summary" 9)) false);
        result_of j3 (mkMotive (Some (JObj [("motive_score", JNum 3)])) false)]
  /\ written_paths (trace (final_world config partial_third_world))
     = [analysis_path j1; analysis_path j3]
  /\ exit_status config partial_third_world = 1.
Proof. vm_compute. repeat split; reflexivity. Qed.



(** A cached entry that is no article object is analysed like any other. *)
Example odd_entry_is_analysed :
  fetchNews config1 topic (emit starting odd_cache_world)
    = (Ok (JArr [oddity]), emit (loading config1) (emit starting odd_cache_world))
  /\ chat_requests (trace (final_world config1 odd_cache_world))
     = [investigator_request config1 oddity]
  /\ exit_status config1 odd_cache_world = 0.
Proof. vm_compute. repeat split; reflexivity. Qed.

End Scenes_of_the_run.
